(** * Good for Good - paginated list fetching, donor aggregation,
      donation form and WordPress sync

    A shallow embedding of the data-access code of the trust management
    application, and the properties of it that the specification states.

    Source files embedded here:
    - [src/app/donors/page.tsx]: [processDonations], [fetchDonors],
      [loadMore], [handleSearch];
    - [src/app/expenses/page.tsx]: [fetchExpenses];
    - the donation form component ([DonationForm], [handleSubmit]);
    - the content sync ([syncWordPressData]).

    The application talks to a hosted document store (Firestore) through
    [query], [where], [orderBy], [startAfter], [limit], [getDocs], [addDoc]
    and [updateDoc].  The store is not part of the repository; module
    [Firestore] below gives the fragment of its documented query semantics
    that the application relies on.

    Conventions: JavaScript strings are byte strings in UTF-8 (the order in
    which the store compares strings); JavaScript numbers that the code
    uses as integers are [Z]; a function that can throw returns a [Result]. *)

From Stdlib Require Import List String Ascii ZArith Bool Lia PeanoNat.
From Stdlib Require Import Permutation Sorted OrderedTypeEx.
Import ListNotations.

Set Implicit Arguments.

Open Scope string_scope.
Open Scope list_scope.

(* ================================================================= *)
(** * Part I - the program *)
(* ================================================================= *)

(** ** JavaScript values and exceptions *)

(** A store-native timestamp: seconds since the epoch and the nanoseconds
    within that second. *)
Record Timestamp : Type := { seconds : Z; nanoseconds : Z }.

(** [Timestamp.toDate()] builds a [Date] from
    [seconds * 1000 + nanoseconds / 1e6]; a [Date] keeps whole
    milliseconds, truncating towards zero.  Two [Date]s are compared
    by that millisecond instant. *)
Definition toDate (t : Timestamp) : Z :=
  Z.quot (seconds t * 1000000000 + nanoseconds t) 1000000.

(** The values a field typed [any] holds in this application: the field
    may be missing ([Undefined]), [null], a number, a string or a native
    timestamp. *)
Inductive Value : Type :=
| Undefined
| Null
| Num (n : Z)
| Str (s : string)
| Ts (t : Timestamp).

(** JavaScript truthiness, as used by [!x] and [x && y]. *)
Definition truthy (v : Value) : bool :=
  match v with
  | Undefined | Null => false
  | Num n => negb (n =? 0)%Z
  | Str s => negb (s =? "")%string
  | Ts _ => true
  end.

Inductive Exn : Type :=
| TypeError (msg : string)
| FirebaseError (code : string).

Inductive Result (A : Type) : Type :=
| Ok (a : A)
| Raise (e : Exn).
Arguments Ok {A} a.
Arguments Raise {A} e.

Definition bind {A B : Type} (r : Result A) (k : A -> Result B) : Result B :=
  match r with
  | Ok a => k a
  | Raise e => Raise e
  end.

Notation "x <- r ;; k" := (bind r (fun x => k))
  (at level 61, r at next level, right associativity).

(** [v.toDate()]: only a native timestamp has the method; on a string or
    a number the call throws a [TypeError]. *)
Definition callToDate (v : Value) : Result Z :=
  match v with
  | Ts t => Ok (toDate t)
  | _ => Raise (TypeError "toDate is not a function")
  end.

(** ** Stable sorting

    [Array.prototype.sort] is stable, and so is the order in which the
    store returns documents.  [sortBy c] is the stable insertion sort for
    a three-way comparison [c]: [x] stays in front of [y] unless
    [c x y = Gt]. *)
Section Sorting.
Variable A : Type.
Variable c : A -> A -> comparison.

Definition notGt (x y : A) : bool :=
  match c x y with Gt => false | _ => true end.

Fixpoint insertSorted (x : A) (l : list A) : list A :=
  match l with
  | [] => [x]
  | y :: l' => if notGt x y then x :: l else y :: insertSorted x l'
  end.

Fixpoint sortBy (l : list A) : list A :=
  match l with
  | [] => []
  | x :: l' => insertSorted x (sortBy l')
  end.
End Sorting.

(** [arr.sort(compareFn)] with a numeric [compareFn]: a negative result
    puts [a] first. *)
Definition arraySort {A : Type} (compareFn : A -> A -> Z) (arr : list A) : list A :=
  sortBy (fun a b => Z.compare (compareFn a b) 0) arr.

(** [arr[arr.length - 1]], which is [undefined] on the empty array. *)
Definition lastElement {A : Type} (arr : list A) : option A :=
  nth_error arr (List.length arr - 1).

(** ** The document store *)
Module Firestore.

(** A document exposes its id and its fields by name. *)
Class Document (A : Type) : Type := {
  docId : A -> string;
  docField : A -> string -> Value
}.

Inductive WhereOp : Type := OpEq | OpGe | OpLe.
Inductive Direction : Type := Asc | Desc.

(** The arguments of [query(collection, ...)]. *)
Inductive QueryConstraint (A : Type) : Type :=
| where_ (field : string) (op : WhereOp) (v : Value)
| orderBy (field : string) (dir : Direction)
| startAfter (snapshot : A)
| limit (n : nat).
Arguments where_ {A} field op v.
Arguments orderBy {A} field dir.
Arguments startAfter {A} snapshot.
Arguments limit {A} n.

Definition Query (A : Type) : Type := list (QueryConstraint A).

(** *** Order of values

    Values of different types are ordered by type: null, then numbers,
    then timestamps, then strings.  Numbers are ordered numerically,
    timestamps chronologically at full precision, strings by their
    UTF-8 bytes. *)
Definition typeRank (v : Value) : nat :=
  match v with
  | Undefined => 0
  | Null => 1
  | Num _ => 2
  | Ts _ => 3
  | Str _ => 4
  end.

Definition timestampCompare (t u : Timestamp) : comparison :=
  match Z.compare (seconds t) (seconds u) with
  | Eq => Z.compare (nanoseconds t) (nanoseconds u)
  | r => r
  end.

Definition valueCompare (v w : Value) : comparison :=
  match v, w with
  | Num n, Num m => Z.compare n m
  | Str s, Str t => String.compare s t
  | Ts t, Ts u => timestampCompare t u
  | _, _ => Nat.compare (typeRank v) (typeRank w)
  end.

Definition applyDir (dir : Direction) (r : comparison) : comparison :=
  match dir with Asc => r | Desc => CompOpp r end.

Section Queries.
Context {A : Type} `{Document A}.

Fixpoint filtersOf (q : Query A) : list (string * WhereOp * Value) :=
  match q with
  | [] => []
  | where_ f op v :: q' => (f, op, v) :: filtersOf q'
  | _ :: q' => filtersOf q'
  end.

Fixpoint ordersOf (q : Query A) : list (string * Direction) :=
  match q with
  | [] => []
  | orderBy f dir :: q' => (f, dir) :: ordersOf q'
  | _ :: q' => ordersOf q'
  end.

Fixpoint cursorOf (q : Query A) : option A :=
  match q with
  | [] => None
  | startAfter c :: _ => Some c
  | _ :: q' => cursorOf q'
  end.

Fixpoint limitOf (q : Query A) : option nat :=
  match q with
  | [] => None
  | limit n :: _ => Some n
  | _ :: q' => limitOf q'
  end.

(** A filter only matches a field of the same type as its operand. *)
Definition satisfies (d : A) (flt : string * WhereOp * Value) : bool :=
  let '(f, op, v) := flt in
  let x := docField d f in
  (typeRank x =? typeRank v)%nat &&
  match op, valueCompare x v with
  | OpEq, Eq => true
  | OpGe, (Eq | Gt) => true
  | OpLe, (Eq | Lt) => true
  | _, _ => false
  end.

(** A document without an ordered field is not in the result. *)
Definition hasField (d : A) (o : string * Direction) : bool :=
  match docField d (fst o) with Undefined => false | _ => true end.

Fixpoint fieldsCompare (os : list (string * Direction)) (d e : A) : comparison :=
  match os with
  | [] => Eq
  | (f, dir) :: os' =>
      match applyDir dir (valueCompare (docField d f) (docField e f)) with
      | Eq => fieldsCompare os' d e
      | r => r
      end
  end.

(** The store appends the document id to every order, in the
    direction of the last [orderBy] (ascending when there is none). *)
Definition lastDirection (os : list (string * Direction)) : Direction :=
  last (map snd os) Asc.

Definition docCompare (os : list (string * Direction)) (d e : A) : comparison :=
  match fieldsCompare os d e with
  | Eq => applyDir (lastDirection os) (String.compare (docId d) (docId e))
  | r => r
  end.

Definition isLt (r : comparison) : bool :=
  match r with Lt => true | _ => false end.

(** The documents a query returns: those passing every filter and
    having every ordered field, in order, strictly after the cursor
    document, up to the limit. *)
Definition runQuery (coll : list A) (q : Query A) : list A :=
  let os := ordersOf q in
  let matching :=
    filter (fun d => forallb (satisfies d) (filtersOf q) && forallb (hasField d) os) coll in
  let ordered := sortBy (docCompare os) matching in
  let rest :=
    match cursorOf q with
    | None => ordered
    | Some c => filter (fun d => isLt (docCompare os c d)) ordered
    end in
  match limitOf q with
  | None => rest
  | Some n => firstn n rest
  end.
End Queries.

End Firestore.

(** ** Three-way comparisons *)

(** A comparison that is a total preorder: swapping the arguments flips
    the answer, [Lt] is transitive, and arguments that compare [Eq] are
    interchangeable on the left. *)
Record TotalCompare {A : Type} (c : A -> A -> comparison) : Prop := {
  tc_antisym : forall a b, c b a = CompOpp (c a b);
  tc_trans : forall a b d, c a b = Lt -> c b d = Lt -> c a d = Lt;
  tc_eq_cong : forall a b d, c a b = Eq -> c a d = c b d
}.


(** ** Records of [src/types/index.ts] *)

Module Donation.
Inductive Kind : Type := member | general.

(** [date] is typed [any] in the source (commented "Firestore
    Timestamp"); it is kept as a dynamic [Value].  [amount] is typed
    [number]: the records here hold whole amounts, and the sums that the
    code forms of them are written with the arithmetic of [Z], which is
    what the doubles of the code compute as long as every number formed
    stays within [2^53] in magnitude (see [Exact] below). *)
Record t : Type := {
  id : string;
  donor : string;
  amount : Z;
  date : Value;
  purpose : string;
  notes : option string;
  type : option Kind;
  memberId : option string
}.

Definition optStr (o : option string) : Value :=
  match o with Some s => Str s | None => Undefined end.

#[global] Instance document : Firestore.Document t := {
  docId := id;
  docField d f :=
    if (f =? "donor")%string then Str (donor d)
    else if (f =? "amount")%string then Num (amount d)
    else if (f =? "date")%string then date d
    else if (f =? "purpose")%string then Str (purpose d)
    else if (f =? "notes")%string then optStr (notes d)
    else if (f =? "type")%string then
      match type d with
      | Some member => Str "member"
      | Some general => Str "general"
      | None => Undefined
      end
    else if (f =? "memberId")%string then optStr (memberId d)
    else Undefined
}.
End Donation.

Module Expense.
Record t : Type := {
  id : string;
  description : string;
  amount : Z;
  date : Value;
  category : string;
  paymentMethod : string;
  paidTo : string;
  billNumber : option string;
  notes : option string;
  createdAt : Value;
  updatedAt : Value
}.

#[global] Instance document : Firestore.Document t := {
  docId := id;
  docField d f :=
    if (f =? "description")%string then Str (description d)
    else if (f =? "amount")%string then Num (amount d)
    else if (f =? "date")%string then date d
    else if (f =? "category")%string then Str (category d)
    else if (f =? "paymentMethod")%string then Str (paymentMethod d)
    else if (f =? "paidTo")%string then Str (paidTo d)
    else if (f =? "billNumber")%string then Donation.optStr (billNumber d)
    else if (f =? "notes")%string then Donation.optStr (notes d)
    else if (f =? "createdAt")%string then createdAt d
    else if (f =? "updatedAt")%string then updatedAt d
    else Undefined
}.
End Expense.

(** A document of the [wordpress_posts] collection, as written by the
    sync. *)
Module WordPressDoc.
Record t : Type := {
  id : string;
  wp_id : Z;
  title : string;
  content : string;
  date : string;
  last_modified : string;
  slug : string;
  synced_at : string
}.

#[global] Instance document : Firestore.Document t := {
  docId := id;
  docField d f :=
    if (f =? "wp_id")%string then Num (wp_id d)
    else if (f =? "title")%string then Str (title d)
    else if (f =? "content")%string then Str (content d)
    else if (f =? "date")%string then Str (date d)
    else if (f =? "last_modified")%string then Str (last_modified d)
    else if (f =? "slug")%string then Str (slug d)
    else if (f =? "synced_at")%string then Str (synced_at d)
    else Undefined
}.
End WordPressDoc.

(** The database handle [db]: the collections the application reads and
    writes.  [online] tells whether the store answers; when it does not,
    every call throws. *)
Record Database : Type := {
  online : bool;
  donations : list Donation.t;
  expenses : list Expense.t;
  wordpress_posts : list WordPressDoc.t
}.

Definition getDocs {A : Type} `{Firestore.Document A}
    (db : Database) (coll : list A) (q : Firestore.Query A) : Result (list A) :=
  if online db then Ok (Firestore.runQuery coll q)
  else Raise (FirebaseError "unavailable").

(** The private-use code point U+F8FF that the search appends to the
    term, in UTF-8. *)
Definition uF8FF : string :=
  String (ascii_of_nat 239) (String (ascii_of_nat 163) (String (ascii_of_nat 191) EmptyString)).

(** [collection(db, 'donations')], [collection(db, 'expenses')] and
    [collection(db, 'wordpress_posts')]. *)
Definition collection_donations (db : Database) : list Donation.t := donations db.
Definition collection_expenses (db : Database) : list Expense.t := expenses db.
Definition collection_wordpress_posts (db : Database) : list WordPressDoc.t :=
  wordpress_posts db.

(** ** The donors page ([src/app/donors/page.tsx]) *)
Module DonorsPage.
Import Firestore.

Record DonorSummary : Type := {
  name : string;
  totalAmount : Z;
  lastDonation : Value;
  donationCount : Z
}.

(** [Map<string, DonorSummary>]: a JavaScript [Map] iterates in the
    order in which its keys were first inserted, and [set] on a present
    key keeps the key's position. *)
Definition DonorMap : Type := list (string * DonorSummary).

Fixpoint mapGet (m : DonorMap) (k : string) : option DonorSummary :=
  match m with
  | [] => None
  | (k', v) :: m' => if (k' =? k)%string then Some v else mapGet m' k
  end.

Fixpoint mapSet (m : DonorMap) (k : string) (v : DonorSummary) : DonorMap :=
  match m with
  | [] => [(k, v)]
  | (k', v') :: m' =>
      if (k' =? k)%string then (k, v) :: m' else (k', v') :: mapSet m' k v
  end.

Definition mapValues (m : DonorMap) : list DonorSummary := map snd m.

(** The condition of the [if] in [processDonations]:
    [!existing.lastDonation ||
     (donation.date && existing.lastDonation &&
      donation.date.toDate() > existing.lastDonation.toDate())],
    evaluated left to right with short circuit. *)
Definition isMoreRecent (existing : DonorSummary) (donation : Donation.t) : Result bool :=
  if negb (truthy (lastDonation existing)) then Ok true
  else if truthy (Donation.date donation) then
    if truthy (lastDonation existing) then
      a <- callToDate (Donation.date donation) ;;
      b <- callToDate (lastDonation existing) ;;
      Ok (a >? b)%Z
    else Ok false
  else Ok false.

(** The body of [donations.forEach(donation => ...)]. *)
Definition accumulate (donorMap : DonorMap) (donation : Donation.t) : Result DonorMap :=
  let existing :=
    match mapGet donorMap (Donation.donor donation) with
    | Some e => e
    | None => {| name := Donation.donor donation;
                 totalAmount := 0;
                 lastDonation := Null;
                 donationCount := 0 |}
    end in
  let existing :=
    {| name := name existing;
       totalAmount := totalAmount existing + Donation.amount donation;
       lastDonation := lastDonation existing;
       donationCount := donationCount existing + 1 |} in
  newer <- isMoreRecent existing donation ;;
  let existing :=
    if (newer : bool) then
      {| name := name existing;
         totalAmount := totalAmount existing;
         lastDonation := Donation.date donation;
         donationCount := donationCount existing |}
    else existing in
  Ok (mapSet donorMap (Donation.donor donation) existing).

Fixpoint forEach (donations : list Donation.t) (donorMap : DonorMap) : Result DonorMap :=
  match donations with
  | [] => Ok donorMap
  | donation :: rest =>
      donorMap' <- accumulate donorMap donation ;;
      forEach rest donorMap'
  end.

Definition processDonations (donations : list Donation.t) : Result (list DonorSummary) :=
  donorMap <- forEach donations [] ;;
  Ok (arraySort (fun a b => totalAmount b - totalAmount a)%Z (mapValues donorMap)).

(** *** Page state and fetching *)

Record State : Type := {
  donors : list DonorSummary;
  loading : bool;
  error : option string;
  searchTerm : string;
  currentPage : Z;
  hasMore : bool;
  lastVisible : option Donation.t;
  isSearching : bool;
  allDonations : list Donation.t
}.

Definition initialState : State :=
  {| donors := []; loading := true; error := None; searchTerm := "";
     currentPage := 1; hasMore := true; lastVisible := None;
     isSearching := false; allDonations := [] |}.

Definition setDonors v st :=
  {| donors := v; loading := loading st; error := error st;
     searchTerm := searchTerm st; currentPage := currentPage st;
     hasMore := hasMore st; lastVisible := lastVisible st;
     isSearching := isSearching st; allDonations := allDonations st |}.
Definition setLoading v st :=
  {| donors := donors st; loading := v; error := error st;
     searchTerm := searchTerm st; currentPage := currentPage st;
     hasMore := hasMore st; lastVisible := lastVisible st;
     isSearching := isSearching st; allDonations := allDonations st |}.
Definition setError v st :=
  {| donors := donors st; loading := loading st; error := v;
     searchTerm := searchTerm st; currentPage := currentPage st;
     hasMore := hasMore st; lastVisible := lastVisible st;
     isSearching := isSearching st; allDonations := allDonations st |}.
Definition setSearchTerm v st :=
  {| donors := donors st; loading := loading st; error := error st;
     searchTerm := v; currentPage := currentPage st;
     hasMore := hasMore st; lastVisible := lastVisible st;
     isSearching := isSearching st; allDonations := allDonations st |}.
Definition setCurrentPage v st :=
  {| donors := donors st; loading := loading st; error := error st;
     searchTerm := searchTerm st; currentPage := v;
     hasMore := hasMore st; lastVisible := lastVisible st;
     isSearching := isSearching st; allDonations := allDonations st |}.
Definition setHasMore v st :=
  {| donors := donors st; loading := loading st; error := error st;
     searchTerm := searchTerm st; currentPage := currentPage st;
     hasMore := v; lastVisible := lastVisible st;
     isSearching := isSearching st; allDonations := allDonations st |}.
Definition setLastVisible v st :=
  {| donors := donors st; loading := loading st; error := error st;
     searchTerm := searchTerm st; currentPage := currentPage st;
     hasMore := hasMore st; lastVisible := v;
     isSearching := isSearching st; allDonations := allDonations st |}.
Definition setIsSearching v st :=
  {| donors := donors st; loading := loading st; error := error st;
     searchTerm := searchTerm st; currentPage := currentPage st;
     hasMore := hasMore st; lastVisible := lastVisible st;
     isSearching := v; allDonations := allDonations st |}.
Definition setAllDonations v st :=
  {| donors := donors st; loading := loading st; error := error st;
     searchTerm := searchTerm st; currentPage := currentPage st;
     hasMore := hasMore st; lastVisible := lastVisible st;
     isSearching := isSearching st; allDonations := v |}.

Section PageSize.
(** The page size; the source fixes it to [ITEMS_PER_PAGE]. *)
Variable pageSize : nat.

(** The query [q] that [fetchDonors] builds. *)
Definition donorsQuery (isNewSearch : bool) (st : State) : Query Donation.t :=
  if negb (searchTerm st =? "")%string then
    [ where_ "donor" OpGe (Str (searchTerm st));
      where_ "donor" OpLe (Str (searchTerm st ++ uF8FF));
      orderBy "donor" Asc;
      orderBy "date" Desc;
      limit pageSize ]
  else
    match isNewSearch, lastVisible st with
    | false, Some cursor =>
        [ orderBy "date" Desc; startAfter cursor; limit pageSize ]
    | _, _ =>
        [ orderBy "date" Desc; limit pageSize ]
    end.

Definition failedToLoad : string :=
  "Failed to load donors. Please try again later.".

(** [fetchDonors(isNewSearch)].  The state setters called before an
    exception is thrown keep their effect; the [catch] block then
    records the error and [finally] clears [loading]. *)
Definition fetchDonorsWith (isNewSearch : bool) (db : Database) (st : State) : State :=
  let st := setLoading true st in
  match getDocs db (collection_donations db) (donorsQuery isNewSearch st) with
  | Raise _ => setLoading false (setError (Some failedToLoad) st)
  | Ok docs =>
      let donations := docs in
      let st1 :=
        if isNewSearch then setAllDonations donations st
        else setAllDonations (allDonations st ++ donations) st in
      let st2 := setLastVisible (lastElement docs) st1 in
      let st3 := setHasMore (List.length docs =? pageSize)%nat st2 in
      match processDonations
              (if isNewSearch then donations else allDonations st ++ donations) with
      | Ok donorList => setLoading false (setError None (setDonors donorList st3))
      | Raise _ => setLoading false (setError (Some failedToLoad) st3)
      end
  end.

(** [useEffect(() => { fetchDonors(true) }, [])]. *)
Definition mountWith (db : Database) : State :=
  fetchDonorsWith true db initialState.

(** [handleSearch]. *)
Definition handleSearchWith (db : Database) (st : State) : State :=
  fetchDonorsWith true db (setCurrentPage 1 (setIsSearching true st)).

(** [loadMore]. *)
Definition loadMoreWith (db : Database) (st : State) : State :=
  if negb (loading st) && hasMore st then
    fetchDonorsWith false db (setCurrentPage (currentPage st + 1) st)
  else st.
End PageSize.

Definition ITEMS_PER_PAGE : nat := 10.
Definition fetchDonors := fetchDonorsWith ITEMS_PER_PAGE.
Definition mount := mountWith ITEMS_PER_PAGE.
Definition handleSearch := handleSearchWith ITEMS_PER_PAGE.
Definition loadMore := loadMoreWith ITEMS_PER_PAGE.

(** Pressing "Load More" [n] times. *)
Fixpoint loadMoreTimes (pageSize n : nat) (db : Database) (st : State) : State :=
  match n with
  | O => st
  | S n' => loadMoreTimes pageSize n' db (loadMoreWith pageSize db st)
  end.

End DonorsPage.

(** ** The expenses page ([src/app/expenses/page.tsx])

    Only the state that [fetchExpenses] reads or writes is kept; the
    modal flags of the page play no part in fetching. *)
Module ExpensesPage.
Import Firestore.

Record State : Type := {
  expenses : list Expense.t;
  loading : bool;
  error : option string;
  searchTerm : string;
  currentPage : Z;
  hasMore : bool;
  lastVisible : option Expense.t;
  isSearching : bool
}.

Definition initialState : State :=
  {| expenses := []; loading := true; error := None; searchTerm := "";
     currentPage := 1; hasMore := true; lastVisible := None;
     isSearching := false |}.

Definition setSearchTerm (v : string) (st : State) : State :=
  {| expenses := expenses st; loading := loading st; error := error st;
     searchTerm := v; currentPage := currentPage st; hasMore := hasMore st;
     lastVisible := lastVisible st; isSearching := isSearching st |}.

Section PageSize.
Variable pageSize : nat.

(** The query [q] that [fetchExpenses] builds. *)
Definition expensesQuery (isNewSearch : bool) (st : State) : Query Expense.t :=
  if negb (searchTerm st =? "")%string then
    [ where_ "description" OpGe (Str (searchTerm st));
      where_ "description" OpLe (Str (searchTerm st ++ uF8FF));
      orderBy "description" Asc;
      orderBy "date" Desc;
      limit pageSize ]
  else
    match isNewSearch, lastVisible st with
    | false, Some cursor =>
        [ orderBy "date" Desc; startAfter cursor; limit pageSize ]
    | _, _ =>
        [ orderBy "date" Desc; limit pageSize ]
    end.

Definition failedToLoad : string :=
  "Failed to load expenses. Please try again later.".

(** [fetchExpenses(isNewSearch)]. *)
Definition fetchExpensesWith (isNewSearch : bool) (db : Database) (st : State) : State :=
  match getDocs db (collection_expenses db) (expensesQuery isNewSearch st) with
  | Raise _ =>
      {| expenses := expenses st; loading := false; error := Some failedToLoad;
         searchTerm := searchTerm st; currentPage := currentPage st;
         hasMore := hasMore st; lastVisible := lastVisible st;
         isSearching := isSearching st |}
  | Ok docs =>
      let expensesData := docs in
      {| expenses := if isNewSearch then expensesData else expenses st ++ expensesData;
         loading := false;
         error := None;
         searchTerm := searchTerm st;
         currentPage := currentPage st;
         hasMore := (List.length docs =? pageSize)%nat;
         lastVisible := lastElement docs;
         isSearching := isSearching st |}
  end.

(** [useEffect(() => { fetchExpenses(true) }, [])]. *)
Definition mountWith (db : Database) : State :=
  fetchExpensesWith true db initialState.

(** [loadMore]. *)
Definition loadMoreWith (db : Database) (st : State) : State :=
  if negb (loading st) && hasMore st then
    fetchExpensesWith false db
      {| expenses := expenses st; loading := loading st; error := error st;
         searchTerm := searchTerm st; currentPage := (currentPage st + 1)%Z;
         hasMore := hasMore st; lastVisible := lastVisible st;
         isSearching := isSearching st |}
  else st.
End PageSize.

Definition ITEMS_PER_PAGE : nat := 10.
Definition fetchExpenses := fetchExpensesWith ITEMS_PER_PAGE.
Definition mount := mountWith ITEMS_PER_PAGE.
Definition loadMore := loadMoreWith ITEMS_PER_PAGE.

(** Pressing "Load More" [n] times. *)
Fixpoint loadMoreTimes (pageSize n : nat) (db : Database) (st : State) : State :=
  match n with
  | O => st
  | S n' => loadMoreTimes pageSize n' db (loadMoreWith pageSize db st)
  end.

End ExpensesPage.

(** ** The donation forms ([DonationForm], [MemberDonationForm]) *)

(** A JavaScript number as far as [parseInt] is concerned: an integer or
    [NaN].  [Int z] is the integer that the digits write; the double
    that [parseInt] returns is that integer when it is at most [2^53] in
    magnitude, and the double nearest to it beyond. *)
Inductive JsNumber : Type :=
| Int (z : Z)
| NaN.

Module Browser.

Definition isDigit (c : ascii) : bool :=
  (48 <=? nat_of_ascii c)%nat && (nat_of_ascii c <=? 57)%nat.

Definition digitOf (c : ascii) : Z := Z.of_nat (nat_of_ascii c) - 48.

(** White space that [parseInt] skips (the ASCII part of it). *)
Definition isWhiteSpace (c : ascii) : bool :=
  (nat_of_ascii c =? 32)%nat ||
  ((9 <=? nat_of_ascii c)%nat && (nat_of_ascii c <=? 13)%nat).

Fixpoint trimStart (s : string) : string :=
  match s with
  | String c s' => if isWhiteSpace c then trimStart s' else s
  | EmptyString => s
  end.

(** The value of a digit in the given radix (10 or 16). *)
Definition radixDigit (radix : Z) (c : ascii) : option Z :=
  let n := nat_of_ascii c in
  if isDigit c then Some (digitOf c)
  else if (radix =? 16)%Z && (97 <=? n)%nat && (n <=? 102)%nat then Some (Z.of_nat n - 87)%Z
  else if (radix =? 16)%Z && (65 <=? n)%nat && (n <=? 70)%nat then Some (Z.of_nat n - 55)%Z
  else None.

(** The value of the longest prefix of [s] made of digits; [acc] is the
    value read so far, [None] when no digit has been read. *)
Fixpoint readDigits (radix : Z) (s : string) (acc : option Z) : option Z :=
  match s with
  | String c s' =>
      match radixDigit radix c with
      | Some v =>
          readDigits radix s'
            (Some (match acc with Some a => a * radix + v | None => v end)%Z)
      | None => acc
      end
  | EmptyString => acc
  end.

(** [parseInt(string)] with no radix argument: skip white space, read a
    sign, switch to radix 16 after "0x" or "0X", and read digits up to
    the first character that is not one; [NaN] when there is no digit. *)
Definition parseDigits (sign : Z) (s : string) : JsNumber :=
  let '(radix, s) :=
    match s with
    | String c0 (String c1 s') =>
        if (c0 =? "0")%char && ((c1 =? "x")%char || (c1 =? "X")%char)
        then (16%Z, s') else (10%Z, s)
    | _ => (10%Z, s)
    end in
  match readDigits radix s None with
  | Some v => Int (sign * v)
  | None => NaN
  end.

Definition parseInt (input : string) : JsNumber :=
  let s := trimStart input in
  match s with
  | String c s' =>
      if (c =? "-")%char then parseDigits (-1) s'
      else if (c =? "+")%char then parseDigits 1 s'
      else parseDigits 1 s
  | EmptyString => parseDigits 1 s
  end.

(** *** Constraint validation of [<input type="number">]

    The value of a number input is a "valid floating-point number": an
    optional "-", then digits, or digits "." digits, or "." digits, then
    optionally "e" or "E", an optional sign and digits.  Its numeric
    value is [(-1)^negative * mantissa * 10^scale], kept exactly (the
    rounding to a double does not change its sign). *)
Record Decimal : Type := { negative : bool; mantissa : Z; scale : Z }.

(** The digits at the front of [s]: their value after [acc], how many
    there are, and what follows them. *)
Fixpoint spanDigits (s : string) (acc : Z) (count : nat) : Z * nat * string :=
  match s with
  | String c s' =>
      if isDigit c then spanDigits s' (acc * 10 + digitOf c)%Z (S count)
      else (acc, count, s)
  | EmptyString => (acc, count, s)
  end.

Definition parseExponent (s : string) : option Z :=
  match s with
  | EmptyString => Some 0%Z
  | String c s' =>
      if (c =? "e")%char || (c =? "E")%char then
        let '(sign, s'') :=
          match s' with
          | String c' t =>
              if (c' =? "-")%char then ((-1)%Z, t)
              else if (c' =? "+")%char then (1%Z, t)
              else (1%Z, s')
          | EmptyString => (1%Z, s')
          end in
        match spanDigits s'' 0 0 with
        | (_, O, _) => None
        | (v, S _, EmptyString) => Some (sign * v)%Z
        | (_, S _, String _ _) => None
        end
      else None
  end.

Definition parseFloatingPoint (s : string) : option Decimal :=
  let '(neg, s1) :=
    match s with
    | String c s' => if (c =? "-")%char then (true, s') else (false, s)
    | EmptyString => (false, s)
    end in
  let '(ip, nip, s2) := spanDigits s1 0 0 in
  let '(m, nfp, s3, dotOk) :=
    match s2 with
    | String c s' =>
        if (c =? ".")%char then
          let '(v, n, rest) := spanDigits s' ip 0 in
          (v, n, rest, negb (n =? 0)%nat)
        else (ip, O, s2, negb (nip =? 0)%nat)
    | EmptyString => (ip, O, s2, negb (nip =? 0)%nat)
    end in
  if (dotOk : bool) then
    match parseExponent s3 with
    | Some e => Some {| negative := neg; mantissa := m; scale := e - Z.of_nat nfp |}
    | None => None
    end
  else None.

(** [value >= 1]. *)
Definition atLeastOne (d : Decimal) : bool :=
  negb (negative d) &&
  (if (0 <=? scale d)%Z then (1 <=? mantissa d * 10 ^ scale d)%Z
   else (10 ^ (- scale d) <=? mantissa d)%Z).

(** [value] is a whole number. *)
Definition isWhole (d : Decimal) : bool :=
  (0 <=? scale d)%Z || (mantissa d mod 10 ^ (- scale d) =? 0)%Z.

(** [<input type="number" required min="1">]: the field must hold a
    valid number (an empty or malformed field is missing), not below
    the minimum, and on a step from the minimum (the default step is
    1). *)
Definition validAmount (value : string) : bool :=
  match parseFloatingPoint value with
  | Some d => atLeastOne d && isWhole d
  | None => false
  end.

(** A [required] text input or select: the value must not be empty. *)
Definition validRequired (value : string) : bool := negb (value =? "")%string.

End Browser.

Module DonationForm.

Record FormData : Type := {
  donor : string;
  amount : string;
  purpose : string;
  notes : string
}.

(** The object [donationData] that [handleSubmit] writes. *)
Record DonationData : Type := {
  data_donor : string;
  data_amount : JsNumber;
  data_purpose : string;
  data_notes : option string
}.

(** The writes a submission sends to the store. *)
Inductive Write : Type :=
| updateDoc (collection docId : string) (data : DonationData)
| addDoc (collection : string) (data : DonationData) (date : string).

Definition dataOf (w : Write) : DonationData :=
  match w with
  | updateDoc _ _ d => d
  | addDoc _ d _ => d
  end.

(** What a press on the submit button leads to. *)
Record Outcome : Type := {
  validationError : bool;     (* the browser refused the form *)
  writes : list Write;        (* store writes attempted *)
  error : option string;      (* [setError] *)
  succeeded : bool            (* [onSuccess()] was called *)
}.

(** [handleSubmit].  [donation] is the record being edited, if any;
    [storeAnswers] tells whether the store accepts the write. *)
Definition handleSubmit (donation : option Donation.t) (formData : FormData)
    (storeAnswers : bool) : Outcome :=
  let donationData :=
    {| data_donor := donor formData;
       data_amount := Browser.parseInt (amount formData);
       data_purpose := purpose formData;
       data_notes := if (notes formData =? "")%string then None else Some (notes formData) |} in
  let write :=
    match donation with
    | Some d =>
        if negb (Donation.id d =? "")%string
        then updateDoc "donations" (Donation.id d) donationData
        else addDoc "donations" donationData "serverTimestamp()"
    | None => addDoc "donations" donationData "serverTimestamp()"
    end in
  if storeAnswers then
    {| validationError := false; writes := [write]; error := None; succeeded := true |}
  else
    {| validationError := false; writes := [write];
       error := Some "Failed to save donation. Please try again.";
       succeeded := false |}.

(** The constraints the form declares on its fields: donor [required],
    amount [type="number" required min="1"], purpose [required]. *)
Definition checkValidity (formData : FormData) : bool :=
  Browser.validRequired (donor formData) &&
  Browser.validAmount (amount formData) &&
  Browser.validRequired (purpose formData).

(** Pressing the submit button: the browser validates the form and
    fires the submit event, which runs [handleSubmit], only when every
    field is valid. *)
Definition submit (donation : option Donation.t) (formData : FormData)
    (storeAnswers : bool) : Outcome :=
  if checkValidity formData then handleSubmit donation formData storeAnswers
  else {| validationError := true; writes := []; error := None; succeeded := false |}.

End DonationForm.

Module MemberDonationForm.

Record FormData : Type := {
  memberId : string;
  amount : string;
  purpose : string;
  notes : string
}.

Record DonationData : Type := {
  data_donor : string;
  data_memberId : string;
  data_amount : JsNumber;
  data_purpose : string;
  data_notes : option string
}.

Record Outcome : Type := {
  validationError : bool;
  writes : list DonationData;   (* [addDoc] to "donations", dated by the server *)
  error : option string;
  succeeded : bool
}.

(** [handleSubmit]; [selectedMember] is the name and id of the member
    chosen in the select, if any. *)
Definition handleSubmit (selectedMember : option (string * string)) (formData : FormData)
    (storeAnswers : bool) : Outcome :=
  match selectedMember with
  | None => {| validationError := false; writes := []; error := None; succeeded := false |}
  | Some (memberName, memberIdent) =>
      let donationData :=
        {| data_donor := memberName;
           data_memberId := memberIdent;
           data_amount := Browser.parseInt (amount formData);
           data_purpose := purpose formData;
           data_notes := if (notes formData =? "")%string then None
                         else Some (notes formData) |} in
      if storeAnswers then
        {| validationError := false; writes := [donationData]; error := None;
           succeeded := true |}
      else
        {| validationError := false; writes := [donationData];
           error := Some "Failed to save donation. Please try again.";
           succeeded := false |}
  end.

Definition checkValidity (formData : FormData) : bool :=
  Browser.validRequired (memberId formData) &&
  Browser.validAmount (amount formData) &&
  Browser.validRequired (purpose formData).

Definition submit (selectedMember : option (string * string)) (formData : FormData)
    (storeAnswers : bool) : Outcome :=
  if checkValidity formData then handleSubmit selectedMember formData storeAnswers
  else {| validationError := true; writes := []; error := None; succeeded := false |}.

End MemberDonationForm.

(** ** The content sync ([syncWordPressData]) *)
Module WordPressSync.
Import Firestore.

(** A post as the WordPress API returns it. *)
Record WordPressPost : Type := {
  id : Z;
  title_rendered : string;
  content_rendered : string;
  date : string;
  modified : string;
  slug : string
}.

Inductive SyncResult : Type :=
| Synced (count : nat)        (* [{ success: true, message: `Synced ${n} posts ...` }] *)
| Failed (error : string).    (* [{ success: false, error }] *)

Definition setWordPressPosts (v : list WordPressDoc.t) (db : Database) : Database :=
  {| online := online db; donations := donations db; expenses := expenses db;
     wordpress_posts := v |}.

Section Environment.
(** The id the store gives to a document added to a collection. *)
Variable autoId : list WordPressDoc.t -> string.
(** [new Date().toISOString()] when the [i]-th post is handled. *)
Variable now : nat -> string.
(** [fetch(url)] followed by [response.json()]. *)
Variable fetch : string -> Result (list WordPressPost).

(** The object [postData], completed with the id of the document that
    receives it. *)
Definition postData (post : WordPressPost) (i : nat) (docId : string) : WordPressDoc.t :=
  {| WordPressDoc.id := docId;
     WordPressDoc.wp_id := id post;
     WordPressDoc.title := title_rendered post;
     WordPressDoc.content := content_rendered post;
     WordPressDoc.date := date post;
     WordPressDoc.last_modified := modified post;
     WordPressDoc.slug := slug post;
     WordPressDoc.synced_at := now i |}.

(** [addDoc(postsRef, data)]: a new document under a new id. *)
Definition addDoc (db : Database) (data : string -> WordPressDoc.t) : Result Database :=
  if online db then
    Ok (setWordPressPosts
          (wordpress_posts db ++ [data (autoId (wordpress_posts db))]) db)
  else Raise (FirebaseError "unavailable").

(** [updateDoc(doc(db, 'wordpress_posts', docId), data)]: the fields of
    [data] replace those of the document with that id, which must
    exist. *)
Definition updateDoc (db : Database) (docId : string) (data : string -> WordPressDoc.t)
    : Result Database :=
  if online db then
    if existsb (fun d => (WordPressDoc.id d =? docId)%string) (wordpress_posts db) then
      Ok (setWordPressPosts
            (map (fun d => if (WordPressDoc.id d =? docId)%string then data docId else d)
                 (wordpress_posts db)) db)
    else Raise (FirebaseError "not-found")
  else Raise (FirebaseError "unavailable").

(** The body of [for (const post of posts)]. *)
Definition syncPost (post : WordPressPost) (i : nat) (db : Database) : Result Database :=
  querySnapshot <-
    getDocs db (collection_wordpress_posts db) [ where_ "wp_id" OpEq (Num (id post)) ] ;;
  match querySnapshot with
  | [] => addDoc db (postData post i)
  | existing :: _ => updateDoc db (WordPressDoc.id existing) (postData post i)
  end.

(** The loop; on an exception the writes already made stay. *)
Fixpoint syncPosts (posts : list WordPressPost) (i : nat) (db : Database)
    : Database * Result unit :=
  match posts with
  | [] => (db, Ok tt)
  | post :: rest =>
      match syncPost post i db with
      | Ok db' => syncPosts rest (S i) db'
      | Raise e => (db, Raise e)
      end
  end.

Definition syncWordPressData (wpUrl : string) (db : Database) : Database * SyncResult :=
  match fetch (wpUrl ++ "/posts?_embed&per_page=100") with
  | Raise _ => (db, Failed "Failed to sync WordPress data")
  | Ok posts =>
      match syncPosts posts 0 db with
      | (db', Ok _) => (db', Synced (List.length posts))
      | (db', Raise _) => (db', Failed "Failed to sync WordPress data")
      end
  end.
End Environment.

(** The documents of the collection that stand for one source post. *)
Definition docsFor (p : Z) (coll : list WordPressDoc.t) : list WordPressDoc.t :=
  filter (fun d => (WordPressDoc.wp_id d =? p)%Z) coll.

(** An id generator never returns an id already in the collection. *)
Definition Fresh (autoId : list WordPressDoc.t -> string) : Prop :=
  forall coll, ~ In (autoId coll) (map WordPressDoc.id coll).

(** One state of the store that the sync keeps: the store answers and
    document ids are distinct. *)
Definition Healthy (db : Database) : Prop :=
  online db = true /\ NoDup (map WordPressDoc.id (wordpress_posts db)).

End WordPressSync.

(** ** The content page ([WordPressContent], [fetchPosts]) *)
Module WordPressContent.
Import Firestore.

Record State : Type := {
  posts : list WordPressDoc.t;
  loading : bool;
  error : option string
}.

Definition initialState : State :=
  {| posts := []; loading := true; error := None |}.

(** [fetchPosts], run once when the component mounts: the whole
    collection, [orderBy('date', 'desc')], with no limit. *)
Definition fetchPosts (db : Database) (st : State) : State :=
  match getDocs db (collection_wordpress_posts db) [ orderBy "date" Desc ] with
  | Ok postsData => {| posts := postsData; loading := false; error := None |}
  | Raise _ =>
      {| posts := posts st; loading := false;
         error := Some "Failed to load WordPress content" |}
  end.

Definition mount (db : Database) : State := fetchPosts db initialState.

End WordPressContent.

(** ** The sync endpoint ([POST], which calls [syncWordPressData]) *)
Module SyncRoute.
Import WordPressSync.

(** The parsed request body [{ wpUrl, apiKey }].  [apiKey] is whatever
    the JSON holds under that name, [Undefined] when it is absent. *)
Record Body : Type := { wpUrl : string; apiKey : Value }.

(** What [NextResponse.json] is given: the result of the sync, or an
    error object of the route's own. *)
Inductive Payload : Type :=
| ofSync (result : SyncResult)
| ofRoute (error : string).

Record Response : Type := { payload : Payload; status : Z }.

(** [apiKey !== process.env.SYNC_API_KEY] negated: strict equality of
    the body's key with the environment variable, which is a string or,
    when it is not set, [undefined]. *)
Definition keyMatches (key : Value) (SYNC_API_KEY : option string) : bool :=
  match SYNC_API_KEY, key with
  | Some k, Str s => (s =? k)%string
  | None, Undefined => true
  | _, _ => false
  end.

Section Environment.
Variable autoId : list WordPressDoc.t -> string.
Variable now : nat -> string.
Variable fetch : string -> Result (list WordPressPost).
(** [process.env.SYNC_API_KEY]. *)
Variable SYNC_API_KEY : option string.

(** [POST(request)]; [request] is the outcome of [request.json()], which
    throws on a body that is not JSON. *)
Definition POST (request : Result Body) (db : Database) : Database * Response :=
  match request with
  | Raise _ =>
      (db, {| payload := ofRoute "Failed to process sync request"; status := 500 |})
  | Ok body =>
      if negb (keyMatches (apiKey body) SYNC_API_KEY) then
        (db, {| payload := ofRoute "Invalid API key"; status := 401 |})
      else
        let (db', result) := syncWordPressData autoId now fetch (wpUrl body) db in
        match result with
        | Synced _ => (db', {| payload := ofSync result; status := 200 |})
        | Failed _ => (db', {| payload := ofSync result; status := 500 |})
        end
  end.
End Environment.

End SyncRoute.

(** ** The donors page: totals and the buttons

    The rest of the component of [src/app/donors/page.tsx]: the two
    totals computed when it renders and the handlers of the search box
    and of the "Clear" button. *)
Module DonorsPageUI.
Import Firestore DonorsPage.

(** [const totalDonors = donors.length]. *)
Definition totalDonors (donors : list DonorSummary) : Z :=
  Z.of_nat (List.length donors).

(** [donors.reduce((sum, donor) => sum + donor.totalAmount, 0)]. *)
Definition totalDonations (donors : list DonorSummary) : Z :=
  fold_left (fun sum donor => sum + totalAmount donor)%Z donors 0%Z.

(** [onChange] of the search box. *)
Definition typeSearchTerm (value : string) (st : State) : State :=
  setSearchTerm value st.

(** [onClick] of "Clear":
    [setSearchTerm(''); setIsSearching(false); fetchDonors(true)].
    The two setters take effect with the next render; the [fetchDonors]
    that is called is the one of the render in which the button was
    drawn, and it reads the [searchTerm] of that render.  [fetchDonors]
    itself sets neither of the two, so they are applied last here. *)
Definition clearSearchWith (pageSize : nat) (db : Database) (st : State) : State :=
  setIsSearching false (setSearchTerm "" (fetchDonorsWith pageSize true db st)).

Definition clearSearch := clearSearchWith ITEMS_PER_PAGE.

(** The states of the page: it mounts, and then the user types, submits
    the search, clears it or asks for more, the store being in any
    state each time. *)
Inductive Reachable (pageSize : nat) : State -> Prop :=
| afterMount db : Reachable pageSize (mountWith pageSize db)
| afterTyping value st :
    Reachable pageSize st -> Reachable pageSize (typeSearchTerm value st)
| afterSearch db st :
    Reachable pageSize st -> Reachable pageSize (handleSearchWith pageSize db st)
| afterLoadMore db st :
    Reachable pageSize st -> Reachable pageSize (loadMoreWith pageSize db st)
| afterClear db st :
    Reachable pageSize st -> Reachable pageSize (clearSearchWith pageSize db st).

(** Text made of ASCII characters only. *)
Definition isAscii (s : string) : bool :=
  forallb (fun c => (nat_of_ascii c <? 128)%nat) (list_ascii_of_string s).

End DonorsPageUI.

(** ** The expenses page: total and handlers

    The handlers of [src/app/expenses/page.tsx] around [fetchExpenses].
    [Page] adds the modal state of the component to the state that
    fetching uses. *)
Module ExpensesPageUI.
Import Firestore.

Record Page : Type := {
  listing : ExpensesPage.State;
  isAddModalOpen : bool;
  isEditModalOpen : bool;
  selectedExpense : option Expense.t;
  isDeleting : bool;
  isDeleteModalOpen : bool
}.

Definition initialPage : Page :=
  {| listing := ExpensesPage.initialState;
     isAddModalOpen := false; isEditModalOpen := false;
     selectedExpense := None; isDeleting := false; isDeleteModalOpen := false |}.

(** [expenses.reduce((sum, expense) => sum + (expense.amount || 0), 0)]. *)
Definition totalExpenses (expenses : list Expense.t) : Z :=
  fold_left
    (fun sum expense =>
       sum + (if truthy (Num (Expense.amount expense)) then Expense.amount expense else 0))%Z
    expenses 0%Z.

Definition setExpenses (v : list Expense.t) (db : Database) : Database :=
  {| online := online db; donations := donations db; expenses := v;
     wordpress_posts := wordpress_posts db |}.

(** [deleteDoc(doc(db, 'expenses', id))]: the document of that id is
    removed; deleting an id that is not there succeeds too. *)
Definition deleteDoc (db : Database) (docId : string) : Result Database :=
  if online db then
    Ok (setExpenses
          (filter (fun e => negb (Expense.id e =? docId)%string) (collection_expenses db)) db)
  else Raise (FirebaseError "unavailable").

Definition failedToDelete : string :=
  "Failed to delete expense. Please try again later.".

Section PageSize.
Variable pageSize : nat.

(** [handleAddSuccess], called by the form once it has written. *)
Definition handleAddSuccessWith (db : Database) (p : Page) : Page :=
  {| listing := ExpensesPage.fetchExpensesWith pageSize false db (listing p);
     isAddModalOpen := false;
     isEditModalOpen := isEditModalOpen p;
     selectedExpense := selectedExpense p;
     isDeleting := isDeleting p;
     isDeleteModalOpen := isDeleteModalOpen p |}.

(** [handleEditClick(expense)]. *)
Definition handleEditClick (expense : Expense.t) (p : Page) : Page :=
  {| listing := listing p;
     isAddModalOpen := isAddModalOpen p;
     isEditModalOpen := true;
     selectedExpense := Some expense;
     isDeleting := isDeleting p;
     isDeleteModalOpen := isDeleteModalOpen p |}.

(** [handleEditSuccess]. *)
Definition handleEditSuccessWith (db : Database) (p : Page) : Page :=
  {| listing := ExpensesPage.fetchExpensesWith pageSize false db (listing p);
     isAddModalOpen := isAddModalOpen p;
     isEditModalOpen := false;
     selectedExpense := None;
     isDeleting := isDeleting p;
     isDeleteModalOpen := isDeleteModalOpen p |}.

(** [handleDeleteClick(expense)]. *)
Definition handleDeleteClick (expense : Expense.t) (p : Page) : Page :=
  {| listing := listing p;
     isAddModalOpen := isAddModalOpen p;
     isEditModalOpen := isEditModalOpen p;
     selectedExpense := Some expense;
     isDeleting := isDeleting p;
     isDeleteModalOpen := true |}.

(** [handleDelete]: nothing without a selection; otherwise the document
    is deleted and the list fetched again with [fetchExpenses()], which
    catches its own errors; when the deletion throws, the error is
    recorded and the dialog stays as it is. *)
Definition handleDeleteWith (db : Database) (p : Page) : Database * Page :=
  match selectedExpense p with
  | None => (db, p)
  | Some selected =>
      match deleteDoc db (Expense.id selected) with
      | Ok db' =>
          (db',
           {| listing := ExpensesPage.fetchExpensesWith pageSize false db' (listing p);
              isAddModalOpen := isAddModalOpen p;
              isEditModalOpen := isEditModalOpen p;
              selectedExpense := None;
              isDeleting := false;
              isDeleteModalOpen := false |})
      | Raise _ =>
          (db,
           {| listing :=
                {| ExpensesPage.expenses := ExpensesPage.expenses (listing p);
                   ExpensesPage.loading := ExpensesPage.loading (listing p);
                   ExpensesPage.error := Some failedToDelete;
                   ExpensesPage.searchTerm := ExpensesPage.searchTerm (listing p);
                   ExpensesPage.currentPage := ExpensesPage.currentPage (listing p);
                   ExpensesPage.hasMore := ExpensesPage.hasMore (listing p);
                   ExpensesPage.lastVisible := ExpensesPage.lastVisible (listing p);
                   ExpensesPage.isSearching := ExpensesPage.isSearching (listing p) |};
              isAddModalOpen := isAddModalOpen p;
              isEditModalOpen := isEditModalOpen p;
              selectedExpense := selectedExpense p;
              isDeleting := false;
              isDeleteModalOpen := isDeleteModalOpen p |})
      end
  end.

End PageSize.

Definition handleAddSuccess := handleAddSuccessWith ExpensesPage.ITEMS_PER_PAGE.
Definition handleEditSuccess := handleEditSuccessWith ExpensesPage.ITEMS_PER_PAGE.
Definition handleDelete := handleDeleteWith ExpensesPage.ITEMS_PER_PAGE.

End ExpensesPageUI.

(** ** Numbers as text *)
Module NumberText.

(** The decimal digits of [n], most significant first, written in
    front of [acc]; [fuel] bounds the number of digits. *)
Fixpoint digitsOf (fuel : nat) (n : Z) (acc : string) : string :=
  match fuel with
  | O => acc
  | S fuel' =>
      let acc' := String (ascii_of_nat (48 + Z.to_nat (n mod 10))) acc in
      if (n <? 10)%Z then acc' else digitsOf fuel' (n / 10) acc'
  end.

(** [n.toString()] for an integer [n].  Below [10^21] in magnitude a
    number prints in plain decimal, with "-" in front when negative;
    from there on it prints with an exponent, which is left out here. *)
Definition numberToString (n : Z) : option string :=
  if (Z.abs n <? 10 ^ 21)%Z then
    Some (if (n <? 0)%Z then String "-" (digitsOf 21 (- n) "") else digitsOf 21 n "")
  else None.

(** Text made of decimal digits only, and the number it writes. *)
Definition allDigits (s : string) : bool :=
  forallb Browser.isDigit (list_ascii_of_string s).

Definition decimalValue (s : string) : Z :=
  fold_left (fun a c => a * 10 + Browser.digitOf c)%Z (list_ascii_of_string s) 0%Z.

End NumberText.

(** ** The donation form: filling the fields *)
Module DonationFormUI.
Import DonationForm.

(** The initial [formData]. *)
Definition initialFormData : FormData :=
  {| donor := ""; amount := ""; purpose := ""; notes := "" |}.

(** The [useEffect] on [donation]: the fields are filled from the
    donation being edited, if there is one. *)
Definition formDataOf (donation : option Donation.t) : option FormData :=
  match donation with
  | None => Some initialFormData
  | Some d =>
      match NumberText.numberToString (Donation.amount d) with
      | Some text =>
          Some {| donor := Donation.donor d;
                  amount := text;
                  purpose := Donation.purpose d;
                  notes := match Donation.notes d with
                           | Some n => n
                           | None => ""
                           end |}
      | None => None
      end
  end.

(** [handleChange]: [{ ...prev, [name]: value }], [name] being the name
    of the field that changed.  A name that is none of the four fields
    adds a property that nothing reads. *)
Definition handleChange (name value : string) (prev : FormData) : FormData :=
  if (name =? "donor")%string then
    {| donor := value; amount := amount prev; purpose := purpose prev; notes := notes prev |}
  else if (name =? "amount")%string then
    {| donor := donor prev; amount := value; purpose := purpose prev; notes := notes prev |}
  else if (name =? "purpose")%string then
    {| donor := donor prev; amount := amount prev; purpose := value; notes := notes prev |}
  else if (name =? "notes")%string then
    {| donor := donor prev; amount := amount prev; purpose := purpose prev; notes := value |}
  else prev.

End DonationFormUI.

(** ** The member donation form: choosing the member *)
Module MemberDonationFormUI.
Import MemberDonationForm.

(** A member, as far as the form uses it. *)
Record Member : Type := { id : string; name : string }.

Record State : Type := {
  members : list Member;
  selectedMember : option Member;
  formData : FormData
}.

(** [handleMemberChange]: the member of the chosen option, or [null]
    when no member has that id, and the id into the form. *)
Definition handleMemberChange (value : string) (st : State) : State :=
  let memberId_ := value in
  let member := find (fun m => (id m =? memberId_)%string) (members st) in
  {| members := members st;
     selectedMember := member;
     formData :=
       {| memberId := memberId_;
          amount := amount (formData st);
          purpose := purpose (formData st);
          notes := notes (formData st) |} |}.

(** [handleChange] of the other fields. *)
Definition handleChange (name_ value : string) (st : State) : State :=
  let prev := formData st in
  {| members := members st;
     selectedMember := selectedMember st;
     formData :=
       if (name_ =? "memberId")%string then
         {| memberId := value; amount := amount prev; purpose := purpose prev;
            notes := notes prev |}
       else if (name_ =? "amount")%string then
         {| memberId := memberId prev; amount := value; purpose := purpose prev;
            notes := notes prev |}
       else if (name_ =? "purpose")%string then
         {| memberId := memberId prev; amount := amount prev; purpose := value;
            notes := notes prev |}
       else if (name_ =? "notes")%string then
         {| memberId := memberId prev; amount := amount prev; purpose := purpose prev;
            notes := value |}
       else prev |}.

(** Pressing the submit button in a state of the form. *)
Definition submitState (st : State) (storeAnswers : bool) : Outcome :=
  submit (option_map (fun m => (name m, id m)) (selectedMember st)) (formData st)
    storeAnswers.

End MemberDonationFormUI.

(** ** Choosing the participants of an activity ([ActivityParticipants]) *)
Module ActivityParticipants.

(** [prev.includes(memberId)]. *)
Definition includes (l : list string) (x : string) : bool :=
  existsb (fun y => (y =? x)%string) l.

(** [activity.maxParticipants && prev.length >= activity.maxParticipants];
    the field is optional, [None] standing for a missing or null one. *)
Definition limitReached (maxParticipants : option Z) (prev : list string) : bool :=
  match maxParticipants with
  | Some m => truthy (Num m) && (m <=? Z.of_nat (List.length prev))%Z
  | None => false
  end.

(** The update function that [handleMemberToggle] gives to
    [setSelectedMemberIds]; the alert shown when the limit is reached
    leaves the selection as it is. *)
Definition handleMemberToggle (maxParticipants : option Z) (memberId : string)
    (prev : list string) : list string :=
  if includes prev memberId then
    filter (fun id => negb (id =? memberId)%string) prev
  else if limitReached maxParticipants prev then prev
  else prev ++ [memberId].

(** A series of clicks on members, starting from the participants the
    activity has. *)
Definition clicks (maxParticipants : option Z) (memberIds : list string)
    (selected : list string) : list string :=
  fold_left (fun prev memberId => handleMemberToggle maxParticipants memberId prev)
    memberIds selected.

(** The fields that [handleSave] writes to the activity (besides
    [updatedAt]). *)
Record Update : Type := {
  participants : list string;
  currentParticipants : Z
}.

Record Outcome : Type := {
  writes : list Update;
  error : option string;
  updated : bool      (* [onUpdate()] and [onClose()] were called *)
}.

(** [handleSave]. *)
Definition handleSave (selectedMemberIds : list string) (storeAnswers : bool) : Outcome :=
  let write :=
    {| participants := selectedMemberIds;
       currentParticipants := Z.of_nat (List.length selectedMemberIds) |} in
  if storeAnswers then {| writes := [write]; error := None; updated := true |}
  else {| writes := [write];
          error := Some "Failed to update participants. Please try again.";
          updated := false |}.

End ActivityParticipants.

(** ** The member donation form: the history of the chosen member *)
Module MemberHistory.
Import Firestore.

(** The effect on [selectedMember]: without a member the history is
    emptied; otherwise it is fetched, and left as it is when the fetch
    throws (the error is only logged). *)
Definition fetchMemberDonations (db : Database)
    (selectedMember : option MemberDonationFormUI.Member)
    (memberDonations : list Donation.t) : list Donation.t :=
  match selectedMember with
  | None => []
  | Some member =>
      match getDocs db (collection_donations db)
              [ where_ "donor" OpEq (Str (MemberDonationFormUI.name member));
                orderBy "date" Desc ] with
      | Ok donationData => donationData
      | Raise _ => memberDonations
      end
  end.

(** [memberDonations.reduce((sum, donation) => sum + donation.amount, 0)]. *)
Definition totalContributions (memberDonations : list Donation.t) : Z :=
  fold_left (fun sum donation => sum + Donation.amount donation)%Z memberDonations 0%Z.

(** [memberDonations.slice(0, 5)], the "Recent Contributions". *)
Definition recentContributions (memberDonations : list Donation.t) : list Donation.t :=
  firstn 5 memberDonations.

End MemberHistory.
(** ** Amounts on which the arithmetic of the code is exact *)
Module Exact.

(** The code computes with doubles.  Every whole number of magnitude at
    most [2^53] is a double, and the sum or difference of two doubles
    that is such a number is computed without rounding.  The difference
    of two such numbers that leaves the range is rounded, but keeps its
    sign, which is all that a sort comparator uses of it. *)
Definition maxExact : Z := 2 ^ 53.

(** The sum of the magnitudes of a list of amounts: a bound on the
    magnitude of every sum of some of them. *)
Definition magnitude (amounts : list Z) : Z :=
  fold_right (fun a s => Z.abs a + s)%Z 0%Z amounts.

(** Whole amounts that the code adds up, in any order and grouping,
    without ever rounding. *)
Definition ExactAmounts (amounts : list Z) : Prop :=
  (magnitude amounts <= maxExact)%Z.

End Exact.


(** ** Vocabulary of the statements about the totals *)
Module TotalsSpec.

(** The sum of the totals of the rows of the donor table. *)
Definition sumTotals (l : list DonorsPage.DonorSummary) : Z :=
  fold_right Z.add 0%Z (map DonorsPage.totalAmount l).

(** The sum of the amounts of a list of expenses. *)
Definition sumExpenses (l : list Expense.t) : Z :=
  fold_right Z.add 0%Z (map Expense.amount l).

End TotalsSpec.

(** ** Vocabulary of the statements about the search *)
Module SearchSpec.

(** The order of a search page: by donor name ascending (byte order)
    and, within one name, later dates first. *)
Definition ByDonorThenNewest (a b : Donation.t) : Prop :=
  String.compare (Donation.donor a) (Donation.donor b) = Lt \/
  (Donation.donor a = Donation.donor b /\
   Firestore.valueCompare (Donation.date a) (Donation.date b) <> Lt).

End SearchSpec.

(** ** Vocabulary of the statements about a member's history *)
Module HistorySpec.

(** The donations of a collection that carry a date and whose donor is
    exactly [n]. *)
Definition datedDonationsOf (n : string) (ds : list Donation.t) : list Donation.t :=
  filter (fun d => (Donation.donor d =? n)%string &&
                   match Donation.date d with Undefined => false | _ => true end) ds.

End HistorySpec.

(** ** Vocabulary of the statements about [processDonations] *)
Module AggregationSpec.
Import DonorsPage.

(** What a summary is compared against: the donations of one donor, in
    input order. *)
Definition donationsOf (n : string) (ds : list Donation.t) : list Donation.t :=
  filter (fun d => (Donation.donor d =? n)%string) ds.

Definition sumAmounts (ds : list Donation.t) : Z :=
  fold_right Z.add 0%Z (map Donation.amount ds).

(** [t] is the date of one of the donations [ds] and no donation of [ds]
    has a later date; dates are compared as the code compares them, by
    the instant of [toDate()]. *)
Definition LatestIn (t : Timestamp) (ds : list Donation.t) : Prop :=
  (exists d, In d ds /\ Donation.date d = Ts t) /\
  (forall d u, In d ds -> Donation.date d = Ts u -> (toDate u <= toDate t)%Z).

(** Every date that is present is a native timestamp. *)
Definition NativeDates (ds : list Donation.t) : Prop :=
  forall d, In d ds -> truthy (Donation.date d) = true ->
            exists t, Donation.date d = Ts t.

(** The row of one donor in the table. *)
Definition summaryOf (n : string) (out : list DonorSummary) : option DonorSummary :=
  find (fun s => (name s =? n)%string) out.

(** What the date kept for a donor is, relative to the donor's donations
    [ds], when no date comparison throws. *)
Definition DateOk (v : Value) (ds : list Donation.t) : Prop :=
  (truthy v = false -> forall d, In d ds -> truthy (Donation.date d) = false) /\
  (truthy v = true -> exists t, v = Ts t /\ LatestIn t ds).

(** The rows of the map describe the donations read so far. *)
Definition Summarises (ds : list Donation.t) (m : DonorMap) : Prop :=
  NoDup (map fst m) /\
  (forall n, In n (map fst m) <-> In n (map Donation.donor ds)) /\
  (forall n s, mapGet m n = Some s ->
     name s = n /\
     totalAmount s = sumAmounts (donationsOf n ds) /\
     donationCount s = Z.of_nat (List.length (donationsOf n ds)) /\
     DateOk (lastDonation s) (donationsOf n ds)).

(** Keys are distinct and every row carries its key as [name]. *)
Definition WellKeyed (m : DonorMap) : Prop :=
  NoDup (map fst m) /\ (forall k s, In (k, s) m -> name s = k).

(** The three-way comparison that [processDonations] sorts with. *)
Definition byTotalDesc (a b : DonorSummary) : comparison :=
  Z.compare (totalAmount b - totalAmount a) 0.

End AggregationSpec.

(** ** Vocabulary of the statements about paging *)
Module Paging.
Import Firestore.

Section View.
Context {A : Type} `{Document A}.

(** What the two list pages keep between fetches: the accumulated list,
    the cursor ([lastVisible]) and [hasMore]. *)
Record View : Type := { items : list A; cursor : option A; more : bool }.

(** The order list of [orderBy('date', 'desc')]. *)
Definition byDate : list (string * Direction) := [("date", Desc)].

(** Every document of a collection that has a date, in the order of
    [orderBy('date', 'desc')]. *)
Definition ordered (coll : list A) : list A :=
  runQuery coll [orderBy "date" Desc].

(** The query of the pages when the search term is empty. *)
Definition defaultQuery (pageSize : nat) (isNewSearch : bool) (c : option A) : Query A :=
  match isNewSearch, c with
  | false, Some cur => [ orderBy "date" Desc; startAfter cur; limit pageSize ]
  | _, _ => [ orderBy "date" Desc; limit pageSize ]
  end.

(** One fetch with an empty search term, on the view. *)
Definition nextView (pageSize : nat) (coll : list A) (isNewSearch : bool) (v : View) : View :=
  let page := runQuery coll (defaultQuery pageSize isNewSearch (cursor v)) in
  {| items := if isNewSearch then page else items v ++ page;
     cursor := lastElement page;
     more := (List.length page =? pageSize)%nat |}.

(** "Load More" on the view. *)
Definition loadMoreView (pageSize : nat) (coll : list A) (v : View) : View :=
  if more v then nextView pageSize coll false v else v.

Fixpoint loadMoreViewTimes (pageSize n : nat) (coll : list A) (v : View) : View :=
  match n with
  | O => v
  | S n' => loadMoreViewTimes pageSize n' coll (loadMoreView pageSize coll v)
  end.

(** The order in which the store returns documents for
    [orderBy('date', 'desc')]: later dates first and, among equal dates,
    larger ids first. *)
Definition NewestFirst (a b : A) : Prop :=
  valueCompare (docField a "date") (docField b "date") = Gt \/
  (docField a "date" = docField b "date" /\
   String.compare (docId a) (docId b) = Gt).

(** The order the specification describes: later dates first and, among
    equal dates, smaller ids first. *)
Definition NewestFirstIdAscending (a b : A) : Prop :=
  valueCompare (docField a "date") (docField b "date") = Gt \/
  (docField a "date" = docField b "date" /\
   String.compare (docId a) (docId b) = Lt).

(** Every document carries the sort field. *)
Definition AllDated (coll : list A) : Prop :=
  forall d, In d coll -> docField d "date" <> Undefined.

End View.
End Paging.

(** The invariant of paging a collection [coll]: the accumulated list is
    a prefix of the ordered collection; while more is expected the cursor
    is its last element; when no more is expected nothing is left. *)
Definition Paged {A : Type} `{Firestore.Document A} (coll : list A) (v : Paging.View) : Prop :=
  exists rest,
    Paging.ordered coll = Paging.items v ++ rest /\
    (Paging.more v = true ->
     Paging.cursor v = lastElement (Paging.items v) /\ Paging.items v <> []) /\
    (Paging.more v = false -> rest = []).

(** The paging part of the state of each page. *)
Definition donorsView (st : DonorsPage.State) : Paging.View :=
  {| Paging.items := DonorsPage.allDonations st;
     Paging.cursor := DonorsPage.lastVisible st;
     Paging.more := DonorsPage.hasMore st |}.

Definition expensesView (st : ExpensesPage.State) : Paging.View :=
  {| Paging.items := ExpensesPage.expenses st;
     Paging.cursor := ExpensesPage.lastVisible st;
     Paging.more := ExpensesPage.hasMore st |}.

(** ** Concrete data used in the examples *)
Module Samples.

Definition at_ (s ns : Z) : Timestamp := {| seconds := s; nanoseconds := ns |}.

Definition donation (i d : string) (a : Z) (v : Value) : Donation.t :=
  {| Donation.id := i; Donation.donor := d; Donation.amount := a;
     Donation.date := v; Donation.purpose := "General Fund";
     Donation.notes := None; Donation.type := None; Donation.memberId := None |}.

(** The three donations of the aggregation example, with d3 > d1 > d2. *)
Definition d1 : Timestamp := at_ 1700000200 0.
Definition d2 : Timestamp := at_ 1700000100 0.
Definition d3 : Timestamp := at_ 1700000300 0.

Definition threeDonations : list Donation.t :=
  [ donation "x1" "A" 100 (Ts d1);
    donation "x2" "B" 50 (Ts d2);
    donation "x3" "A" 30 (Ts d3) ].

(** Two donations of one donor within the same millisecond. *)
Definition sameInstant : list Donation.t :=
  [ donation "y1" "A" 10 (Ts (at_ 1700000000 100000));
    donation "y2" "A" 20 (Ts (at_ 1700000000 900000)) ].

(** A donation dated by a plain string after a native one. *)
Definition stringDated : list Donation.t :=
  [ donation "z1" "A" 10 (Ts d1);
    donation "z2" "A" 20 (Str "2024-01-01") ].

(** Two donations made at the same instant. *)
Definition tieDb : Database :=
  {| online := true;
     donations := [ donation "a" "Asha" 10 (Ts d1); donation "b" "Bala" 20 (Ts d1) ];
     expenses := [];
     wordpress_posts := [] |}.

(** A single donation. *)
Definition oneDb : Database :=
  {| online := true;
     donations := [ donation "a" "Asha" 10 (Ts d1) ];
     expenses := [];
     wordpress_posts := [] |}.

Definition digit (n : nat) : string := String (ascii_of_nat (48 + n)) EmptyString.

(** Ten donations whose donor names start with "A", and one that does
    not. *)
Definition searchDb : Database :=
  {| online := true;
     donations :=
       map (fun i => donation ("d" ++ digit i) ("A" ++ digit i) 10
                       (Ts (at_ (1700000000 + Z.of_nat i) 0))) (seq 0 10)
       ++ [ donation "e" "Bob" 5 (Ts (at_ 1700000500 0)) ];
     expenses := [];
     wordpress_posts := [] |}.

(** The donors page after mounting on [searchDb], typing "A" in the
    search box and submitting the search. *)
Definition searchedA : DonorsPage.State :=
  DonorsPage.handleSearch searchDb
    (DonorsPage.setSearchTerm "A" (DonorsPage.mount searchDb)).

Definition expense (i d : string) (v : Value) : Expense.t :=
  {| Expense.id := i; Expense.description := d; Expense.amount := 100;
     Expense.date := v; Expense.category := "Office";
     Expense.paymentMethod := "Cash"; Expense.paidTo := "Shop";
     Expense.billNumber := None; Expense.notes := None;
     Expense.createdAt := v; Expense.updatedAt := Undefined |}.

(** Three donations and three expenses, paged two at a time. *)
Definition smallDb : Database :=
  {| online := true;
     donations := threeDonations;
     expenses := [ expense "e1" "Paper" (Ts d1); expense "e2" "Ink" (Ts d2);
                   expense "e3" "Rent" (Ts d3) ];
     wordpress_posts := [] |}.

(** An id generator for the examples: the ids of the collection written
    one after the other, then "x"; longer than each of them. *)
Fixpoint longerId (coll : list WordPressDoc.t) : string :=
  match coll with
  | [] => "x"
  | d :: rest => WordPressDoc.id d ++ longerId rest
  end.

Definition clock (run : string) (i : nat) : string :=
  "2024-05-0" ++ run ++ "T10:00:0" ++ digit i ++ ".000Z".

Definition post (i : Z) (title : string) : WordPressSync.WordPressPost :=
  {| WordPressSync.id := i;
     WordPressSync.title_rendered := title;
     WordPressSync.content_rendered := "<p>" ++ title ++ "</p>";
     WordPressSync.date := "2024-05-01T08:00:00";
     WordPressSync.modified := "2024-05-01T09:00:00";
     WordPressSync.slug := "post" |}.

(** What the content API answers on two successive days. *)
Definition feed1 (url : string) : Result (list WordPressSync.WordPressPost) :=
  Ok [ post 7 "Hello"; post 9 "News" ].
Definition feed2 (url : string) : Result (list WordPressSync.WordPressPost) :=
  Ok [ post 7 "Hello again"; post 9 "News" ].

Definition emptyDb : Database :=
  {| online := true; donations := []; expenses := []; wordpress_posts := [] |}.

End Samples.

(** ** Further sample data *)
Module MoreSamples.

(** A later answer of the content API that no longer lists post 9. *)
Definition feed3 (url : string) : Result (list WordPressSync.WordPressPost) :=
  Ok [ Samples.post 7 "Hello again" ].

(** A request to the sync endpoint. *)
Definition syncRequest : SyncRoute.Body :=
  {| SyncRoute.wpUrl := "https://example.org/wp-json/wp/v2";
     SyncRoute.apiKey := Str "secret" |}.

(** The store after the first sync of the examples. *)
Definition syncedDb : Database :=
  fst (WordPressSync.syncWordPressData Samples.longerId (Samples.clock "1")
         Samples.feed1 "https://example.org/wp-json/wp/v2" Samples.emptyDb).

(** The donation of [Samples.searchDb] whose donor is not an "A". *)
Definition bob : Donation.t :=
  Samples.donation "e" "Bob" 5 (Ts (Samples.at_ 1700000500 0)).

(** A donation form with every field filled. *)
Definition filledForm : DonationForm.FormData :=
  {| DonationForm.donor := "Asha"; DonationForm.amount := "";
     DonationForm.purpose := "Education"; DonationForm.notes := "" |}.

(** The form as it opens for editing [bob]. *)
Definition editForm : DonationForm.FormData :=
  {| DonationForm.donor := "Bob"; DonationForm.amount := "5";
     DonationForm.purpose := Donation.purpose bob; DonationForm.notes := "" |}.

(** The expenses page after mounting on [Samples.smallDb] with pages of
    two, and the same page once "Delete" was pressed on the rent. *)
Definition listedPage : ExpensesPageUI.Page :=
  {| ExpensesPageUI.listing := ExpensesPage.mountWith 2 Samples.smallDb;
     ExpensesPageUI.isAddModalOpen := false;
     ExpensesPageUI.isEditModalOpen := false;
     ExpensesPageUI.selectedExpense := None;
     ExpensesPageUI.isDeleting := false;
     ExpensesPageUI.isDeleteModalOpen := false |}.

Definition rent : Expense.t := Samples.expense "e3" "Rent" (Ts Samples.d3).
Definition paper : Expense.t := Samples.expense "e1" "Paper" (Ts Samples.d1).

Definition deleting : ExpensesPageUI.Page :=
  ExpensesPageUI.handleDeleteClick rent listedPage.

(** An expense dated after every expense of [Samples.smallDb], and the
    store once it was added. *)
Definition newer : Expense.t :=
  Samples.expense "e4" "Travel" (Ts (Samples.at_ 1700000400 0)).

Definition grownDb : Database :=
  ExpensesPageUI.setExpenses (expenses Samples.smallDb ++ [newer]) Samples.smallDb.

(** A member whose name is the donor "A" of the sample donations. *)
Definition memberA : MemberDonationFormUI.Member :=
  {| MemberDonationFormUI.id := "m1"; MemberDonationFormUI.name := "A" |}.

(** Six donations of the donor "A", oldest first, and one of another
    donor. *)
Definition busyDb : Database :=
  {| online := true;
     donations :=
       map (fun i => Samples.donation ("a" ++ Samples.digit i) "A" 10
                       (Ts (Samples.at_ (1700000000 + Z.of_nat i) 0))) (seq 0 6)
       ++ [ bob ];
     expenses := [];
     wordpress_posts := [] |}.

(** The last donation of the search for "A" on [Samples.searchDb]. *)
Definition lastA : Donation.t :=
  Samples.donation "d9" "A9" 10 (Ts (Samples.at_ 1700000009 0)).

End MoreSamples.

(* ================================================================= *)
(** * Part II - properties *)
(* ================================================================= *)

(** ** Three-way comparisons *)

Section CompareFacts.
Variable A : Type.
Variable c : A -> A -> comparison.
Hypothesis Hc : TotalCompare c.

Lemma tc_refl a : c a a = Eq.
Proof.
  pose proof (tc_antisym Hc a a) as E.
  destruct (c a a); simpl in E; congruence.
Qed.

Lemma tc_gt_lt a b : c a b = Gt <-> c b a = Lt.
Proof.
  rewrite (tc_antisym Hc a b). destruct (c a b); simpl; split; congruence.
Qed.

Lemma tc_eq_sym a b : c a b = Eq -> c b a = Eq.
Proof. intros E. rewrite (tc_antisym Hc a b), E. reflexivity. Qed.

Lemma tc_eq_cong_r a b d : c a b = Eq -> c d a = c d b.
Proof.
  intros E. rewrite (tc_antisym Hc a d), (tc_antisym Hc b d).
  f_equal. now apply tc_eq_cong.
Qed.

Lemma notGt_total x y : notGt c x y = true \/ notGt c y x = true.
Proof.
  unfold notGt. rewrite (tc_antisym Hc x y).
  destruct (c x y); simpl; auto.
Qed.

Lemma notGt_trans x y z :
  notGt c x y = true -> notGt c y z = true -> notGt c x z = true.
Proof.
  unfold notGt. intros Hxy Hyz.
  destruct (c x y) eqn:Exy; try discriminate.
  - rewrite (tc_eq_cong Hc _ _ z Exy). exact Hyz.
  - destruct (c y z) eqn:Eyz; try discriminate.
    + rewrite <- (tc_eq_cong_r x Eyz), Exy. reflexivity.
    + rewrite (tc_trans Hc _ _ _ Exy Eyz). reflexivity.
Qed.
End CompareFacts.

(** Closure properties used to build the order of a query. *)
Lemma TotalCompare_opp {A} (c : A -> A -> comparison) :
  TotalCompare c -> TotalCompare (fun a b => CompOpp (c a b)).
Proof.
  intros Hc. split.
  - intros a b. now rewrite (tc_antisym Hc a b).
  - intros a b d Hab Hbd.
    apply (f_equal CompOpp) in Hab, Hbd. rewrite CompOpp_involutive in Hab, Hbd.
    simpl in Hab, Hbd.
    apply (tc_gt_lt Hc) in Hab, Hbd.
    rewrite (tc_antisym Hc d a), (tc_trans Hc _ _ _ Hbd Hab). reflexivity.
  - intros a b d E. f_equal. apply (tc_eq_cong Hc).
    destruct (c a b); simpl in E; congruence.
Qed.

Lemma TotalCompare_lex {A} (c1 c2 : A -> A -> comparison) :
  TotalCompare c1 -> TotalCompare c2 ->
  TotalCompare (fun a b => match c1 a b with Eq => c2 a b | r => r end).
Proof.
  intros H1 H2. split.
  - intros a b. rewrite (tc_antisym H1 a b), (tc_antisym H2 a b).
    destruct (c1 a b); reflexivity.
  - intros a b d Hab Hbd.
    destruct (c1 a b) eqn:Eab; try discriminate.
    + rewrite (tc_eq_cong H1 _ _ d Eab).
      destruct (c1 b d) eqn:Ebd; try discriminate; auto.
      eapply (tc_trans H2); eauto.
    + destruct (c1 b d) eqn:Ebd; try discriminate.
      * rewrite <- (tc_eq_cong_r H1 _ _ a Ebd), Eab. reflexivity.
      * rewrite (tc_trans H1 _ _ _ Eab Ebd). reflexivity.
  - intros a b d E.
    destruct (c1 a b) eqn:Eab; try discriminate.
    rewrite (tc_eq_cong H1 _ _ d Eab), (tc_eq_cong H2 _ _ d E). reflexivity.
Qed.

(** A comparison of keys whose [Eq] is equality, pulled back along the
    key function. *)
Lemma TotalCompare_key {A K} (k : A -> K) (c : K -> K -> comparison) :
  (forall x y, c y x = CompOpp (c x y)) ->
  (forall x y z, c x y = Lt -> c y z = Lt -> c x z = Lt) ->
  (forall x y, c x y = Eq -> x = y) ->
  TotalCompare (fun a b => c (k a) (k b)).
Proof.
  intros Ha Ht He. split; intros; auto.
  - eapply Ht; eauto.
  - apply He in H. now rewrite H.
Qed.

Lemma TotalCompare_const {A} : TotalCompare (fun _ _ : A => Eq).
Proof. split; intros; auto; discriminate. Qed.

(** ** Insertion sort *)
Section SortFacts.
Variable A : Type.
Variable c : A -> A -> comparison.

Lemma insertSorted_perm x l : Permutation (insertSorted c x l) (x :: l).
Proof.
  induction l as [|y l IH]; simpl; auto.
  destruct (notGt c x y); auto.
  rewrite IH. apply perm_swap.
Qed.

Lemma sortBy_perm l : Permutation (sortBy c l) l.
Proof.
  induction l as [|x l IH]; simpl; auto.
  rewrite insertSorted_perm. now constructor.
Qed.

Lemma sortBy_In l x : In x (sortBy c l) <-> In x l.
Proof.
  split; apply Permutation_in; [|symmetry]; apply sortBy_perm.
Qed.

Lemma sortBy_length l : List.length (sortBy c l) = List.length l.
Proof. apply Permutation_length, sortBy_perm. Qed.

Hypothesis Hc : TotalCompare c.

Lemma insertSorted_sorted x l :
  Sorted (fun a b => notGt c a b = true) l ->
  Sorted (fun a b => notGt c a b = true) (insertSorted c x l).
Proof.
  induction l as [|y l IH]; intros Hs; simpl.
  - repeat constructor.
  - destruct (notGt c x y) eqn:E.
    + constructor; auto.
    + inversion Hs as [|? ? Hs' Hhd]; subst.
      constructor; auto.
      assert (Hyx : notGt c y x = true).
      { destruct (notGt_total Hc x y) as [H|H]; [congruence|exact H]. }
      destruct l as [|z l]; simpl.
      * constructor. exact Hyx.
      * destruct (notGt c x z); constructor; auto.
        now inversion Hhd.
Qed.

Lemma sortBy_sorted l :
  StronglySorted (fun a b => notGt c a b = true) (sortBy c l).
Proof.
  apply Sorted_StronglySorted.
  - intros x y z. apply (notGt_trans Hc).
  - induction l as [|x l IH]; simpl; [constructor|].
    now apply insertSorted_sorted.
Qed.
End SortFacts.

(** ** Donor aggregation: [processDonations] *)
Section Aggregation.
Import DonorsPage AggregationSpec.

Lemma donationsOf_app n ds es :
  donationsOf n (ds ++ es) = donationsOf n ds ++ donationsOf n es.
Proof. apply filter_app. Qed.

Lemma sumAmounts_app ds es :
  sumAmounts (ds ++ es) = (sumAmounts ds + sumAmounts es)%Z.
Proof.
  unfold sumAmounts. induction ds as [|d ds IH]; simpl; [reflexivity|].
  rewrite IH. lia.
Qed.

Lemma donationsOf_nil_iff n ds :
  donationsOf n ds = [] <-> ~ In n (map Donation.donor ds).
Proof.
  unfold donationsOf. induction ds as [|d ds IH]; simpl.
  - tauto.
  - destruct (String.eqb_spec (Donation.donor d) n) as [E|E].
    + split; [discriminate|]. intros H. exfalso. apply H. now left.
    + rewrite IH. tauto.
Qed.

Lemma NativeDates_app ds es :
  NativeDates (ds ++ es) <-> NativeDates ds /\ NativeDates es.
Proof.
  unfold NativeDates. split.
  - intros H. split; intros d Hd; apply H; apply in_or_app; auto.
  - intros [H1 H2] d Hd. apply in_app_or in Hd. destruct Hd; auto.
Qed.

(** *** The map *)

Lemma mapGet_mapSet_same m k v : mapGet (mapSet m k v) k = Some v.
Proof.
  induction m as [|[k' v'] m IH]; simpl.
  - now rewrite String.eqb_refl.
  - destruct (String.eqb_spec k' k) as [E|E]; simpl.
    + now rewrite String.eqb_refl.
    + apply String.eqb_neq in E. now rewrite E.
Qed.

Lemma mapGet_mapSet_other m k v k' :
  k' <> k -> mapGet (mapSet m k v) k' = mapGet m k'.
Proof.
  intros Hne. induction m as [|[k0 v0] m IH]; simpl.
  - destruct (String.eqb_spec k k'); congruence.
  - destruct (String.eqb_spec k0 k) as [E|E]; simpl.
    + subst k0. destruct (String.eqb_spec k k'); congruence.
    + now rewrite IH.
Qed.

Lemma mapGet_None m k : mapGet m k = None <-> ~ In k (map fst m).
Proof.
  induction m as [|[k' v'] m IH]; simpl.
  - tauto.
  - destruct (String.eqb_spec k' k) as [E|E].
    + split; [discriminate|]. intros H. exfalso. apply H. now left.
    + rewrite IH. tauto.
Qed.

Lemma mapSet_keys m k v :
  map fst (mapSet m k v) =
  if in_dec string_dec k (map fst m) then map fst m else map fst m ++ [k].
Proof.
  induction m as [|[k' v'] m IH]; simpl.
  - reflexivity.
  - destruct (String.eqb_spec k' k) as [E|E]; simpl.
    + subst k'. destruct (string_dec k k); [reflexivity|congruence].
    + rewrite IH. destruct (string_dec k' k); [congruence|].
      destruct (in_dec string_dec k (map fst m)); reflexivity.
Qed.

Lemma mapGet_In m k v : mapGet m k = Some v -> In (k, v) m.
Proof.
  induction m as [|[k' v'] m IH]; simpl; [discriminate|].
  destruct (String.eqb_spec k' k) as [E|E].
  - intros [= ->]. subst. now left.
  - auto.
Qed.

Lemma In_mapGet m k v : NoDup (map fst m) -> In (k, v) m -> mapGet m k = Some v.
Proof.
  induction m as [|[k' v'] m IH]; simpl; [tauto|].
  intros Hnd [E|Hin].
  - inversion E; subst. now rewrite String.eqb_refl.
  - inversion Hnd as [|? ? Hni Hnd']; subst.
    destruct (String.eqb_spec k' k) as [E|E].
    + subst. exfalso. apply Hni. apply (in_map fst) in Hin. exact Hin.
    + auto.
Qed.

(** *** One donation *)

Lemma isMoreRecent_native existing donation :
  (truthy (lastDonation existing) = true -> exists t, lastDonation existing = Ts t) ->
  (truthy (Donation.date donation) = true -> exists t, Donation.date donation = Ts t) ->
  exists b, isMoreRecent existing donation = Ok b.
Proof.
  intros He Hd. unfold isMoreRecent.
  destruct (truthy (lastDonation existing)) eqn:Te; simpl; [|eauto].
  destruct (truthy (Donation.date donation)) eqn:Td; simpl; [|eauto].
  destruct He as [t ->]; auto. destruct Hd as [u ->]; auto.
  simpl. eauto.
Qed.

Lemma DateOk_step v ds d b :
  DateOk v ds ->
  (truthy (Donation.date d) = true -> exists t, Donation.date d = Ts t) ->
  isMoreRecent {| name := ""; totalAmount := 0; lastDonation := v; donationCount := 0 |} d = Ok b ->
  DateOk (if b then Donation.date d else v) (ds ++ [d]).
Proof.
  intros [Hf Ht] Hd. unfold isMoreRecent. simpl.
  destruct (truthy v) eqn:Tv; simpl.
  - destruct Ht as [t [-> [[d0 [Hin0 Hd0]] Hmax]]]; auto.
    destruct (truthy (Donation.date d)) eqn:Td; simpl.
    + destruct Hd as [u Hu]; auto. rewrite Hu. simpl.
      intros [= <-]. destruct (Z.gtb_spec (toDate u) (toDate t)) as [Hgt|Hle].
      * split; [discriminate|]. intros _. exists u. split; auto.
        split.
        -- exists d. split; [apply in_or_app; right; now left|exact Hu].
        -- intros d' u' Hin' Hd'. apply in_app_or in Hin'.
           destruct Hin' as [Hin'|[<-|[]]].
           ++ specialize (Hmax _ _ Hin' Hd'). lia.
           ++ rewrite Hu in Hd'. inversion Hd'. lia.
      * split; [discriminate|]. intros _. exists t. split; auto.
        split.
        -- exists d0. split; [apply in_or_app; now left|exact Hd0].
        -- intros d' u' Hin' Hd'. apply in_app_or in Hin'.
           destruct Hin' as [Hin'|[<-|[]]].
           ++ eapply Hmax; eauto.
           ++ rewrite Hu in Hd'. inversion Hd'. subst. lia.
    + intros [= <-]. split; [discriminate|]. intros _. exists t. split; auto.
      split.
      * exists d0. split; [apply in_or_app; now left|exact Hd0].
      * intros d' u' Hin' Hd'. apply in_app_or in Hin'.
        destruct Hin' as [Hin'|[<-|[]]].
        -- eapply Hmax; eauto.
        -- rewrite Hd' in Td. discriminate.
  - intros [= <-]. split.
    + intros Tf d' Hin'. apply in_app_or in Hin'.
      destruct Hin' as [Hin'|[<-|[]]]; auto.
    + intros Tt. destruct Hd as [u Hu]; auto. exists u. split; auto.
      split.
      * exists d. split; [apply in_or_app; right; now left|exact Hu].
      * intros d' u' Hin' Hd'. apply in_app_or in Hin'.
        destruct Hin' as [Hin'|[<-|[]]].
        -- specialize (Hf eq_refl _ Hin'). rewrite Hd' in Hf. discriminate.
        -- rewrite Hu in Hd'. inversion Hd'. lia.
Qed.

Lemma isMoreRecent_only_date e1 e2 d :
  lastDonation e1 = lastDonation e2 -> isMoreRecent e1 d = isMoreRecent e2 d.
Proof. unfold isMoreRecent. now intros ->. Qed.

Lemma forEach_app ds es m :
  forEach (ds ++ es) m = (m' <- forEach ds m ;; forEach es m').
Proof.
  revert m. induction ds as [|d ds IH]; intros m; simpl; [reflexivity|].
  destruct (accumulate m d); simpl; auto.
Qed.
End Aggregation.

Section AggregationInvariant.
Import DonorsPage AggregationSpec.

Lemma Summarises_nil : Summarises [] [].
Proof.
  repeat split; simpl; try tauto; try constructor; discriminate.
Qed.

(** The row that [accumulate] starts from describes the donor's earlier
    donations, whether it was found in the map or freshly made. *)
Lemma existing_row ds m n :
  Summarises ds m ->
  let existing :=
    match mapGet m n with
    | Some e => e
    | None => {| name := n; totalAmount := 0; lastDonation := Null; donationCount := 0 |}
    end in
  name existing = n /\
  totalAmount existing = sumAmounts (donationsOf n ds) /\
  donationCount existing = Z.of_nat (List.length (donationsOf n ds)) /\
  DateOk (lastDonation existing) (donationsOf n ds).
Proof.
  intros (Hnd & Hkeys & Hrows). simpl.
  destruct (mapGet m n) as [e|] eqn:E.
  - now apply Hrows.
  - apply mapGet_None in E. rewrite Hkeys in E.
    apply donationsOf_nil_iff in E. rewrite E. simpl.
    repeat split; simpl; try tauto; discriminate.
Qed.

Lemma donationsOf_snoc_same ds d :
  donationsOf (Donation.donor d) (ds ++ [d]) = donationsOf (Donation.donor d) ds ++ [d].
Proof.
  rewrite donationsOf_app. f_equal. unfold donationsOf. simpl.
  now rewrite String.eqb_refl.
Qed.

Lemma donationsOf_snoc_other n ds d :
  n <> Donation.donor d -> donationsOf n (ds ++ [d]) = donationsOf n ds.
Proof.
  intros Hne. rewrite donationsOf_app. unfold donationsOf at 2. simpl.
  destruct (String.eqb_spec (Donation.donor d) n); [congruence|].
  apply app_nil_r.
Qed.

Lemma mapSet_NoDup m k v : NoDup (map fst m) -> NoDup (map fst (mapSet m k v)).
Proof.
  intros Hnd. rewrite mapSet_keys.
  destruct (in_dec string_dec k (map fst m)) as [Hin|Hni]; auto.
  apply NoDup_app; auto.
  - repeat constructor. simpl. tauto.
  - intros x Hx [<-|[]]. contradiction.
Qed.

Lemma mapSet_keys_In m k v n :
  In n (map fst (mapSet m k v)) <-> In n (map fst m) \/ n = k.
Proof.
  rewrite mapSet_keys.
  destruct (in_dec string_dec k (map fst m)) as [Hin|Hni].
  - split; [tauto|]. intros [H| ->]; auto.
  - rewrite in_app_iff. simpl. intuition.
Qed.

(** One step of the loop keeps the invariant and does not throw when
    the new date is native. *)
Lemma accumulate_summarises ds m d :
  Summarises ds m ->
  (truthy (Donation.date d) = true -> exists t, Donation.date d = Ts t) ->
  exists m', accumulate m d = Ok m' /\ Summarises (ds ++ [d]) m'.
Proof.
  intros Hinv Hd.
  pose proof (existing_row (Donation.donor d) Hinv) as Hrow. simpl in Hrow.
  destruct Hinv as (Hnd & Hkeys & Hrows).
  unfold accumulate.
  set (e0 := match mapGet m (Donation.donor d) with
             | Some e => e
             | None => _ end) in *.
  destruct Hrow as (Hname & Htot & Hcnt & Hdate).
  set (e1 := {| name := name e0;
                totalAmount := totalAmount e0 + Donation.amount d;
                lastDonation := lastDonation e0;
                donationCount := donationCount e0 + 1 |}).
  destruct (isMoreRecent_native e1 d) as [b Hb]; simpl; auto.
  { intros T. destruct Hdate as [_ Ht]. destruct (Ht T) as [t [-> _]]. eauto. }
  rewrite Hb. simpl. eexists. split; [reflexivity|].
  assert (Hb' : isMoreRecent {| name := ""; totalAmount := 0;
                               lastDonation := lastDonation e0;
                               donationCount := 0 |} d = Ok b).
  { rewrite <- Hb. now apply isMoreRecent_only_date. }
  pose proof (@DateOk_step _ _ _ _ Hdate Hd Hb') as Hstep.
  split; [now apply mapSet_NoDup|]. split.
  - intros n. rewrite mapSet_keys_In, Hkeys, map_app, in_app_iff. simpl.
    intuition.
  - intros n s Hget.
    destruct (string_dec n (Donation.donor d)) as [->|Hne].
    + rewrite mapGet_mapSet_same in Hget. inversion Hget; subst s; clear Hget.
      rewrite donationsOf_snoc_same, sumAmounts_app, length_app.
      unfold sumAmounts at 2. simpl.
      destruct b; simpl; repeat split; try apply Hstep; try lia; auto.
    + rewrite mapGet_mapSet_other in Hget by assumption.
      rewrite donationsOf_snoc_other by assumption. now apply Hrows.
Qed.

Lemma forEach_summarises ds :
  NativeDates ds -> exists m, forEach ds [] = Ok m /\ Summarises ds m.
Proof.
  induction ds as [|d ds IH] using rev_ind; intros Hn.
  - exists []. split; [reflexivity|apply Summarises_nil].
  - apply NativeDates_app in Hn. destruct Hn as [Hds Hd].
    destruct (IH Hds) as (m & Hm & Hinv).
    destruct (@accumulate_summarises _ _ d Hinv) as (m' & Hacc & Hinv').
    { apply Hd. now left. }
    exists m'. split; auto.
    rewrite forEach_app, Hm. simpl. now rewrite Hacc.
Qed.

(** Without any assumption on the dates, a step that does not throw
    keeps the keys distinct and the names equal to the keys. *)
Lemma accumulate_wellKeyed m d m' :
  WellKeyed m -> accumulate m d = Ok m' -> WellKeyed m'.
Proof.
  intros [Hnd Hnames]. unfold accumulate.
  set (e0 := match mapGet m (Donation.donor d) with
             | Some e => e
             | None => _ end).
  assert (Hname : name e0 = Donation.donor d).
  { subst e0. destruct (mapGet m (Donation.donor d)) eqn:E; [|reflexivity].
    apply mapGet_In in E. eauto. }
  match goal with |- context [isMoreRecent ?e d] => destruct (isMoreRecent e d) as [b|] end;
    simpl; [|discriminate].
  intros [= <-]. split; [now apply mapSet_NoDup|].
  intros k s Hin.
  destruct (string_dec k (Donation.donor d)) as [->|Hne].
  - apply In_mapGet in Hin; [|now apply mapSet_NoDup].
    rewrite mapGet_mapSet_same in Hin. inversion Hin; subst s.
    destruct b; simpl; auto.
  - apply In_mapGet in Hin; [|now apply mapSet_NoDup].
    rewrite mapGet_mapSet_other in Hin by assumption.
    apply mapGet_In in Hin. eauto.
Qed.

Lemma forEach_wellKeyed ds m m' :
  WellKeyed m -> forEach ds m = Ok m' -> WellKeyed m'.
Proof.
  revert m. induction ds as [|d ds IH]; intros m Hm; simpl.
  - now intros [= <-].
  - destruct (accumulate m d) as [m1|] eqn:E; simpl; [|discriminate].
    apply IH. eapply accumulate_wellKeyed; eauto.
Qed.

Lemma WellKeyed_nil : WellKeyed [].
Proof. split; [constructor|intros ? ? []]. Qed.

Lemma WellKeyed_names m : WellKeyed m -> map name (mapValues m) = map fst m.
Proof.
  intros [_ Hn]. unfold mapValues. rewrite map_map.
  apply map_ext_in. intros [k s] Hin. simpl. eauto.
Qed.

(** *** The sorted table *)


Lemma processDonations_eq ds :
  processDonations ds =
  (m <- forEach ds [] ;; Ok (sortBy byTotalDesc (mapValues m))).
Proof. reflexivity. Qed.


Lemma summaryOf_iff l n s :
  NoDup (map name l) ->
  (summaryOf n l = Some s <-> In s l /\ name s = n).
Proof.
  unfold summaryOf. induction l as [|x l IH]; simpl; intros Hnd.
  - split; [discriminate|tauto].
  - inversion Hnd as [|? ? Hni Hnd']; subst.
    destruct (String.eqb_spec (name x) n) as [E|E].
    + split.
      * intros [= ->]. auto.
      * intros [[->|Hin] Hs]; auto.
        exfalso. apply Hni. rewrite E, <- Hs. now apply in_map.
    + rewrite IH by assumption. split.
      * intros [H1 H2]. auto.
      * intros [[->|Hin] Hs]; [congruence|auto].
Qed.

Lemma table_rows ds m :
  forEach ds [] = Ok m ->
  NoDup (map name (sortBy byTotalDesc (mapValues m))) /\
  (forall n s, summaryOf n (sortBy byTotalDesc (mapValues m)) = Some s <-> mapGet m n = Some s).
Proof.
  intros Hm.
  pose proof (@forEach_wellKeyed _ _ _ WellKeyed_nil Hm) as Hwk.
  assert (Hnd : NoDup (map name (sortBy byTotalDesc (mapValues m)))).
  { eapply Permutation_NoDup.
    - apply Permutation_map. symmetry. apply sortBy_perm.
    - rewrite WellKeyed_names by assumption. apply Hwk. }
  split; auto. intros n s. rewrite summaryOf_iff by assumption.
  rewrite sortBy_In. destruct Hwk as [Hk Hn]. unfold mapValues. split.
  - intros [Hin Hs]. apply in_map_iff in Hin. destruct Hin as [[k s'] [E Hin]].
    simpl in E. subst s'. rewrite <- Hs, (Hn _ _ Hin). now apply In_mapGet.
  - intros Hget. apply mapGet_In in Hget. split; [|eauto].
    apply in_map_iff. exists (n, s). auto.
Qed.

End AggregationInvariant.

(** ** Sums of amounts within the exact range *)

Lemma magnitude_nonneg l : (0 <= Exact.magnitude l)%Z.
Proof.
  induction l as [|a l IH]; simpl; lia.
Qed.

Lemma sum_within_magnitude l :
  (Z.abs (fold_right Z.add 0 l) <= Exact.magnitude l)%Z.
Proof.
  induction l as [|a l IH]; simpl; lia.
Qed.

Lemma magnitude_filter {A} (amount : A -> Z) (f : A -> bool) l :
  (Exact.magnitude (map amount (filter f l)) <= Exact.magnitude (map amount l))%Z.
Proof.
  induction l as [|a l IH]; simpl; [lia|].
  destruct (f a); simpl; lia.
Qed.

Lemma magnitude_perm l l' :
  Permutation l l' -> Exact.magnitude l = Exact.magnitude l'.
Proof.
  induction 1; simpl; lia.
Qed.


Import DonorsPage AggregationSpec.

Lemma NativeDates_threeDonations : NativeDates Samples.threeDonations.
Proof.
  intros d [<-|[<-|[<-|[]]]] _; eexists; reflexivity.
Qed.




Lemma processDonations_Ok_inv ds out :
  processDonations ds = Ok out ->
  exists m, forEach ds [] = Ok m /\ out = sortBy byTotalDesc (mapValues m).
Proof.
  rewrite processDonations_eq.
  destruct (forEach ds []) as [m|e]; simpl; [|discriminate].
  intros [= <-]. eauto.
Qed.

(** Appending one donation whose donor already has a native date: the
    date is replaced exactly when the new one is strictly later. *)
Lemma processDonations_snoc ds y out s t u :
  processDonations ds = Ok out ->
  summaryOf (Donation.donor y) out = Some s ->
  lastDonation s = Ts t ->
  Donation.date y = Ts u ->
  exists out' s',
    processDonations (ds ++ [y]) = Ok out' /\
    summaryOf (Donation.donor y) out' = Some s' /\
    lastDonation s' = (if (toDate u >? toDate t)%Z then Ts u else Ts t).
Proof.
  intros Hout Hs Ht Hu.
  destruct (processDonations_Ok_inv _ Hout) as (m & Hm & ->).
  apply (proj2 (table_rows _ Hm)) in Hs.
  assert (Hacc : exists e, accumulate m y = Ok (mapSet m (Donation.donor y) e) /\
                 lastDonation e = (if (toDate u >? toDate t)%Z then Ts u else Ts t)).
  { unfold accumulate, isMoreRecent. rewrite Hs. simpl. rewrite Ht, Hu. simpl.
    destruct (toDate u >? toDate t)%Z; eexists; split; reflexivity. }
  destruct Hacc as (e & Hacc & He).
  assert (Hm' : forEach (ds ++ [y]) [] = Ok (mapSet m (Donation.donor y) e)).
  { rewrite forEach_app, Hm. simpl. now rewrite Hacc. }
  exists (sortBy byTotalDesc (mapValues (mapSet m (Donation.donor y) e))), e.
  split; [|split; [|exact He]].
  - rewrite processDonations_eq, Hm'. reflexivity.
  - apply (proj2 (table_rows _ Hm')). apply mapGet_mapSet_same.
Qed.

Lemma processDonations_equal_pair x y tx ty :
  Donation.donor x = Donation.donor y ->
  Donation.date x = Ts tx -> Donation.date y = Ts ty ->
  toDate ty = toDate tx ->
  processDonations [x; y] =
  Ok [ {| name := Donation.donor x;
          totalAmount := 0 + Donation.amount x + Donation.amount y;
          lastDonation := Ts tx;
          donationCount := 2 |} ].
Proof.
  intros Hd Hx Hy He.
  unfold processDonations, forEach, accumulate, isMoreRecent. simpl.
  rewrite Hx. simpl. rewrite <- Hd, String.eqb_refl. simpl.
  rewrite Hy. simpl. rewrite He.
  replace (toDate tx >? toDate tx)%Z with false
    by (symmetry; rewrite Z.gtb_ltb; apply Z.ltb_irrefl).
  reflexivity.
Qed.

(** C7 - equal-date tie-break in [processDonations]: when a donation is
    read for a donor whose row already holds a native date, the row's
    date becomes the new date only if the new date is strictly later;
    on an equal comparison (and on an earlier date) the date seen first
    stays.  So two donations of one donor with equal dates keep the date
    of the first. *)
Theorem processDonations_keeps_first_on_tie :
  (forall ds y out s t u,
     processDonations ds = Ok out ->
     summaryOf (Donation.donor y) out = Some s ->
     lastDonation s = Ts t ->
     Donation.date y = Ts u ->
     exists out' s',
       processDonations (ds ++ [y]) = Ok out' /\
       summaryOf (Donation.donor y) out' = Some s' /\
       ((toDate u <= toDate t)%Z -> lastDonation s' = Ts t) /\
       ((toDate t < toDate u)%Z -> lastDonation s' = Ts u))
  /\
  (forall x y tx ty,
     Donation.donor x = Donation.donor y ->
     Donation.date x = Ts tx -> Donation.date y = Ts ty ->
     toDate ty = toDate tx ->
     exists out s,
       processDonations [x; y] = Ok out /\
       summaryOf (Donation.donor x) out = Some s /\
       lastDonation s = Ts tx).
Proof.
  split.
  - intros ds y out s t u Hout Hs Ht Hu.
    destruct (processDonations_snoc _ _ Hout Hs Ht Hu) as (out' & s' & H1 & H2 & H3).
    exists out', s'. repeat split; auto; intros Hc; rewrite H3.
    + replace (toDate u >? toDate t)%Z with false; auto.
      symmetry. rewrite Z.gtb_ltb. apply Z.ltb_ge. exact Hc.
    + replace (toDate u >? toDate t)%Z with true; auto.
      symmetry. apply Z.gtb_lt. exact Hc.
  - intros x y tx ty Hd Hx Hy He.
    eexists. eexists. split; [now apply (@processDonations_equal_pair x y tx ty)|].
    unfold summaryOf. simpl. rewrite String.eqb_refl. split; reflexivity.
Qed.

Lemma processDonations_keeps_first_on_tie_witness :
  exists out s,
    processDonations Samples.sameInstant = Ok out /\
    summaryOf "A" out = Some s /\
    lastDonation s = Ts (Samples.at_ 1700000000 100000).
Proof.
  apply (proj2 processDonations_keeps_first_on_tie
           (Samples.donation "y1" "A" 10 (Ts (Samples.at_ 1700000000 100000)))
           (Samples.donation "y2" "A" 20 (Ts (Samples.at_ 1700000000 900000)))
           (Samples.at_ 1700000000 100000) (Samples.at_ 1700000000 900000));
    reflexivity.
Defined.

(** A date comparison between two present dates throws as soon as one
    of them is not a native timestamp. *)
Lemma processDonations_raises x y :
  Donation.donor x = Donation.donor y ->
  truthy (Donation.date x) = true -> truthy (Donation.date y) = true ->
  (forall t, Donation.date x <> Ts t) \/ (forall t, Donation.date y <> Ts t) ->
  processDonations [x; y] = Raise (TypeError "toDate is not a function").
Proof.
  intros Hd Tx Ty Hbad.
  unfold processDonations, forEach, accumulate, isMoreRecent. simpl.
  rewrite <- Hd, String.eqb_refl. simpl. rewrite Tx, Ty. simpl.
  destruct (Donation.date y) as [| |n|s|u] eqn:Ey; simpl; try reflexivity.
  destruct (Donation.date x) as [| |n|s|t] eqn:Ex; simpl; try reflexivity.
  destruct Hbad as [H|H]; [destruct (H t)|destruct (H u)]; reflexivity.
Qed.

(** C10 - totality precondition of [processDonations]: it returns a
    table whenever every present donation date is a native timestamp;
    the dates are compared through [toDate()] with no type guard, so for
    two dated donations of one donor of which one date is a plain string
    or number the comparison throws a [TypeError] and no table is
    produced; such an input exists. *)
Theorem processDonations_total_iff_native :
  (forall ds, NativeDates ds -> exists out, processDonations ds = Ok out) /\
  (forall x y,
     Donation.donor x = Donation.donor y ->
     truthy (Donation.date x) = true -> truthy (Donation.date y) = true ->
     (forall t, Donation.date x <> Ts t) \/ (forall t, Donation.date y <> Ts t) ->
     processDonations [x; y] = Raise (TypeError "toDate is not a function")) /\
  (exists ds,
     (exists d s, In d ds /\ Donation.date d = Str s) /\
     processDonations ds = Raise (TypeError "toDate is not a function")) /\
  (exists ds,
     (exists d n, In d ds /\ Donation.date d = Num n) /\
     processDonations ds = Raise (TypeError "toDate is not a function")).
Proof.
  split; [|split; [exact processDonations_raises|split]].
  - intros ds Hn. destruct (forEach_summarises Hn) as (m & Hm & _).
    rewrite processDonations_eq, Hm. simpl. eauto.
  - exists Samples.stringDated. split; [|reflexivity].
    eexists. eexists. split; [right; left; reflexivity|reflexivity].
  - exists [ Samples.donation "n1" "A" 10 (Num 1700000000000);
             Samples.donation "n2" "A" 20 (Ts Samples.d1) ].
    split; [|reflexivity].
    eexists. eexists. split; [left; reflexivity|reflexivity].
Qed.

Lemma processDonations_total_iff_native_witness :
  (exists out, processDonations Samples.threeDonations = Ok out) /\
  processDonations Samples.stringDated = Raise (TypeError "toDate is not a function").
Proof.
  destruct processDonations_total_iff_native as (Htotal & Hraise & _).
  split.
  - apply Htotal. exact NativeDates_threeDonations.
  - apply Hraise; try reflexivity. right. intros t. discriminate.
Defined.

(** ** The order of query results *)
Section ValueOrder.
Import Firestore.

Lemma string_compare_trans s t u :
  String.compare s t = Lt -> String.compare t u = Lt -> String.compare s u = Lt.
Proof.
  intros H1 H2.
  apply String_as_OT.cmp_lt. apply String_as_OT.cmp_lt in H1, H2.
  eapply String_as_OT.lt_trans; eauto.
Qed.

Lemma string_compare_antisym s t :
  String.compare t s = CompOpp (String.compare s t).
Proof. apply String.compare_antisym. Qed.

Lemma string_compare_eq s t : String.compare s t = Eq -> s = t.
Proof. apply String.compare_eq_iff. Qed.

Lemma string_compare_refl s : String.compare s s = Eq.
Proof.
  pose proof (String.compare_antisym s s) as E.
  destruct (String.compare s s); simpl in E; congruence.
Qed.

Lemma timestampCompare_antisym t u :
  timestampCompare u t = CompOpp (timestampCompare t u).
Proof.
  unfold timestampCompare.
  rewrite (Z.compare_antisym (seconds t) (seconds u)).
  rewrite (Z.compare_antisym (nanoseconds t) (nanoseconds u)).
  destruct (seconds t ?= seconds u)%Z; reflexivity.
Qed.

Lemma timestampCompare_eq t u : timestampCompare t u = Eq -> t = u.
Proof.
  unfold timestampCompare. destruct t as [s n], u as [s' n']. simpl.
  destruct (Z.compare_spec s s'); try discriminate.
  intros E. apply Z.compare_eq in E. congruence.
Qed.

Lemma timestampCompare_trans t u v :
  timestampCompare t u = Lt -> timestampCompare u v = Lt -> timestampCompare t v = Lt.
Proof.
  unfold timestampCompare.
  destruct (Z.compare_spec (seconds t) (seconds u));
  destruct (Z.compare_spec (seconds u) (seconds v));
  destruct (Z.compare_spec (seconds t) (seconds v));
  try discriminate; try lia; auto.
  rewrite !Z.compare_lt_iff. lia.
Qed.

Lemma valueCompare_antisym v w : valueCompare w v = CompOpp (valueCompare v w).
Proof.
  destruct v, w; simpl; try reflexivity.
  - apply Z.compare_antisym.
  - apply string_compare_antisym.
  - apply timestampCompare_antisym.
Qed.

Lemma valueCompare_eq v w : valueCompare v w = Eq -> v = w.
Proof.
  destruct v, w; simpl; try discriminate; try reflexivity; intros E.
  - apply Z.compare_eq in E. congruence.
  - apply string_compare_eq in E. congruence.
  - apply timestampCompare_eq in E. congruence.
Qed.

Lemma valueCompare_trans v w x :
  valueCompare v w = Lt -> valueCompare w x = Lt -> valueCompare v x = Lt.
Proof.
  destruct v, w, x; simpl; try discriminate; try reflexivity.
  - rewrite !Z.compare_lt_iff. lia.
  - apply string_compare_trans.
  - apply timestampCompare_trans.
Qed.

Lemma valueCompare_refl v : valueCompare v v = Eq.
Proof.
  pose proof (valueCompare_antisym v v) as E.
  destruct (valueCompare v v); simpl in E; congruence.
Qed.

Lemma applyDir_antisym dir r : applyDir dir (CompOpp r) = CompOpp (applyDir dir r).
Proof. destruct dir; reflexivity. Qed.

Lemma applyDir_Eq dir r : applyDir dir r = Eq -> r = Eq.
Proof. destruct dir, r; simpl; congruence. Qed.

Context {A : Type} `{Document A}.

Lemma TotalCompare_applyDir dir (c : A -> A -> comparison) :
  TotalCompare c -> TotalCompare (fun a b => applyDir dir (c a b)).
Proof.
  intros Hc. destruct dir; simpl.
  - destruct Hc. split; auto.
  - now apply TotalCompare_opp.
Qed.

Lemma fieldCompare_total f :
  TotalCompare (fun a b : A => valueCompare (docField a f) (docField b f)).
Proof.
  apply (TotalCompare_key (fun a : A => docField a f) valueCompare).
  - intros. apply valueCompare_antisym.
  - apply valueCompare_trans.
  - apply valueCompare_eq.
Qed.

Lemma idCompare_total :
  TotalCompare (fun a b : A => String.compare (docId a) (docId b)).
Proof.
  apply (TotalCompare_key (fun a : A => docId a) String.compare).
  - intros. apply string_compare_antisym.
  - apply string_compare_trans.
  - apply string_compare_eq.
Qed.

Lemma fieldsCompare_total os : TotalCompare (fieldsCompare os).
Proof.
  induction os as [|[f dir] os IH]; simpl.
  - apply TotalCompare_const.
  - apply (@TotalCompare_lex A
             (fun a b => applyDir dir (valueCompare (docField a f) (docField b f)))
             (fieldsCompare os)); auto.
    apply TotalCompare_applyDir, fieldCompare_total.
Qed.

Lemma docCompare_total os : TotalCompare (docCompare os).
Proof.
  unfold docCompare.
  apply (@TotalCompare_lex A (fieldsCompare os)
           (fun a b => applyDir (lastDirection os) (String.compare (docId a) (docId b)))).
  - apply fieldsCompare_total.
  - apply TotalCompare_applyDir, idCompare_total.
Qed.

Lemma docCompare_Eq_id os a b : docCompare os a b = Eq -> docId a = docId b.
Proof.
  unfold docCompare. destruct (fieldsCompare os a b); try discriminate.
  intros E. apply applyDir_Eq in E. now apply string_compare_eq.
Qed.

(** With distinct ids the sorted result is strictly ordered. *)
Lemma sortBy_strict os l :
  NoDup (map docId l) ->
  StronglySorted (fun a b => docCompare os a b = Lt) (sortBy (docCompare os) l).
Proof.
  intros Hnd.
  assert (Hnd' : NoDup (map docId (sortBy (docCompare os) l))).
  { eapply Permutation_NoDup; [|exact Hnd].
    apply Permutation_map. symmetry. apply sortBy_perm. }
  pose proof (sortBy_sorted (docCompare_total os) l) as Hs.
  induction Hs as [|a l' Hs IH Hall]; constructor.
  - apply IH. now inversion Hnd'.
  - inversion Hnd' as [|? ? Hni _]; subst.
    rewrite Forall_forall in *. intros b Hb. specialize (Hall b Hb).
    unfold notGt in Hall.
    destruct (docCompare os a b) eqn:E; try discriminate; auto.
    exfalso. apply Hni. apply docCompare_Eq_id in E. rewrite E.
    now apply in_map.
Qed.

(** In a strictly ordered list, the documents strictly after one of its
    elements are those that follow it. *)
Lemma filter_after os l1 c l2 :
  StronglySorted (fun a b => docCompare os a b = Lt) (l1 ++ c :: l2) ->
  filter (fun d => isLt (docCompare os c d)) (l1 ++ c :: l2) = l2.
Proof.
  induction l1 as [|x l1 IH]; simpl; intros Hs.
  - inversion Hs as [|? ? Hs' Hall]; subst.
    rewrite (tc_refl (docCompare_total os)). simpl.
    rewrite Forall_forall in Hall.
    clear Hs Hs'. induction l2 as [|y l2 IH2]; simpl; auto.
    rewrite (Hall y) by now left. simpl. f_equal.
    apply IH2. intros z Hz. apply Hall. now right.
  - inversion Hs as [|? ? Hs' Hall]; subst.
    rewrite Forall_forall in Hall.
    assert (Hxc : docCompare os x c = Lt).
    { apply Hall. apply in_or_app. right. now left. }
    rewrite (tc_antisym (docCompare_total os) x c), Hxc. simpl.
    now apply IH.
Qed.

End ValueOrder.

(** ** Paging through a collection in date order *)

Lemma lastElement_nil {A} : lastElement (@nil A) = None.
Proof. reflexivity. Qed.

Lemma lastElement_snoc {A} (l : list A) x : lastElement (l ++ [x]) = Some x.
Proof.
  unfold lastElement. rewrite length_app. simpl.
  rewrite nth_error_app2 by lia.
  replace (List.length l + 1 - 1 - List.length l)%nat with 0%nat by lia.
  reflexivity.
Qed.

Lemma lastElement_None {A} (l : list A) : lastElement l = None <-> l = [].
Proof.
  destruct l as [|x l] using rev_ind.
  - split; reflexivity.
  - rewrite lastElement_snoc. split; [discriminate|].
    intros E. apply app_eq_nil in E. destruct E. discriminate.
Qed.

Lemma lastElement_Some {A} (l : list A) x :
  lastElement l = Some x <-> exists l', l = l' ++ [x].
Proof.
  destruct l as [|y l] using rev_ind.
  - rewrite lastElement_nil. split; [discriminate|].
    intros [l' E]. destruct l'; discriminate.
  - rewrite lastElement_snoc. split.
    + intros [= ->]. eauto.
    + intros [l' E]. apply app_inj_tail in E. destruct E. congruence.
Qed.

Lemma lastElement_app {A} (l p : list A) :
  p <> [] -> lastElement (l ++ p) = lastElement p.
Proof.
  destruct p as [|y p] using rev_ind; [congruence|]. intros _.
  rewrite app_assoc, !lastElement_snoc. reflexivity.
Qed.

Lemma firstn_short {A} (l : list A) n :
  List.length (firstn n l) <> n -> skipn n l = [].
Proof.
  intros Hlen. apply skipn_all2.
  rewrite length_firstn in Hlen. lia.
Qed.

Section PagingFacts.
Import Firestore Paging.
Context {A : Type} `{Document A}.
Variable coll : list A.
Hypothesis Hids : NoDup (map docId coll).
Variable pageSize : nat.
Hypothesis Hsize : (0 < pageSize)%nat.

Lemma NoDup_ids_filter (f : A -> bool) (l : list A) :
  NoDup (map docId l) -> NoDup (map docId (filter f l)).
Proof.
  induction l as [|x l IH]; simpl; intros Hnd; [constructor|].
  inversion Hnd as [|? ? Hni Hnd']; subst.
  destruct (f x); simpl; auto.
  constructor; auto. intros Hin. apply Hni.
  apply in_map_iff in Hin. destruct Hin as [y [E Hy]].
  apply filter_In in Hy. destruct Hy as [Hy _].
  rewrite <- E. now apply in_map.
Qed.

Lemma ordered_strict :
  StronglySorted (fun a b => docCompare Paging.byDate a b = Lt) (ordered coll).
Proof.
  unfold ordered, runQuery. simpl.
  apply sortBy_strict. now apply NoDup_ids_filter.
Qed.

Lemma ordered_In d : In d (ordered coll) -> In d coll.
Proof.
  unfold ordered, runQuery. simpl. rewrite sortBy_In, filter_In. tauto.
Qed.

Lemma ordered_length : (List.length (ordered coll) <= List.length coll)%nat.
Proof.
  unfold ordered, runQuery. simpl. rewrite sortBy_length. apply filter_length_le.
Qed.

Lemma ordered_perm : AllDated coll -> Permutation (ordered coll) coll.
Proof.
  intros Hd. unfold ordered, runQuery. simpl.
  rewrite sortBy_perm.
  replace (filter _ coll) with coll; [reflexivity|].
  symmetry. apply forallb_filter_id. apply forallb_forall.
  intros d Hin. unfold hasField. simpl.
  specialize (Hd d Hin). destruct (docField d "date"); simpl; congruence.
Qed.

Lemma page_first c : runQuery coll (defaultQuery pageSize true c) = firstn pageSize (ordered coll).
Proof. destruct c; reflexivity. Qed.

Lemma page_first_no_cursor b :
  runQuery coll (defaultQuery pageSize b None) = firstn pageSize (ordered coll).
Proof. destruct b; reflexivity. Qed.

Lemma page_next l1 c l2 :
  ordered coll = l1 ++ c :: l2 ->
  runQuery coll (defaultQuery pageSize false (Some c)) = firstn pageSize l2.
Proof.
  intros E.
  change (runQuery coll (defaultQuery pageSize false (Some c)))
    with (firstn pageSize (filter (fun d => isLt (docCompare Paging.byDate c d)) (ordered coll))).
  pose proof ordered_strict as Hs. rewrite E in *.
  now rewrite filter_after.
Qed.

Lemma full_page_nonempty (l : list A) :
  (List.length (firstn pageSize l) =? pageSize)%nat = true -> firstn pageSize l <> [].
Proof.
  intros E. apply Nat.eqb_eq in E. intros E0. rewrite E0 in E. simpl in E. lia.
Qed.

Lemma Paged_first v : Paged coll (nextView pageSize coll true v).
Proof.
  unfold nextView. rewrite page_first. simpl.
  exists (skipn pageSize (ordered coll)). split; [|split]; simpl.
  - symmetry. apply firstn_skipn.
  - intros E. split; [reflexivity|now apply full_page_nonempty].
  - intros E. apply Nat.eqb_neq in E. now apply firstn_short.
Qed.

Lemma Paged_next v :
  Paged coll v -> more v = true -> Paged coll (nextView pageSize coll false v).
Proof.
  intros (rest & HL & Hmore & _) Hm.
  destruct (Hmore Hm) as [Hcur Hne].
  destruct (lastElement (items v)) as [c|] eqn:Elast;
    [|apply lastElement_None in Elast; contradiction].
  apply lastElement_Some in Elast. destruct Elast as [l1 Eitems].
  assert (HL' : ordered coll = l1 ++ c :: rest).
  { rewrite HL, Eitems, <- app_assoc. reflexivity. }
  unfold nextView. rewrite Hcur, (@page_next l1 c rest HL'). simpl.
  exists (skipn pageSize rest). split; [|split]; simpl.
  - rewrite HL, <- app_assoc. f_equal. symmetry. apply firstn_skipn.
  - intros E. pose proof (full_page_nonempty _ E) as Hne'.
    split; [|intros E0; apply app_eq_nil in E0; tauto].
    symmetry. now apply lastElement_app.
  - intros E. apply Nat.eqb_neq in E. now apply firstn_short.
Qed.

Lemma Paged_loadMore v : Paged coll v -> Paged coll (loadMoreView pageSize coll v).
Proof.
  intros Hv. unfold loadMoreView.
  destruct (more v) eqn:Hm; auto. now apply Paged_next.
Qed.

Lemma Paged_times n v : Paged coll v -> Paged coll (loadMoreViewTimes pageSize n coll v).
Proof.
  revert v. induction n as [|n IH]; intros v Hv; simpl; auto.
  apply IH. now apply Paged_loadMore.
Qed.

Lemma nextView_length v :
  Paged coll v -> more v = true ->
  more (nextView pageSize coll false v) = true ->
  List.length (items (nextView pageSize coll false v)) =
  (List.length (items v) + pageSize)%nat.
Proof.
  intros _ _. unfold nextView. simpl.
  rewrite length_app. intros E. apply Nat.eqb_eq in E. lia.
Qed.

(** While more is expected, every press has added a full page. *)
Lemma progress n v :
  Paged coll v ->
  more (loadMoreViewTimes pageSize n coll v) = true ->
  more v = true /\
  List.length (items (loadMoreViewTimes pageSize n coll v)) =
  (List.length (items v) + n * pageSize)%nat.
Proof.
  revert v. induction n as [|n IH]; intros v Hv Hm; simpl in *.
  - split; [exact Hm|lia].
  - destruct (IH _ (Paged_loadMore Hv) Hm) as [Hm' Hlen].
    unfold loadMoreView in *.
    destruct (more v) eqn:Emore; [|congruence].
    split; [reflexivity|].
    rewrite Hlen, (nextView_length Hv Emore Hm'). lia.
Qed.

Lemma Paged_prefix_length v :
  Paged coll v -> (List.length (items v) <= List.length coll)%nat.
Proof.
  intros (rest & HL & _).
  pose proof ordered_length as Hlen. rewrite HL, length_app in Hlen. lia.
Qed.

(** After at least as many presses as there are documents, paging has
    stopped and has collected the whole ordered collection. *)
Lemma paging_complete n v :
  (List.length coll <= n)%nat ->
  let v' := loadMoreViewTimes pageSize n coll (nextView pageSize coll true v) in
  more v' = false /\ items v' = ordered coll.
Proof.
  intros Hn v'.
  pose proof (Paged_times n (Paged_first v)) as Hv'. fold v' in Hv'.
  assert (Hstop : more v' = false).
  { destruct (more v') eqn:Hm; auto. exfalso.
    destruct (progress n (Paged_first v) Hm) as [Hm0 Hlen]. fold v' in Hlen.
    pose proof (Paged_prefix_length Hv') as Hle.
    assert (Hp : List.length (items (nextView pageSize coll true v)) = pageSize).
    { unfold nextView in *. simpl in *. now apply Nat.eqb_eq. }
    rewrite Hp in Hlen. nia. }
  split; auto.
  destruct Hv' as (rest & HL & _ & Hdone).
  rewrite HL, (Hdone Hstop). now rewrite app_nil_r.
Qed.

Lemma StronglySorted_app_l {B} (R : B -> B -> Prop) (l r : list B) :
  StronglySorted R (l ++ r) -> StronglySorted R l.
Proof.
  induction l as [|x l IH]; simpl; intros Hs; [constructor|].
  inversion Hs as [|? ? Hs' Hall]; subst. constructor; auto.
  rewrite Forall_forall in *. intros y Hy. apply Hall. apply in_or_app. now left.
Qed.

Lemma StronglySorted_impl {B} (R R' : B -> B -> Prop) (l : list B) :
  (forall a b, R a b -> R' a b) -> StronglySorted R l -> StronglySorted R' l.
Proof.
  intros HR Hs. induction Hs as [|a l Hs IH Hall]; constructor; auto.
  eapply Forall_impl; [|exact Hall]. intros b. apply HR.
Qed.

Lemma byDate_NewestFirst a b :
  docCompare Paging.byDate a b = Lt -> NewestFirst a b.
Proof.
  unfold docCompare, NewestFirst. simpl.
  pose proof (@valueCompare_eq (docField a "date") (docField b "date")) as Heq.
  destruct (valueCompare (docField a "date") (docField b "date")); simpl;
    try discriminate; auto.
  intros E. right. split; auto.
  destruct (String.compare (docId a) (docId b)); simpl in E; congruence.
Qed.

(** At every moment the accumulated list is in the order of the store. *)
Lemma paging_ordered n v :
  StronglySorted NewestFirst
    (items (loadMoreViewTimes pageSize n coll (nextView pageSize coll true v))).
Proof.
  destruct (Paged_times n (Paged_first v)) as (rest & HL & _).
  pose proof ordered_strict as Hs. rewrite HL in Hs.
  apply StronglySorted_app_l in Hs.
  eapply StronglySorted_impl; [|exact Hs].
  intros a b. apply byDate_NewestFirst.
Qed.

End PagingFacts.

(** ** The two list pages as pagers *)
Section DonorsPaging.
Import Firestore Paging DonorsPage.
Variable pageSize : nat.
Variable db : Database.

Lemma donorsQuery_default isNew st :
  searchTerm st = "" ->
  donorsQuery pageSize isNew st = defaultQuery pageSize isNew (lastVisible st).
Proof.
  unfold donorsQuery, defaultQuery. intros ->. simpl.
  destruct isNew, (lastVisible st); reflexivity.
Qed.

Lemma fetchDonors_keeps isNew st :
  searchTerm (fetchDonorsWith pageSize isNew db st) = searchTerm st /\
  loading (fetchDonorsWith pageSize isNew db st) = false.
Proof.
  unfold fetchDonorsWith.
  destruct (getDocs db _ _) as [docs|e]; simpl; auto.
  destruct (processDonations _); destruct isNew; simpl; auto.
Qed.

Lemma fetchDonors_view isNew st :
  searchTerm st = "" -> online db = true ->
  donorsView (fetchDonorsWith pageSize isNew db st) =
  nextView pageSize (donations db) isNew (donorsView st).
Proof.
  intros Hs Ho. unfold fetchDonorsWith, getDocs. rewrite Ho.
  rewrite donorsQuery_default by exact Hs. simpl.
  unfold nextView, donorsView, collection_donations. simpl.
  destruct (processDonations _); destruct isNew; reflexivity.
Qed.

Lemma loadMore_view st :
  searchTerm st = "" -> online db = true -> loading st = false ->
  donorsView (loadMoreWith pageSize db st) =
  loadMoreView pageSize (donations db) (donorsView st).
Proof.
  intros Hs Ho Hl. unfold loadMoreWith, loadMoreView. rewrite Hl. simpl.
  destruct (hasMore st); [|reflexivity].
  now rewrite fetchDonors_view.
Qed.

Lemma loadMore_keeps st :
  searchTerm st = "" -> loading st = false ->
  searchTerm (loadMoreWith pageSize db st) = "" /\
  loading (loadMoreWith pageSize db st) = false.
Proof.
  intros Hs Hl. unfold loadMoreWith.
  destruct (negb (loading st) && hasMore st); auto.
  destruct (fetchDonors_keeps false (setCurrentPage (currentPage st + 1) st)) as [H1 H2].
  rewrite H1, H2. auto.
Qed.

Lemma loadMoreTimes_view n st :
  searchTerm st = "" -> online db = true -> loading st = false ->
  donorsView (loadMoreTimes pageSize n db st) =
  loadMoreViewTimes pageSize n (donations db) (donorsView st).
Proof.
  revert st. induction n as [|n IH]; intros st Hs Ho Hl; simpl; auto.
  destruct (loadMore_keeps _ Hs Hl) as [Hs' Hl'].
  rewrite IH by assumption. now rewrite loadMore_view.
Qed.

Lemma donors_paging_view n :
  online db = true ->
  donorsView (loadMoreTimes pageSize n db (mountWith pageSize db)) =
  loadMoreViewTimes pageSize n (donations db)
    (nextView pageSize (donations db) true (donorsView initialState)).
Proof.
  intros Ho. unfold mountWith.
  destruct (fetchDonors_keeps true initialState) as [Hs Hl].
  rewrite loadMoreTimes_view by assumption.
  now rewrite fetchDonors_view.
Qed.

Lemma loadMoreTimes_stopped n st :
  hasMore st = false -> loadMoreTimes pageSize n db st = st.
Proof.
  intros Hm. induction n as [|n IH]; simpl; auto.
  unfold loadMoreWith. rewrite Hm, andb_false_r. exact IH.
Qed.
End DonorsPaging.

Section ExpensesPaging.
Import Firestore Paging ExpensesPage.
Variable pageSize : nat.
Variable db : Database.

Lemma expensesQuery_default isNew st :
  searchTerm st = "" ->
  expensesQuery pageSize isNew st = defaultQuery pageSize isNew (lastVisible st).
Proof.
  unfold expensesQuery, defaultQuery. intros ->. simpl.
  destruct isNew, (lastVisible st); reflexivity.
Qed.

Lemma fetchExpenses_keeps isNew st :
  searchTerm (fetchExpensesWith pageSize isNew db st) = searchTerm st /\
  loading (fetchExpensesWith pageSize isNew db st) = false.
Proof.
  unfold fetchExpensesWith.
  destruct (getDocs db _ _) as [docs|e]; simpl; auto.
Qed.

Lemma fetchExpenses_view isNew st :
  searchTerm st = "" -> online db = true ->
  expensesView (fetchExpensesWith pageSize isNew db st) =
  nextView pageSize (collection_expenses db) isNew (expensesView st).
Proof.
  intros Hs Ho. unfold fetchExpensesWith, getDocs. rewrite Ho.
  rewrite expensesQuery_default by exact Hs.
  unfold nextView, expensesView, collection_expenses. simpl.
  destruct isNew; reflexivity.
Qed.

Lemma expenses_loadMore_view st :
  searchTerm st = "" -> online db = true -> loading st = false ->
  expensesView (loadMoreWith pageSize db st) =
  loadMoreView pageSize (collection_expenses db) (expensesView st).
Proof.
  intros Hs Ho Hl. unfold loadMoreWith, loadMoreView. rewrite Hl. simpl.
  destruct (hasMore st) eqn:Hm; [|reflexivity].
  rewrite fetchExpenses_view by assumption.
  unfold nextView, expensesView. simpl. reflexivity.
Qed.

Lemma expenses_loadMore_keeps st :
  searchTerm st = "" -> loading st = false ->
  searchTerm (loadMoreWith pageSize db st) = "" /\
  loading (loadMoreWith pageSize db st) = false.
Proof.
  intros Hs Hl. unfold loadMoreWith.
  destruct (negb (loading st) && hasMore st); auto.
  match goal with |- context [fetchExpensesWith _ _ _ ?s] =>
    destruct (fetchExpenses_keeps false s) as [H1 H2] end.
  rewrite H1, H2. auto.
Qed.

Lemma expenses_loadMoreTimes_view n st :
  searchTerm st = "" -> online db = true -> loading st = false ->
  expensesView (loadMoreTimes pageSize n db st) =
  loadMoreViewTimes pageSize n (collection_expenses db) (expensesView st).
Proof.
  revert st. induction n as [|n IH]; intros st Hs Ho Hl; simpl; auto.
  destruct (expenses_loadMore_keeps _ Hs Hl) as [Hs' Hl'].
  rewrite IH by assumption. now rewrite expenses_loadMore_view.
Qed.

Lemma expenses_paging_view n :
  online db = true ->
  expensesView (loadMoreTimes pageSize n db (mountWith pageSize db)) =
  loadMoreViewTimes pageSize n (collection_expenses db)
    (nextView pageSize (collection_expenses db) true (expensesView initialState)).
Proof.
  intros Ho. unfold mountWith.
  destruct (fetchExpenses_keeps true initialState) as [Hs Hl].
  rewrite expenses_loadMoreTimes_view by assumption.
  now rewrite fetchExpenses_view.
Qed.
End ExpensesPaging.

(** ** Default mode: the accumulated list *)

Lemma Donation_AllDated (coll : list Donation.t) :
  (forall d, In d coll -> Donation.date d <> Undefined) -> Paging.AllDated coll.
Proof. intros Hd d Hin. apply (Hd d Hin). Qed.

Lemma Expense_AllDated (coll : list Expense.t) :
  (forall d, In d coll -> Expense.date d <> Undefined) -> Paging.AllDated coll.
Proof. intros Hd d Hin. apply (Hd d Hin). Qed.

Lemma complete_view {A} `{Firestore.Document A} (coll : list A) (v : Paging.View) :
  NoDup (map Firestore.docId coll) -> Paging.AllDated coll ->
  Paging.items v = Paging.ordered coll ->
  Permutation (Paging.items v) coll /\
  NoDup (map Firestore.docId (Paging.items v)).
Proof.
  intros Hids Hd ->.
  pose proof (ordered_perm Hd) as Hp. split; auto.
  eapply Permutation_NoDup; [|exact Hids].
  apply Permutation_map. now symmetry.
Qed.

(** *** Search mode ignores the cursor *)

Lemma donorsQuery_search pageSize isNew st :
  DonorsPage.searchTerm st <> "" ->
  DonorsPage.donorsQuery pageSize isNew st =
  [ Firestore.where_ "donor" Firestore.OpGe (Str (DonorsPage.searchTerm st));
    Firestore.where_ "donor" Firestore.OpLe (Str (DonorsPage.searchTerm st ++ uF8FF));
    Firestore.orderBy "donor" Firestore.Asc;
    Firestore.orderBy "date" Firestore.Desc;
    Firestore.limit pageSize ].
Proof.
  intros Hne. unfold DonorsPage.donorsQuery.
  destruct (String.eqb_spec (DonorsPage.searchTerm st) ""); [contradiction|reflexivity].
Qed.

(** In search mode every fetch runs the same first-page query, whatever
    the cursor; "Load More" appends that page again. *)
Lemma search_fetch pageSize isNew db st :
  DonorsPage.searchTerm st <> "" -> online db = true ->
  let page := Firestore.runQuery (donations db)
                (DonorsPage.donorsQuery pageSize true st) in
  let st' := DonorsPage.fetchDonorsWith pageSize isNew db st in
  DonorsPage.allDonations st' =
    (if isNew then page else DonorsPage.allDonations st ++ page) /\
  DonorsPage.hasMore st' = (List.length page =? pageSize)%nat /\
  DonorsPage.lastVisible st' = lastElement page /\
  DonorsPage.searchTerm st' = DonorsPage.searchTerm st /\
  DonorsPage.loading st' = false.
Proof.
  intros Hne Ho page st'. subst page st'.
  unfold DonorsPage.fetchDonorsWith, getDocs. rewrite Ho.
  rewrite !donorsQuery_search by exact Hne. simpl.
  unfold collection_donations.
  destruct (DonorsPage.processDonations _); destruct isNew; simpl; auto.
Qed.

Lemma searchDb_never_stops n st :
  DonorsPage.searchTerm st = "A" -> DonorsPage.loading st = false ->
  DonorsPage.hasMore st = true ->
  DonorsPage.hasMore
    (DonorsPage.loadMoreTimes DonorsPage.ITEMS_PER_PAGE n Samples.searchDb st) = true.
Proof.
  revert st. induction n as [|n IH]; intros st Hs Hl Hm; simpl; auto.
  unfold DonorsPage.loadMoreWith. rewrite Hl, Hm. simpl.
  set (st1 := DonorsPage.setCurrentPage (DonorsPage.currentPage st + 1) st).
  assert (Hne : DonorsPage.searchTerm st1 <> "")
    by (simpl; rewrite Hs; discriminate).
  pose proof (@search_fetch DonorsPage.ITEMS_PER_PAGE false Samples.searchDb st1
                Hne eq_refl) as Hf.
  cbv zeta in Hf. destruct Hf as (_ & Hmore & _ & Hterm & Hload).
  apply IH.
  - rewrite Hterm. exact Hs.
  - exact Hload.
  - rewrite Hmore, donorsQuery_search by exact Hne.
    simpl. rewrite Hs. reflexivity.
Qed.

(** Searching for "A" on [Samples.searchDb], a collection with ten
    donors named "A0" to "A9" and one "Bob", never reaches
    [hasMore = false] with the ids of the collection collected once
    each. *)
Lemma search_mode_pagination_incomplete :
  ~ exists n,
      let st := DonorsPage.loadMoreTimes DonorsPage.ITEMS_PER_PAGE n
                  Samples.searchDb Samples.searchedA in
      DonorsPage.hasMore st = false /\
      Permutation (map Donation.id (DonorsPage.allDonations st))
                  (map Donation.id (donations Samples.searchDb)).
Proof.
  intros [n [Hstop _]].
  rewrite searchDb_never_stops in Hstop; [discriminate| | |]; reflexivity.
Qed.

(** C1 - pagination completeness is broken in search mode.  The search
    branch of [fetchDonors] builds its query without the
    [startAfter(lastVisible)] that the Default branch adds, so "Load
    More" fetches the first page again.  On [Samples.searchDb] (ten
    donors named "A0" to "A9", one "Bob", page size 10), after a search
    for "A" the ten matches are listed and [hasMore] is true; one "Load
    More" lists the same ten ids a second time and leaves [hasMore]
    true; and [hasMore] stays true however often "Load More" is
    pressed, so the loop of the claim never ends with each id once. *)
Theorem search_mode_load_more_repeats_the_page :
  let ids := ["d0"; "d1"; "d2"; "d3"; "d4"; "d5"; "d6"; "d7"; "d8"; "d9"] in
  let st := DonorsPage.loadMore Samples.searchDb Samples.searchedA in
  DonorsPage.searchTerm Samples.searchedA = "A" /\
  map Donation.id (DonorsPage.allDonations Samples.searchedA) = ids /\
  DonorsPage.hasMore Samples.searchedA = true /\
  map Donation.id (DonorsPage.allDonations st) = ids ++ ids /\
  DonorsPage.hasMore st = true /\
  DonorsPage.error st = None /\
  (forall n,
     DonorsPage.hasMore
       (DonorsPage.loadMoreTimes DonorsPage.ITEMS_PER_PAGE n
          Samples.searchDb Samples.searchedA) = true).
Proof.
  intros ids st. subst ids st.
  split; [reflexivity|].
  split; [vm_compute; reflexivity|].
  split; [reflexivity|].
  split; [vm_compute; reflexivity|].
  split; [vm_compute; reflexivity|].
  split; [vm_compute; reflexivity|].
  intros n. apply searchDb_never_stops; reflexivity.
Qed.

(** C3 (amended) - Default-mode ordering: at every moment of paging in
    Default mode the accumulated list is ordered by date, latest first,
    and records with equal dates appear in descending order of id (the
    store breaks ties by id in the direction of the last [orderBy]; the
    code adds no id ordering of its own).  This holds for the donors page
    and for the expenses page. *)
Theorem default_mode_ordering :
  (forall pageSize db n,
     (0 < pageSize)%nat -> online db = true ->
     NoDup (map Donation.id (donations db)) ->
     StronglySorted (@Paging.NewestFirst Donation.t _)
       (DonorsPage.allDonations
          (DonorsPage.loadMoreTimes pageSize n db (DonorsPage.mountWith pageSize db))))
  /\
  (forall pageSize db n,
     (0 < pageSize)%nat -> online db = true ->
     NoDup (map Expense.id (expenses db)) ->
     StronglySorted (@Paging.NewestFirst Expense.t _)
       (ExpensesPage.expenses
          (ExpensesPage.loadMoreTimes pageSize n db (ExpensesPage.mountWith pageSize db)))).
Proof.
  split; intros pageSize db n Hsize Ho Hids.
  - pose proof (@paging_ordered Donation.t Donation.document (donations db) Hids pageSize Hsize n
                  (donorsView DonorsPage.initialState)) as Hs.
    rewrite <- (@donors_paging_view pageSize db n Ho) in Hs. exact Hs.
  - pose proof (@paging_ordered Expense.t Expense.document (expenses db) Hids pageSize Hsize n
                  (expensesView ExpensesPage.initialState)) as Hs.
    pose proof (@expenses_paging_view pageSize db n Ho) as Hv.
    unfold collection_expenses in Hv. rewrite <- Hv in Hs. exact Hs.
Qed.

Lemma default_mode_ordering_witness :
  StronglySorted (@Paging.NewestFirst Donation.t _)
    (DonorsPage.allDonations
       (DonorsPage.loadMoreTimes 2 1 Samples.smallDb (DonorsPage.mountWith 2 Samples.smallDb))).
Proof.
  apply (proj1 default_mode_ordering 2%nat Samples.smallDb 1%nat).
  - lia.
  - reflexivity.
  - repeat constructor; simpl; intuition discriminate.
Defined.

(** C3, as stated, fails: two donations with the same date come back
    with the larger id first, not in ascending order of id. *)
Lemma default_mode_ties_not_ascending :
  ~ StronglySorted (@Paging.NewestFirstIdAscending Donation.t _)
      (DonorsPage.allDonations (DonorsPage.mount Samples.tieDb)).
Proof.
  intros Hs.
  assert (E : DonorsPage.allDonations (DonorsPage.mount Samples.tieDb) =
              [ Samples.donation "b" "Bala" 20 (Ts Samples.d1);
                Samples.donation "a" "Asha" 10 (Ts Samples.d1) ])
    by (vm_compute; reflexivity).
  rewrite E in Hs. inversion Hs as [|? ? _ Hall]; subst.
  inversion Hall as [|? ? Hba _]; subst.
  destruct Hba as [Hgt|[_ Hlt]]; vm_compute in *; discriminate.
Qed.

(** ** What a page contains *)
Section QueryResults.
Import Firestore.
Context {A : Type} `{Document A}.

Lemma In_firstn (n : nat) (l : list A) (d : A) : In d (firstn n l) -> In d l.
Proof.
  intros Hin. rewrite <- (firstn_skipn n l). apply in_or_app. now left.
Qed.

(** Every returned document is in the collection and passes every
    filter of the query. *)
Lemma runQuery_In coll q d :
  In d (runQuery coll q) ->
  In d coll /\ forallb (satisfies d) (filtersOf q) = true.
Proof.
  unfold runQuery. intros Hin.
  assert (Hrest : In d (match cursorOf q with
                        | None => sortBy (docCompare (ordersOf q))
                                    (filter (fun d => forallb (satisfies d) (filtersOf q) &&
                                                      forallb (hasField d) (ordersOf q)) coll)
                        | Some c => filter (fun d => isLt (docCompare (ordersOf q) c d))
                                      (sortBy (docCompare (ordersOf q))
                                         (filter (fun d => forallb (satisfies d) (filtersOf q) &&
                                                           forallb (hasField d) (ordersOf q)) coll))
                        end)).
  { destruct (limitOf q); [eapply In_firstn; eauto|exact Hin]. }
  assert (Hsorted : In d (sortBy (docCompare (ordersOf q))
                            (filter (fun d => forallb (satisfies d) (filtersOf q) &&
                                              forallb (hasField d) (ordersOf q)) coll))).
  { destruct (cursorOf q); [apply filter_In in Hrest; tauto|exact Hrest]. }
  apply sortBy_In, filter_In in Hsorted. destruct Hsorted as [Hc Hf].
  apply andb_true_iff in Hf. tauto.
Qed.

Lemma runQuery_length coll q n :
  limitOf q = Some n -> (List.length (runQuery coll q) <= n)%nat.
Proof. unfold runQuery. intros ->. apply firstn_le_length. Qed.

Lemma runQuery_nil q : runQuery [] q = [].
Proof.
  unfold runQuery. simpl.
  destruct (cursorOf q), (limitOf q); simpl; auto using firstn_nil.
Qed.
End QueryResults.

(** A string between [term] and [term] followed by anything starts with
    [term]. *)
Lemma prefix_range (term s x : string) :
  String.compare s term <> Lt ->
  String.compare s (term ++ x) <> Gt ->
  String.prefix term s = true.
Proof.
  revert s. induction term as [|c term IH]; intros s Hge Hle; simpl.
  - destruct s; reflexivity.
  - destruct s as [|c' s]; simpl in *; [congruence|].
    destruct (Ascii.compare c' c) eqn:Ec; try congruence.
    apply Ascii.compare_eq_iff in Ec. subst c'.
    destruct (ascii_dec c c); [|congruence].
    now apply IH.
Qed.

Lemma search_filters_prefix term x (d : Donation.t) :
  forallb (Firestore.satisfies d)
    [ ("donor", Firestore.OpGe, Str term); ("donor", Firestore.OpLe, Str (term ++ x)) ] = true ->
  String.prefix term (Donation.donor d) = true.
Proof.
  simpl. rewrite !andb_true_iff. intros [Hge [Hle _]].
  apply (@prefix_range term (Donation.donor d) x).
  - destruct (String.compare (Donation.donor d) term); congruence.
  - destruct (String.compare (Donation.donor d) (term ++ x)); congruence.
Qed.

(** C4 - search correctness: with a non-empty search term, every record
    that [fetchDonors] gets back from the store has a donor name that
    starts with the term, character for character; so does every record
    listed after a new search. *)
Theorem search_returns_only_prefix_matches :
  forall pageSize isNewSearch db st docs,
    DonorsPage.searchTerm st <> "" ->
    getDocs db (collection_donations db)
      (DonorsPage.donorsQuery pageSize isNewSearch st) = Ok docs ->
    (forall d, In d docs ->
       String.prefix (DonorsPage.searchTerm st) (Donation.donor d) = true) /\
    (forall d, In d (DonorsPage.allDonations (DonorsPage.handleSearchWith pageSize db st)) ->
       String.prefix (DonorsPage.searchTerm st) (Donation.donor d) = true).
Proof.
  intros pageSize isNewSearch db st docs Hne Hget.
  unfold getDocs in Hget. destruct (online db) eqn:Ho; [|discriminate].
  inversion Hget as [Hdocs]; clear Hget.
  assert (Hpage : forall isNew st' d,
             DonorsPage.searchTerm st' = DonorsPage.searchTerm st ->
             In d (Firestore.runQuery (collection_donations db)
                     (DonorsPage.donorsQuery pageSize isNew st')) ->
             String.prefix (DonorsPage.searchTerm st) (Donation.donor d) = true).
  { intros isNew st' d Hs Hin. apply runQuery_In in Hin. destruct Hin as [_ Hf].
    rewrite donorsQuery_search in Hf by (rewrite Hs; exact Hne).
    rewrite Hs in Hf. eapply search_filters_prefix. exact Hf. }
  split.
  - intros d Hin. eapply Hpage; eauto.
  - intros d Hin. unfold DonorsPage.handleSearchWith in Hin.
    set (st1 := DonorsPage.setCurrentPage 1 (DonorsPage.setIsSearching true st)) in *.
    assert (Hne1 : DonorsPage.searchTerm st1 <> "") by exact Hne.
    pose proof (@search_fetch pageSize true db st1 Hne1 Ho) as Hf.
    cbv zeta in Hf. destruct Hf as (Hall & _). rewrite Hall in Hin.
    eapply (Hpage true st1); eauto.
Qed.

Lemma search_returns_only_prefix_matches_witness :
  Forall (fun d => String.prefix "A" (Donation.donor d) = true)
    (DonorsPage.allDonations Samples.searchedA).
Proof.
  apply Forall_forall.
  assert (Hne : DonorsPage.searchTerm
                  (DonorsPage.setSearchTerm "A" (DonorsPage.mount Samples.searchDb)) <> "")
    by (simpl; discriminate).
  exact (proj2 (@search_returns_only_prefix_matches DonorsPage.ITEMS_PER_PAGE true
                  Samples.searchDb
                  (DonorsPage.setSearchTerm "A" (DonorsPage.mount Samples.searchDb))
                  _ Hne eq_refl)).
Defined.

(** C5 (amended) - a stale cursor in search mode: with a non-empty
    search term [fetchDonors] does not use the cursor.  The query has no
    [startAfter]; it is the same query whatever [lastVisible] holds, and
    when the store answers the call with a stale Default-mode cursor ends
    in the same state as the call with no cursor: the first page of
    matches in search order.  No error is raised on account of the
    cursor. *)
Theorem search_mode_ignores_cursor :
  forall pageSize isNewSearch db st cursor,
    DonorsPage.searchTerm st <> "" ->
    Firestore.cursorOf
      (DonorsPage.donorsQuery pageSize isNewSearch (DonorsPage.setLastVisible cursor st)) = None /\
    DonorsPage.donorsQuery pageSize isNewSearch (DonorsPage.setLastVisible cursor st) =
    DonorsPage.donorsQuery pageSize isNewSearch (DonorsPage.setLastVisible None st) /\
    (online db = true ->
     DonorsPage.fetchDonorsWith pageSize isNewSearch db (DonorsPage.setLastVisible cursor st) =
     DonorsPage.fetchDonorsWith pageSize isNewSearch db (DonorsPage.setLastVisible None st)).
Proof.
  intros pageSize isNewSearch db st cursor Hne.
  assert (Hq : forall c,
             DonorsPage.donorsQuery pageSize isNewSearch (DonorsPage.setLastVisible c st) =
             DonorsPage.donorsQuery pageSize true st).
  { intros c. rewrite !donorsQuery_search by exact Hne. reflexivity. }
  split; [|split].
  - rewrite Hq, donorsQuery_search by exact Hne. reflexivity.
  - now rewrite !Hq.
  - intros Ho. unfold DonorsPage.fetchDonorsWith, getDocs. rewrite Ho.
    change (DonorsPage.donorsQuery pageSize isNewSearch
              (DonorsPage.setLoading true (DonorsPage.setLastVisible cursor st)))
      with (DonorsPage.donorsQuery pageSize isNewSearch (DonorsPage.setLastVisible cursor st)).
    change (DonorsPage.donorsQuery pageSize isNewSearch
              (DonorsPage.setLoading true (DonorsPage.setLastVisible None st)))
      with (DonorsPage.donorsQuery pageSize isNewSearch (DonorsPage.setLastVisible None st)).
    rewrite !Hq. simpl.
    destruct (DonorsPage.processDonations _); destruct isNewSearch; reflexivity.
Qed.

Lemma search_mode_ignores_cursor_witness :
  DonorsPage.handleSearch Samples.searchDb
    (DonorsPage.setLastVisible (DonorsPage.lastVisible (DonorsPage.mount Samples.searchDb))
       (DonorsPage.setSearchTerm "A" (DonorsPage.mount Samples.searchDb))) =
  DonorsPage.handleSearch Samples.searchDb
    (DonorsPage.setLastVisible None
       (DonorsPage.setSearchTerm "A" (DonorsPage.mount Samples.searchDb))).
Proof.
  assert (Hne : DonorsPage.searchTerm
                  (DonorsPage.setCurrentPage 1
                     (DonorsPage.setIsSearching true
                        (DonorsPage.setSearchTerm "A" (DonorsPage.mount Samples.searchDb)))) <> "")
    by (simpl; discriminate).
  exact (proj2 (proj2 (@search_mode_ignores_cursor DonorsPage.ITEMS_PER_PAGE true
                         Samples.searchDb _
                         (DonorsPage.lastVisible (DonorsPage.mount Samples.searchDb)) Hne))
           eq_refl).
Defined.

(** C5, as stated, fails: after the first Default-mode page of
    [searchDb] the cursor is the donation "d1"; searching for "A" with
    that cursor still in place raises no error and lists the ten
    matches. *)
Lemma stale_cursor_is_not_rejected :
  option_map Donation.id (DonorsPage.lastVisible (DonorsPage.mount Samples.searchDb)) = Some "d1" /\
  DonorsPage.error Samples.searchedA = None /\
  map Donation.id (DonorsPage.allDonations Samples.searchedA) =
  ["d0"; "d1"; "d2"; "d3"; "d4"; "d5"; "d6"; "d7"; "d8"; "d9"].
Proof. vm_compute. repeat split; reflexivity. Qed.

(** ** The shape of one fetch *)

Lemma donorsQuery_limit pageSize isNew st :
  Firestore.limitOf (DonorsPage.donorsQuery pageSize isNew st) = Some pageSize.
Proof.
  unfold DonorsPage.donorsQuery.
  destruct (negb _); [reflexivity|].
  destruct isNew, (DonorsPage.lastVisible st); reflexivity.
Qed.

Lemma fetchDonors_shape pageSize isNew db st :
  online db = true ->
  let docs := Firestore.runQuery (collection_donations db)
                (DonorsPage.donorsQuery pageSize isNew st) in
  let st' := DonorsPage.fetchDonorsWith pageSize isNew db st in
  DonorsPage.lastVisible st' = lastElement docs /\
  DonorsPage.hasMore st' = (List.length docs =? pageSize)%nat /\
  DonorsPage.allDonations st' =
    (if isNew then docs else DonorsPage.allDonations st ++ docs).
Proof.
  intros Ho docs st'. subst docs st'.
  unfold DonorsPage.fetchDonorsWith, getDocs. rewrite Ho.
  change (DonorsPage.donorsQuery pageSize isNew (DonorsPage.setLoading true st))
    with (DonorsPage.donorsQuery pageSize isNew st).
  simpl.
  destruct (DonorsPage.processDonations _); destruct isNew; simpl; auto.
Qed.

(** C6 (amended) - result shape of one fetch: when the store answers
    with the page [docs], the new cursor [lastVisible] is the last
    record of the page whenever the page is not empty (also when it is
    shorter than the page size) and is absent exactly when the page is
    empty; [hasMore] is true exactly when the page has [pageSize]
    records; the page has at most [pageSize] records; and on an empty
    collection the page is empty, the cursor absent and [hasMore]
    false. *)
Theorem fetch_result_shape :
  forall pageSize isNewSearch db st docs,
    getDocs db (collection_donations db)
      (DonorsPage.donorsQuery pageSize isNewSearch st) = Ok docs ->
    let st' := DonorsPage.fetchDonorsWith pageSize isNewSearch db st in
    DonorsPage.allDonations st' =
      (if isNewSearch then docs else DonorsPage.allDonations st ++ docs) /\
    (List.length docs <= pageSize)%nat /\
    DonorsPage.lastVisible st' = lastElement docs /\
    (DonorsPage.lastVisible st' = None <-> docs = []) /\
    (forall d, DonorsPage.lastVisible st' = Some d <-> exists l, docs = l ++ [d]) /\
    DonorsPage.hasMore st' = (List.length docs =? pageSize)%nat /\
    (donations db = [] -> (0 < pageSize)%nat ->
     docs = [] /\ DonorsPage.lastVisible st' = None /\ DonorsPage.hasMore st' = false).
Proof.
  intros pageSize isNewSearch db st docs Hget st'.
  unfold getDocs in Hget. destruct (online db) eqn:Ho; [|discriminate].
  injection Hget as Hdocs.
  pose proof (@fetchDonors_shape pageSize isNewSearch db st Ho) as Hshape.
  cbv zeta in Hshape. fold st' in Hshape. rewrite Hdocs in Hshape.
  destruct Hshape as (Hlast & Hmore & Hall).
  split; [exact Hall|]. split.
  { rewrite <- Hdocs. apply runQuery_length, donorsQuery_limit. }
  split; [exact Hlast|]. split; [rewrite Hlast; apply lastElement_None|].
  split; [intros d; rewrite Hlast; apply lastElement_Some|].
  split; [exact Hmore|].
  intros Hempty Hsize.
  assert (E : docs = []).
  { rewrite <- Hdocs. unfold collection_donations. rewrite Hempty.
    apply runQuery_nil. }
  rewrite Hlast, Hmore, E. simpl. repeat split.
  destruct pageSize; [lia|reflexivity].
Qed.

Lemma fetch_result_shape_witness :
  let st' := DonorsPage.mount Samples.oneDb in
  DonorsPage.allDonations st' = donations Samples.oneDb /\
  DonorsPage.lastVisible st' = lastElement (donations Samples.oneDb) /\
  DonorsPage.hasMore st' = false.
Proof.
  destruct (@fetch_result_shape DonorsPage.ITEMS_PER_PAGE true Samples.oneDb
              DonorsPage.initialState (donations Samples.oneDb) eq_refl)
    as (Hall & _ & Hlast & _ & _ & Hmore & _).
  repeat split; assumption.
Defined.

(** C6, as stated, fails: a page of one record (fewer than the ten of
    [ITEMS_PER_PAGE]) still sets the cursor to that record. *)
Lemma short_page_sets_cursor :
  let st' := DonorsPage.mount Samples.oneDb in
  ~ (DonorsPage.lastVisible st' <> None <->
     List.length (DonorsPage.allDonations st') = DonorsPage.ITEMS_PER_PAGE).
Proof.
  simpl. intros [H _].
  assert (Hlen : List.length (DonorsPage.allDonations (DonorsPage.mount Samples.oneDb)) =
                 DonorsPage.ITEMS_PER_PAGE).
  { apply H. vm_compute. discriminate. }
  vm_compute in Hlen. discriminate.
Qed.

(** ** The donation forms *)
Section FormFacts.
Import Browser.

Lemma radixDigit_nonneg radix c v : radixDigit radix c = Some v -> (0 <= v)%Z.
Proof.
  unfold radixDigit, isDigit, digitOf.
  destruct ((48 <=? nat_of_ascii c)%nat && (nat_of_ascii c <=? 57)%nat) eqn:Ed.
  - apply andb_true_iff in Ed. destruct Ed as [E1 _]. apply Nat.leb_le in E1.
    intros [= <-]. lia.
  - destruct ((radix =? 16)%Z && (97 <=? nat_of_ascii c)%nat && (nat_of_ascii c <=? 102)%nat)
      eqn:Eh.
    + rewrite !andb_true_iff in Eh. destruct Eh as [[_ E1] _]. apply Nat.leb_le in E1.
      intros [= <-]. lia.
    + destruct ((radix =? 16)%Z && (65 <=? nat_of_ascii c)%nat && (nat_of_ascii c <=? 70)%nat)
        eqn:EH; [|discriminate].
      rewrite !andb_true_iff in EH. destruct EH as [[_ E1] _]. apply Nat.leb_le in E1.
      intros [= <-]. lia.
Qed.

Lemma readDigits_nonneg radix s acc v :
  (0 <= radix)%Z ->
  (forall a, acc = Some a -> (0 <= a)%Z) ->
  readDigits radix s acc = Some v -> (0 <= v)%Z.
Proof.
  intros Hr. revert acc. induction s as [|c s IH]; intros acc Hacc; simpl.
  - intros E. now apply Hacc.
  - destruct (radixDigit radix c) as [d|] eqn:Ed.
    + apply IH. intros a [= <-]. apply radixDigit_nonneg in Ed.
      destruct acc as [a0|]; [|exact Ed].
      specialize (Hacc a0 eq_refl). nia.
    + intros E. now apply Hacc.
Qed.

(** [parseInt] gives a negative number only for a string that, after
    white space, begins with a minus sign. *)
Lemma parseDigits_nonneg s z : parseDigits 1 s = Int z -> (0 <= z)%Z.
Proof.
  unfold parseDigits.
  set (rs := match s with
             | String c0 (String c1 s') =>
                 if (c0 =? "0")%char && ((c1 =? "x")%char || (c1 =? "X")%char)
                 then (16%Z, s') else (10%Z, s)
             | _ => (10%Z, s)
             end).
  assert (Hr : (0 <= fst rs)%Z).
  { subst rs. destruct s as [|c0 [|c1 s']]; simpl; try lia.
    destruct ((c0 =? "0")%char && ((c1 =? "x")%char || (c1 =? "X")%char)); simpl; lia. }
  destruct rs as [radix t]. simpl in Hr.
  destruct (readDigits radix t None) as [v|] eqn:Ev; [|discriminate].
  intros [= <-].
  assert (0 <= v)%Z by (eapply readDigits_nonneg; [exact Hr| |exact Ev]; discriminate).
  destruct v; lia.
Qed.

Lemma parseInt_negative s z :
  parseInt s = Int z -> (z < 0)%Z -> exists s', trimStart s = String "-" s'.
Proof.
  unfold parseInt. destruct (trimStart s) as [|c t].
  - intros E Hz. apply parseDigits_nonneg in E. lia.
  - destruct (Ascii.eqb_spec c "-") as [->|Hm]; [eauto|].
    intros E Hz. exfalso.
    destruct (c =? "+")%char; apply parseDigits_nonneg in E; lia.
Qed.

Lemma spanDigits_stop c s acc count :
  isDigit c = false -> spanDigits (String c s) acc count = (acc, count, String c s).
Proof. intros E. simpl. now rewrite E. Qed.

(** A field the number input accepts begins with a digit or a dot. *)
Lemma validAmount_first s :
  validAmount s = true ->
  exists c s', s = String c s' /\ (isDigit c = true \/ c = "."%char).
Proof.
  unfold validAmount. destruct s as [|c s']; [discriminate|].
  intros Hv. exists c, s'. split; [reflexivity|].
  destruct (isDigit c) eqn:Ed; [now left|]. right.
  destruct (Ascii.eqb_spec c ".") as [->|Hdot]; [reflexivity|]. exfalso.
  unfold parseFloatingPoint in Hv.
  destruct (Ascii.eqb_spec c "-") as [->|Hm].
  - destruct (spanDigits s' 0 0) as [[ip nip] s2].
    destruct s2 as [|c2 s2'].
    + destruct (negb (nip =? 0)%nat); [|discriminate].
      simpl in Hv. unfold atLeastOne in Hv. simpl in Hv. discriminate.
    + destruct (c2 =? ".")%char.
      * destruct (spanDigits s2' ip 0) as [[v n] rest].
        destruct (negb (n =? 0)%nat); [|discriminate].
        destruct (parseExponent rest); [|discriminate].
        unfold atLeastOne in Hv. simpl in Hv. discriminate.
      * destruct (negb (nip =? 0)%nat); [|discriminate].
        destruct (parseExponent (String c2 s2')); [|discriminate].
        unfold atLeastOne in Hv. simpl in Hv. discriminate.
  - rewrite spanDigits_stop in Hv by exact Ed.
    apply Ascii.eqb_neq in Hdot. rewrite Hdot in Hv. simpl in Hv. discriminate.
Qed.

Lemma digit_or_dot_plain c :
  isDigit c = true \/ c = "."%char ->
  isWhiteSpace c = false /\ c <> "-"%char.
Proof.
  intros [Hd| ->]; [|split; [reflexivity|discriminate]].
  unfold isDigit in Hd. apply andb_true_iff in Hd. destruct Hd as [H1 H2].
  apply Nat.leb_le in H1. apply Nat.leb_le in H2. split.
  - unfold isWhiteSpace.
    destruct (Nat.eqb_spec (nat_of_ascii c) 32); [lia|].
    destruct (Nat.leb_spec (nat_of_ascii c) 13); [lia|].
    now rewrite andb_false_r.
  - intros ->. vm_compute in H1. lia.
Qed.

(** The amount that the number input lets through is never read by
    [parseInt] as a negative number. *)
Lemma validAmount_not_negative s z :
  validAmount s = true -> parseInt s = Int z -> (0 <= z)%Z.
Proof.
  intros Hv Hp.
  destruct (Z.lt_ge_cases z 0) as [Hneg|]; [|assumption]. exfalso.
  destruct (validAmount_first _ Hv) as (c & s' & -> & Hc).
  destruct (digit_or_dot_plain Hc) as [Hw Hm].
  destruct (parseInt_negative _ Hp Hneg) as [t Ht].
  simpl in Ht. rewrite Hw in Ht. congruence.
Qed.

(** A field whose numeric value is negative is refused. *)
Lemma validAmount_negative_value s d :
  parseFloatingPoint s = Some d -> negative d = true -> validAmount s = false.
Proof.
  intros Hp Hn. unfold validAmount. rewrite Hp.
  unfold atLeastOne. now rewrite Hn.
Qed.

End FormFacts.

(** [handleSubmit] has no check of its own: run on a negative amount it
    sends the write. *)
Lemma handleSubmit_does_not_validate :
  DonationForm.writes
    (DonationForm.handleSubmit None
       {| DonationForm.donor := "Asha"; DonationForm.amount := "-5";
          DonationForm.purpose := "Education"; DonationForm.notes := "" |} true) =
  [ DonationForm.addDoc "donations"
      {| DonationForm.data_donor := "Asha"; DonationForm.data_amount := Int (-5);
         DonationForm.data_purpose := "Education"; DonationForm.data_notes := None |}
      "serverTimestamp()" ].
Proof. reflexivity. Qed.

(** C8 - write validation is broken for an amount that starts with a
    dot.  Neither form checks the amount itself; what stands between
    the field and the store is the number input ([required], [min="1"])
    and [parseInt].  The amount field ".5e1" is a valid number input
    (its value is 5, a whole number not below 1), so the form is
    submitted; [parseInt] reads no digit before the dot, and the
    donation is written with the amount [NaN], which is not a number at
    least 0, without any validation error. *)
Theorem leading_dot_amount_is_stored_as_NaN :
  Browser.validAmount ".5e1" = true /\
  Browser.parseInt ".5e1" = NaN /\
  DonationForm.submit None
    {| DonationForm.donor := "Asha"; DonationForm.amount := ".5e1";
       DonationForm.purpose := "Education"; DonationForm.notes := "" |} true =
  {| DonationForm.validationError := false;
     DonationForm.writes :=
       [ DonationForm.addDoc "donations"
           {| DonationForm.data_donor := "Asha"; DonationForm.data_amount := NaN;
              DonationForm.data_purpose := "Education"; DonationForm.data_notes := None |}
           "serverTimestamp()" ];
     DonationForm.error := None;
     DonationForm.succeeded := true |}.
Proof.
  split; [|split].
  - vm_compute. reflexivity.
  - vm_compute. reflexivity.
  - vm_compute. reflexivity.
Qed.

(** ** The content sync *)
Section SyncFacts.
Import WordPressSync.

Variable autoId : list WordPressDoc.t -> string.
Hypothesis Hfresh : Fresh autoId.

(** The lookup of the sync returns the documents of the post, in id
    order. *)
Lemma wpQuery_docsFor coll p :
  Firestore.runQuery coll [ Firestore.where_ "wp_id" Firestore.OpEq (Num p) ] =
  sortBy (Firestore.docCompare []) (docsFor p coll).
Proof.
  unfold Firestore.runQuery, docsFor. simpl. f_equal.
  apply filter_ext. intros d. simpl.
  destruct (Z.compare_spec (WordPressDoc.wp_id d) p) as [E|E|E]; simpl.
  - symmetry. now apply Z.eqb_eq.
  - symmetry. apply Z.eqb_neq. lia.
  - symmetry. apply Z.eqb_neq. lia.
Qed.

Lemma wpQuery_nil coll p :
  Firestore.runQuery coll [ Firestore.where_ "wp_id" Firestore.OpEq (Num p) ] = [] <->
  docsFor p coll = [].
Proof.
  rewrite wpQuery_docsFor. split; intros E.
  - apply length_zero_iff_nil. rewrite <- (sortBy_length (Firestore.docCompare [])), E.
    reflexivity.
  - now rewrite E.
Qed.

Lemma wpQuery_head coll p d rest :
  Firestore.runQuery coll [ Firestore.where_ "wp_id" Firestore.OpEq (Num p) ] = d :: rest ->
  In d coll /\ WordPressDoc.wp_id d = p.
Proof.
  rewrite wpQuery_docsFor. intros E.
  assert (Hin : In d (docsFor p coll)).
  { apply (sortBy_In (Firestore.docCompare [])). rewrite E. now left. }
  apply filter_In in Hin. destruct Hin as [Hin Hp]. split; auto.
  now apply Z.eqb_eq.
Qed.

Lemma docsFor_snoc q coll d :
  docsFor q (coll ++ [d]) =
  docsFor q coll ++ (if (WordPressDoc.wp_id d =? q)%Z then [d] else []).
Proof. unfold docsFor. rewrite filter_app. reflexivity. Qed.

(** Rewriting documents without touching their ids or post ids keeps
    the ids of the collection and of every post's documents. *)
Lemma docsFor_map_same (f : WordPressDoc.t -> WordPressDoc.t) coll :
  (forall d, In d coll ->
     WordPressDoc.wp_id (f d) = WordPressDoc.wp_id d /\
     WordPressDoc.id (f d) = WordPressDoc.id d) ->
  map WordPressDoc.id (map f coll) = map WordPressDoc.id coll /\
  forall q, map WordPressDoc.id (docsFor q (map f coll)) =
            map WordPressDoc.id (docsFor q coll).
Proof.
  induction coll as [|d coll IH]; intros Hf; simpl.
  - split; reflexivity.
  - destruct (Hf d (or_introl eq_refl)) as [Hw Hi].
    destruct IH as [IH1 IH2]; [intros e He; apply Hf; now right|].
    split; [now rewrite Hi, IH1|].
    intros q. rewrite Hw.
    destruct (WordPressDoc.wp_id d =? q)%Z; simpl; now rewrite ?Hi, IH2.
Qed.

Lemma NoDup_ids_unique coll (d e : WordPressDoc.t) :
  NoDup (map WordPressDoc.id coll) -> In d coll -> In e coll ->
  WordPressDoc.id d = WordPressDoc.id e -> d = e.
Proof.
  induction coll as [|x coll IH]; simpl; [tauto|].
  intros Hnd Hd He Hid. inversion Hnd as [|? ? Hni Hnd']; subst.
  destruct Hd as [->|Hd], He as [->|He]; auto.
  - exfalso. apply Hni. rewrite Hid. now apply in_map.
  - exfalso. apply Hni. rewrite <- Hid. now apply in_map.
Qed.

(** One post: the store is left healthy; a post without a document gets
    one new document, a post with documents has its first one rewritten
    in place. *)
Lemma syncPost_spec now post i db :
  Healthy db ->
  exists db',
    syncPost autoId now post i db = Ok db' /\
    Healthy db' /\
    (docsFor (id post) (wordpress_posts db) = [] ->
     wordpress_posts db' =
     wordpress_posts db ++ [postData now post i (autoId (wordpress_posts db))]) /\
    (docsFor (id post) (wordpress_posts db) <> [] ->
     map WordPressDoc.id (wordpress_posts db') = map WordPressDoc.id (wordpress_posts db) /\
     forall q, map WordPressDoc.id (docsFor q (wordpress_posts db')) =
               map WordPressDoc.id (docsFor q (wordpress_posts db))).
Proof.
  intros [Ho Hnd]. unfold syncPost, getDocs, collection_wordpress_posts.
  rewrite Ho. simpl.
  destruct (Firestore.runQuery (wordpress_posts db) _) as [|d0 rest] eqn:Eq.
  - apply wpQuery_nil in Eq. unfold addDoc. rewrite Ho.
    eexists. split; [reflexivity|]. split; [|split].
    + split; [exact Ho|]. simpl. rewrite map_app. simpl.
      apply NoDup_app; auto.
      * repeat constructor. simpl. tauto.
      * intros x Hx [<-|[]]. now apply (Hfresh (wordpress_posts db)).
    + intros _. reflexivity.
    + intros Hne. contradiction.
  - destruct (wpQuery_head _ _ Eq) as [Hin Hwp]. unfold updateDoc. rewrite Ho.
    assert (Hex : existsb (fun d => (WordPressDoc.id d =? WordPressDoc.id d0)%string)
                    (wordpress_posts db) = true).
    { apply existsb_exists. exists d0. split; auto. apply String.eqb_refl. }
    rewrite Hex.
    set (f := fun d : WordPressDoc.t =>
                if (WordPressDoc.id d =? WordPressDoc.id d0)%string
                then postData now post i (WordPressDoc.id d0) else d).
    assert (Hf : forall d, In d (wordpress_posts db) ->
                   WordPressDoc.wp_id (f d) = WordPressDoc.wp_id d /\
                   WordPressDoc.id (f d) = WordPressDoc.id d).
    { intros d Hd. unfold f.
      destruct (String.eqb_spec (WordPressDoc.id d) (WordPressDoc.id d0)) as [E|E];
        [|split; reflexivity].
      assert (d = d0) by (eapply NoDup_ids_unique; eauto). subst d.
      simpl. split; [now rewrite Hwp|reflexivity]. }
    destruct (docsFor_map_same f _ Hf) as [Hids Hdocs].
    eexists. split; [reflexivity|]. split; [|split].
    + split; [exact Ho|]. simpl. fold f. now rewrite Hids.
    + intros Hnil. apply wpQuery_nil in Hnil. rewrite Hnil in Eq. discriminate.
    + intros _. simpl. fold f. split; [exact Hids|exact Hdocs].
Qed.

Lemma map_nil_iff {B C} (g : B -> C) (l : list B) : map g l = [] <-> l = [].
Proof. destruct l; simpl; split; congruence. Qed.

(** The whole loop. *)
Lemma syncPosts_spec now posts : forall i db,
  Healthy db ->
  exists db',
    syncPosts autoId now posts i db = (db', Ok tt) /\
    Healthy db' /\
    (forall q,
       (docsFor q (wordpress_posts db) <> [] ->
        map WordPressDoc.id (docsFor q (wordpress_posts db')) =
        map WordPressDoc.id (docsFor q (wordpress_posts db))) /\
       (docsFor q (wordpress_posts db) = [] -> In q (map id posts) ->
        List.length (docsFor q (wordpress_posts db')) = 1%nat)) /\
    ((forall post, In post posts -> docsFor (id post) (wordpress_posts db) <> []) ->
     map WordPressDoc.id (wordpress_posts db') = map WordPressDoc.id (wordpress_posts db)).
Proof.
  induction posts as [|post rest IH]; intros i db Hh; simpl.
  - exists db. split; [reflexivity|]. split; [exact Hh|]. split; [|reflexivity].
    intros q. split; [reflexivity|intros _ []].
  - destruct (syncPost_spec now post i Hh) as (db1 & Hstep & Hh1 & Hadd & Hupd).
    rewrite Hstep.
    destruct (IH (S i) db1 Hh1) as (db' & Hrun & Hh' & Hq & Hall).
    exists db'. split; [exact Hrun|]. split; [exact Hh'|].
    assert (Hkeep : forall q,
               docsFor q (wordpress_posts db) <> [] ->
               map WordPressDoc.id (docsFor q (wordpress_posts db1)) =
               map WordPressDoc.id (docsFor q (wordpress_posts db))).
    { intros q Hne.
      destruct (docsFor (id post) (wordpress_posts db)) as [|x xs] eqn:Ep.
      - rewrite (Hadd eq_refl), docsFor_snoc. simpl.
        destruct (Z.eqb_spec (id post) q) as [E|E].
        + subst q. congruence.
        + now rewrite app_nil_r.
      - apply Hupd. discriminate. }
    assert (Hnew : docsFor (id post) (wordpress_posts db) = [] ->
                   docsFor (id post) (wordpress_posts db1) =
                   [postData now post i (autoId (wordpress_posts db))]).
    { intros Hnil. rewrite (Hadd Hnil), docsFor_snoc, Hnil. simpl.
      now rewrite Z.eqb_refl. }
    assert (Hother : forall q, id post <> q ->
                       docsFor q (wordpress_posts db) = [] ->
                       docsFor q (wordpress_posts db1) = []).
    { intros q Hne Hnil.
      destruct (docsFor (id post) (wordpress_posts db)) as [|x xs] eqn:Ep.
      - rewrite (Hadd eq_refl), docsFor_snoc, Hnil. simpl.
        destruct (Z.eqb_spec (id post) q); [contradiction|reflexivity].
      - destruct Hupd as [_ Hupd]; [discriminate|].
        specialize (Hupd q). rewrite Hnil in Hupd. simpl in Hupd.
        now apply map_nil_iff in Hupd. }
    split.
    + intros q. split.
      * intros Hne. pose proof (Hkeep q Hne) as E1.
        rewrite <- E1. apply Hq.
        intros E. rewrite E in E1. simpl in E1. symmetry in E1.
        apply map_nil_iff in E1. contradiction.
      * intros Hnil Hin.
        destruct (Z.eq_dec (id post) q) as [E|E].
        -- subst q. specialize (Hnew Hnil).
           destruct (Hq (id post)) as [Hq1 _].
           rewrite <- (length_map WordPressDoc.id), Hq1, Hnew; [reflexivity|].
           rewrite Hnew. discriminate.
        -- destruct Hin as [Hin|Hin]; [contradiction|].
           apply (Hq q); auto.
    + intros Hpresent.
      rewrite Hall.
      * apply Hupd. apply Hpresent. now left.
      * intros post' Hin' Hnil.
        apply (Hpresent post' (or_intror Hin')).
        pose proof (Hkeep (id post')) as Hk.
        destruct (docsFor (id post') (wordpress_posts db)) as [|x xs] eqn:Ep; auto.
        specialize (Hk ltac:(discriminate)). rewrite Hnil in Hk. simpl in Hk.
        discriminate.
Qed.

Lemma syncWordPressData_spec now fetch wpUrl posts db :
  fetch (wpUrl ++ "/posts?_embed&per_page=100")%string = Ok posts ->
  Healthy db ->
  exists db',
    syncWordPressData autoId now fetch wpUrl db = (db', Synced (List.length posts)) /\
    syncPosts autoId now posts 0 db = (db', Ok tt).
Proof.
  intros Hf Hh. unfold syncWordPressData. rewrite Hf.
  destruct (syncPosts_spec now posts 0 Hh) as (db' & Hrun & _).
  rewrite Hrun. eauto.
Qed.

(** The fetch failing leaves the store as it was. *)
Lemma syncWordPressData_fetch_fails now fetch wpUrl e db :
  fetch (wpUrl ++ "/posts?_embed&per_page=100")%string = Raise e ->
  syncWordPressData autoId now fetch wpUrl db = (db, Failed "Failed to sync WordPress data").
Proof. intros Hf. unfold syncWordPressData. now rewrite Hf. Qed.

End SyncFacts.

(** *** What the documents of a post hold after a run *)
Section SyncContent.
Import WordPressSync.

Variable autoId : list WordPressDoc.t -> string.
Hypothesis Hfresh : Fresh autoId.
Variable now : nat -> string.

Lemma docsFor_map (f : WordPressDoc.t -> WordPressDoc.t) q coll :
  (forall d, In d coll -> WordPressDoc.wp_id (f d) = WordPressDoc.wp_id d) ->
  docsFor q (map f coll) = map f (docsFor q coll).
Proof.
  unfold docsFor. induction coll as [|d coll IH]; intros Hf; simpl; [reflexivity|].
  rewrite (Hf d (or_introl eq_refl)).
  rewrite IH by (intros e He; apply Hf; now right).
  destruct (WordPressDoc.wp_id d =? q)%Z; reflexivity.
Qed.

Lemma sortBy_singleton {A} (c : A -> A -> comparison) (x : A) : sortBy c [x] = [x].
Proof. reflexivity. Qed.

(** One post: the documents of the other posts are the same documents
    afterwards; a post without a document gets one with the post's data;
    the single document of a post is replaced, under its id, by the
    post's data. *)
Lemma syncPost_content post i db :
  Healthy db ->
  exists db',
    syncPost autoId now post i db = Ok db' /\
    Healthy db' /\
    (forall q, q <> id post ->
       docsFor q (wordpress_posts db') = docsFor q (wordpress_posts db)) /\
    (docsFor (id post) (wordpress_posts db) = [] ->
     docsFor (id post) (wordpress_posts db') =
     [postData now post i (autoId (wordpress_posts db))]) /\
    (forall d, docsFor (id post) (wordpress_posts db) = [d] ->
       docsFor (id post) (wordpress_posts db') =
       [postData now post i (WordPressDoc.id d)]).
Proof.
  intros Hh.
  destruct (@syncPost_spec autoId Hfresh now post i db Hh)
    as (db' & Hrun & Hh' & Hadd & _).
  exists db'. split; [exact Hrun|]. split; [exact Hh'|].
  destruct Hh as [Ho Hnd].
  destruct (docsFor (id post) (wordpress_posts db)) as [|d0 rest] eqn:Edocs.
  - rewrite (Hadd eq_refl). split; [|split].
    + intros q Hq. rewrite docsFor_snoc. simpl.
      destruct (Z.eqb_spec (id post) q) as [E|E]; [congruence|apply app_nil_r].
    + intros _. rewrite docsFor_snoc, Edocs. simpl. now rewrite Z.eqb_refl.
    + intros d Hd. discriminate.
  - unfold syncPost, getDocs, collection_wordpress_posts in Hrun.
    rewrite Ho in Hrun. simpl in Hrun.
    pose proof (@wpQuery_docsFor (wordpress_posts db) (id post)) as Hquery.
    destruct (Firestore.runQuery (wordpress_posts db) _) as [|e0 others] eqn:Eq.
    { apply (@wpQuery_nil (wordpress_posts db) (id post)) in Eq. congruence. }
    destruct (@wpQuery_head (wordpress_posts db) (id post) e0 others Eq) as [Hin0 Hwp0].
    unfold updateDoc in Hrun. rewrite Ho in Hrun.
    destruct (existsb _ (wordpress_posts db)); [|discriminate].
    injection Hrun as <-. simpl.
    set (f := fun d : WordPressDoc.t =>
                if (WordPressDoc.id d =? WordPressDoc.id e0)%string
                then postData now post i (WordPressDoc.id e0) else d).
    assert (Hsame : forall d, In d (wordpress_posts db) ->
                      WordPressDoc.id d = WordPressDoc.id e0 -> d = e0).
    { intros d Hd E. eapply NoDup_ids_unique; eauto. }
    assert (Hf : forall d, In d (wordpress_posts db) ->
                   WordPressDoc.wp_id (f d) = WordPressDoc.wp_id d).
    { intros d Hd. unfold f.
      destruct (String.eqb_spec (WordPressDoc.id d) (WordPressDoc.id e0)) as [E|E];
        [|reflexivity].
      rewrite (Hsame d Hd E). simpl. now rewrite Hwp0. }
    split; [|split].
    + intros q Hq. rewrite (docsFor_map f q _ Hf).
      rewrite <- (map_id (docsFor q (wordpress_posts db))) at 2.
      apply map_ext_in. intros d Hd. unfold f.
      destruct (String.eqb_spec (WordPressDoc.id d) (WordPressDoc.id e0)) as [E|E];
        [|reflexivity].
      apply filter_In in Hd. destruct Hd as [Hd Hw]. apply Z.eqb_eq in Hw.
      rewrite (Hsame d Hd E) in Hw. congruence.
    + intros Hnil. discriminate.
    + intros d Hd. injection Hd as -> ->.
      rewrite (docsFor_map f (id post) _ Hf), Edocs.
      rewrite Edocs, sortBy_singleton in Hquery. injection Hquery as -> _.
      simpl. unfold f. now rewrite String.eqb_refl.
Qed.

(** The loop, for a post that has one document: the document keeps its
    id and ends up holding the data of the last post of the feed with
    that post id, or is untouched when the feed has none. *)
Lemma syncPosts_content p posts : forall i db d,
  Healthy db ->
  docsFor p (wordpress_posts db) = [d] ->
  exists db' d',
    syncPosts autoId now posts i db = (db', Ok tt) /\
    Healthy db' /\
    docsFor p (wordpress_posts db') = [d'] /\
    WordPressDoc.id d' = WordPressDoc.id d /\
    ((~ In p (map id posts) /\ d' = d) \/
     (exists k post,
        nth_error posts k = Some post /\ id post = p /\
        (forall k' q, (k < k')%nat -> nth_error posts k' = Some q -> id q <> p) /\
        d' = postData now post (i + k) (WordPressDoc.id d))).
Proof.
  induction posts as [|post rest IH]; intros i db d Hh Hd; simpl.
  - exists db, d. split; [reflexivity|]. split; [exact Hh|]. split; [exact Hd|].
    split; [reflexivity|]. left. split; [tauto|reflexivity].
  - destruct (syncPost_content post i Hh) as (db1 & Hstep & Hh1 & Hother & _ & Hone).
    rewrite Hstep.
    destruct (Z.eq_dec (id post) p) as [Ep|Ep].
    + (* this post rewrites the document *)
      subst p. specialize (Hone d Hd).
      destruct (IH (S i) db1 _ Hh1 Hone) as (db' & d' & Hrun & Hh' & Hd' & Hid & Hwhat).
      exists db', d'. split; [exact Hrun|]. split; [exact Hh'|]. split; [exact Hd'|].
      split; [exact Hid|]. right.
      destruct Hwhat as [[Hnot ->]|(k & q & Hk & Hq & Hlast & ->)].
      * exists 0%nat, post. rewrite Nat.add_0_r.
        split; [reflexivity|]. split; [reflexivity|]. split; [|reflexivity].
        intros k' q Hlt Hq. destruct k' as [|k']; [lia|]. simpl in Hq.
        intros E. apply Hnot. rewrite <- E. apply in_map.
        eapply nth_error_In. exact Hq.
      * exists (S k), q. split; [exact Hk|]. split; [exact Hq|]. split.
        -- intros k' q' Hlt Hq'. destruct k' as [|k']; [lia|]. simpl in Hq'.
           apply (Hlast k' q'); [lia|exact Hq'].
        -- simpl. f_equal. lia.
    + (* this post leaves the document alone *)
      assert (Hd1 : docsFor p (wordpress_posts db1) = [d]).
      { rewrite Hother by congruence. exact Hd. }
      destruct (IH (S i) db1 d Hh1 Hd1) as (db' & d' & Hrun & Hh' & Hd' & Hid & Hwhat).
      exists db', d'. split; [exact Hrun|]. split; [exact Hh'|]. split; [exact Hd'|].
      split; [exact Hid|].
      destruct Hwhat as [[Hnot ->]|(k & q & Hk & Hq & Hlast & ->)].
      * left. split; [|reflexivity]. intros [E|Hin]; [congruence|contradiction].
      * right. exists (S k), q. split; [exact Hk|]. split; [exact Hq|]. split.
        -- intros k' q' Hlt Hq'. destruct k' as [|k']; [lia|]. simpl in Hq'.
           apply (Hlast k' q'); [lia|exact Hq'].
        -- f_equal. lia.
Qed.

(** The loop, for a post of the feed that has at most one document. *)
Lemma syncPosts_last p posts : forall i db,
  Healthy db ->
  (List.length (docsFor p (wordpress_posts db)) <= 1)%nat ->
  In p (map id posts) ->
  exists db' k post docId,
    syncPosts autoId now posts i db = (db', Ok tt) /\
    Healthy db' /\
    nth_error posts k = Some post /\ id post = p /\
    (forall k' q, (k < k')%nat -> nth_error posts k' = Some q -> id q <> p) /\
    docsFor p (wordpress_posts db') = [postData now post (i + k) docId] /\
    (forall d, docsFor p (wordpress_posts db) = [d] -> docId = WordPressDoc.id d).
Proof.
  induction posts as [|post rest IH]; intros i db Hh Hle Hin; simpl in Hin; [tauto|].
  simpl.
  destruct (syncPost_content post i Hh) as (db1 & Hstep & Hh1 & Hother & Hnone & Hone).
  rewrite Hstep.
  destruct (Z.eq_dec (id post) p) as [Ep|Ep].
  - subst p.
    assert (Hfirst : exists docId,
               docsFor (id post) (wordpress_posts db1) = [postData now post i docId] /\
               (forall d, docsFor (id post) (wordpress_posts db) = [d] ->
                          docId = WordPressDoc.id d)).
    { destruct (docsFor (id post) (wordpress_posts db)) as [|d [|? ?]] eqn:E.
      - eexists. split; [apply Hnone; reflexivity|]. intros d Hd. discriminate.
      - exists (WordPressDoc.id d). split; [apply Hone; reflexivity|].
        intros d' Hd'. now injection Hd' as <-.
      - simpl in Hle. lia. }
    destruct Hfirst as (docId & Hd1 & Hdoc).
    destruct (@syncPosts_content (id post) rest (S i) db1 _ Hh1 Hd1)
      as (db' & d' & Hrun & Hh' & Hd' & _ & Hwhat).
    destruct Hwhat as [[Hnot ->]|(k & q & Hk & Hq & Hlast & ->)].
    + exists db', 0%nat, post, docId. rewrite Nat.add_0_r.
      split; [exact Hrun|]. split; [exact Hh'|].
      split; [reflexivity|]. split; [reflexivity|]. split; [|split].
      * intros k' q Hlt Hq. destruct k' as [|k']; [lia|]. simpl in Hq.
        intros E. apply Hnot. rewrite <- E. apply in_map.
        eapply nth_error_In. exact Hq.
      * exact Hd'.
      * exact Hdoc.
    + exists db', (S k), q, docId. split; [exact Hrun|]. split; [exact Hh'|].
      split; [exact Hk|]. split; [exact Hq|]. split; [|split].
      * intros k' q' Hlt Hq'. destruct k' as [|k']; [lia|]. simpl in Hq'.
        apply (Hlast k' q'); [lia|exact Hq'].
      * rewrite Hd'. simpl. do 2 f_equal. lia.
      * exact Hdoc.
  - destruct Hin as [E|Hin]; [congruence|].
    assert (Hsame : docsFor p (wordpress_posts db1) = docsFor p (wordpress_posts db))
      by (apply Hother; congruence).
    destruct (IH (S i) db1 Hh1 ltac:(rewrite Hsame; exact Hle) Hin)
      as (db' & k & q & docId & Hrun & Hh' & Hk & Hq & Hlast & Hd' & Hdoc).
    exists db', (S k), q, docId. split; [exact Hrun|]. split; [exact Hh'|].
    split; [exact Hk|]. split; [exact Hq|]. split; [|split].
    + intros k' q' Hlt Hq'. destruct k' as [|k']; [lia|]. simpl in Hq'.
      apply (Hlast k' q'); [lia|exact Hq'].
    + rewrite Hd'. do 2 f_equal. lia.
    + intros d Hd. apply Hdoc. rewrite Hsame. exact Hd.
Qed.

End SyncContent.

Lemma string_length_append (s t : string) :
  String.length (s ++ t) = (String.length s + String.length t)%nat.
Proof. induction s as [|c s IH]; simpl; auto. Qed.

Lemma longerId_pos coll : (0 < String.length (Samples.longerId coll))%nat.
Proof.
  induction coll as [|d coll IH]; simpl; [lia|].
  rewrite string_length_append. lia.
Qed.

Lemma longerId_longer coll s :
  In s (map WordPressDoc.id coll) ->
  (String.length s < String.length (Samples.longerId coll))%nat.
Proof.
  induction coll as [|d coll IH]; simpl; [tauto|].
  rewrite string_length_append. intros [<-|Hin].
  - pose proof (longerId_pos coll). lia.
  - specialize (IH Hin). lia.
Qed.

Lemma longerId_fresh : WordPressSync.Fresh Samples.longerId.
Proof.
  intros coll Hin. apply longerId_longer in Hin. lia.
Qed.

(** C9 - content-sync idempotence: on a store that answers, whose
    document ids are distinct and that holds at most one document for a
    post id, two runs of the sync whose feeds both contain that post id
    leave exactly one document for it.  After the first run that
    document holds the data of the first feed's post; the second run
    adds no document for the post but rewrites that same document (same
    document id) with the data of the second feed's post and the time
    of the second run (when a feed lists the post id several times, its
    last post with that id).  When the second feed brings no post id
    that the first did not, the second run adds no document at all. *)
Theorem sync_twice_keeps_one_document :
  forall autoId now1 now2 fetch1 fetch2 (wpUrl : string) posts1 posts2 db p,
    WordPressSync.Fresh autoId ->
    WordPressSync.Healthy db ->
    fetch1 (wpUrl ++ "/posts?_embed&per_page=100")%string = Ok posts1 ->
    fetch2 (wpUrl ++ "/posts?_embed&per_page=100")%string = Ok posts2 ->
    In p (map WordPressSync.id posts1) ->
    In p (map WordPressSync.id posts2) ->
    (List.length (WordPressSync.docsFor p (wordpress_posts db)) <= 1)%nat ->
    let db1 := fst (WordPressSync.syncWordPressData autoId now1 fetch1 wpUrl db) in
    let db2 := fst (WordPressSync.syncWordPressData autoId now2 fetch2 wpUrl db1) in
    exists d1 d2,
      WordPressSync.docsFor p (wordpress_posts db1) = [d1] /\
      WordPressSync.docsFor p (wordpress_posts db2) = [d2] /\
      WordPressDoc.id d2 = WordPressDoc.id d1 /\
      (exists k post,
         nth_error posts1 k = Some post /\ WordPressSync.id post = p /\
         (forall k' q, (k < k')%nat -> nth_error posts1 k' = Some q ->
                       WordPressSync.id q <> p) /\
         d1 = WordPressSync.postData now1 post k (WordPressDoc.id d1)) /\
      (exists k post,
         nth_error posts2 k = Some post /\ WordPressSync.id post = p /\
         (forall k' q, (k < k')%nat -> nth_error posts2 k' = Some q ->
                       WordPressSync.id q <> p) /\
         d2 = WordPressSync.postData now2 post k (WordPressDoc.id d1)) /\
      ((forall post, In post posts2 ->
          In (WordPressSync.id post) (map WordPressSync.id posts1)) ->
       map WordPressDoc.id (wordpress_posts db2) =
       map WordPressDoc.id (wordpress_posts db1)).
Proof.
  intros autoId now1 now2 fetch1 fetch2 wpUrl posts1 posts2 db p
         Hfresh Hh Hf1 Hf2 Hp1 Hp2 Hle db1 db2.
  (* the first run *)
  destruct (@syncPosts_last autoId Hfresh now1 p posts1 0%nat db Hh Hle Hp1)
    as (dbA & k1 & post1 & docId1 & HloopA & HhA & Hk1 & Hid1 & Hlast1 & HdocsA & _).
  destruct (@syncPosts_spec autoId Hfresh now1 posts1 0%nat db Hh)
    as (dbA' & HloopA' & _ & HqA & _).
  rewrite HloopA in HloopA'. injection HloopA' as <-.
  assert (Edb1 : db1 = dbA).
  { subst db1. unfold WordPressSync.syncWordPressData. now rewrite Hf1, HloopA. }
  (* the second run, on the store the first run left *)
  assert (HleA : (List.length (WordPressSync.docsFor p (wordpress_posts dbA)) <= 1)%nat)
    by (rewrite HdocsA; simpl; lia).
  destruct (@syncPosts_last autoId Hfresh now2 p posts2 0%nat dbA HhA HleA Hp2)
    as (dbB & k2 & post2 & docId2 & HloopB & HhB & Hk2 & Hid2 & Hlast2 & HdocsB & Hsame).
  destruct (@syncPosts_spec autoId Hfresh now2 posts2 0%nat dbA HhA)
    as (dbB' & HloopB' & _ & _ & HallB).
  rewrite HloopB in HloopB'. injection HloopB' as <-.
  assert (Edb2 : db2 = dbB).
  { subst db2. rewrite Edb1. unfold WordPressSync.syncWordPressData.
    now rewrite Hf2, HloopB. }
  rewrite Edb1, Edb2. clear Edb1 Edb2 db1 db2.
  specialize (Hsame _ HdocsA). simpl in Hsame. subst docId2.
  exists (WordPressSync.postData now1 post1 k1 docId1),
         (WordPressSync.postData now2 post2 k2 docId1).
  split; [exact HdocsA|]. split; [exact HdocsB|]. split; [reflexivity|].
  split; [|split].
  - exists k1, post1. repeat split; auto.
  - exists k2, post2. repeat split; auto.
  - (* after the first run every post of the first feed has a document *)
    intros Hsub. apply HallB. intros post Hin E.
    specialize (Hsub post Hin). destruct (HqA (WordPressSync.id post)) as [Hkeep Hnew].
    destruct (WordPressSync.docsFor (WordPressSync.id post) (wordpress_posts db))
      as [|x xs] eqn:E0.
    + specialize (Hnew eq_refl Hsub). rewrite E in Hnew. discriminate.
    + specialize (Hkeep ltac:(discriminate)). rewrite E in Hkeep. discriminate.
Qed.

Lemma sync_twice_keeps_one_document_witness :
  let db1 := fst (WordPressSync.syncWordPressData Samples.longerId (Samples.clock "1")
                    Samples.feed1 "https://example.org/wp-json/wp/v2" Samples.emptyDb) in
  let db2 := fst (WordPressSync.syncWordPressData Samples.longerId (Samples.clock "2")
                    Samples.feed2 "https://example.org/wp-json/wp/v2" db1) in
  (exists d1 d2,
     WordPressSync.docsFor 7 (wordpress_posts db1) = [d1] /\
     WordPressSync.docsFor 7 (wordpress_posts db2) = [d2] /\
     WordPressDoc.id d2 = WordPressDoc.id d1 /\
     (exists k post,
        nth_error [Samples.post 7 "Hello"; Samples.post 9 "News"] k = Some post /\
        WordPressSync.id post = 7%Z /\
        (forall k' q, (k < k')%nat ->
           nth_error [Samples.post 7 "Hello"; Samples.post 9 "News"] k' = Some q ->
           WordPressSync.id q <> 7%Z) /\
        d1 = WordPressSync.postData (Samples.clock "1") post k (WordPressDoc.id d1)) /\
     (exists k post,
        nth_error [Samples.post 7 "Hello again"; Samples.post 9 "News"] k = Some post /\
        WordPressSync.id post = 7%Z /\
        (forall k' q, (k < k')%nat ->
           nth_error [Samples.post 7 "Hello again"; Samples.post 9 "News"] k' = Some q ->
           WordPressSync.id q <> 7%Z) /\
        d2 = WordPressSync.postData (Samples.clock "2") post k (WordPressDoc.id d1)) /\
     ((forall post, In post [Samples.post 7 "Hello again"; Samples.post 9 "News"] ->
         In (WordPressSync.id post)
            (map WordPressSync.id [Samples.post 7 "Hello"; Samples.post 9 "News"])) ->
      map WordPressDoc.id (wordpress_posts db2) =
      map WordPressDoc.id (wordpress_posts db1))) /\
  map WordPressDoc.title (WordPressSync.docsFor 7 (wordpress_posts db1)) = ["Hello"] /\
  map WordPressDoc.title (WordPressSync.docsFor 7 (wordpress_posts db2)) = ["Hello again"] /\
  map WordPressDoc.synced_at (WordPressSync.docsFor 7 (wordpress_posts db2)) =
    [Samples.clock "2" 0%nat].
Proof.
  split; [|repeat split].
  apply (@sync_twice_keeps_one_document Samples.longerId (Samples.clock "1")
           (Samples.clock "2") Samples.feed1 Samples.feed2
           "https://example.org/wp-json/wp/v2"
           [Samples.post 7 "Hello"; Samples.post 9 "News"]
           [Samples.post 7 "Hello again"; Samples.post 9 "News"]
           Samples.emptyDb 7%Z).
  - exact longerId_fresh.
  - split; [reflexivity|constructor].
  - reflexivity.
  - reflexivity.
  - simpl. auto.
  - simpl. auto.
  - simpl. lia.
Defined.

(** * Part III - further properties of the code *)

(** ** The content sync: what it writes and what it leaves alone *)
Section SyncWrites.
Import WordPressSync.

Variable autoId : list WordPressDoc.t -> string.
Hypothesis Hfresh : Fresh autoId.
Variable now : nat -> string.

(** One post: the documents of other posts stay as they are, and the
    document written for the post carries its fields. *)
Lemma syncPost_writes post i db :
  Healthy db ->
  exists db',
    syncPost autoId now post i db = Ok db' /\
    Healthy db' /\
    (forall d, In d (wordpress_posts db) -> WordPressDoc.wp_id d <> id post ->
               In d (wordpress_posts db')) /\
    (exists docId, In (postData now post i docId) (wordpress_posts db')) /\
    (exists added,
       map WordPressDoc.id (wordpress_posts db') =
       map WordPressDoc.id (wordpress_posts db) ++ added).
Proof.
  intros Hh.
  destruct (@syncPost_spec autoId Hfresh now post i db Hh)
    as (db' & Hrun & Hh' & Hadd & Hupd).
  exists db'. split; [exact Hrun|]. split; [exact Hh'|].
  destruct Hh as [Ho Hnd].
  destruct (docsFor (id post) (wordpress_posts db)) as [|d0 rest] eqn:Edocs.
  - (* no document yet: one is added at the end *)
    rewrite (Hadd eq_refl). split; [|split].
    + intros d Hin _. apply in_or_app. now left.
    + exists (autoId (wordpress_posts db)). apply in_or_app. right. now left.
    + exists [autoId (wordpress_posts db)]. now rewrite map_app.
  - (* the first document of the post is rewritten *)
    unfold syncPost, getDocs, collection_wordpress_posts in Hrun.
    rewrite Ho in Hrun. simpl in Hrun.
    destruct (Firestore.runQuery (wordpress_posts db) _) as [|e0 others] eqn:Eq.
    { apply (@wpQuery_nil (wordpress_posts db) (id post)) in Eq. congruence. }
    destruct (@wpQuery_head (wordpress_posts db) (id post) e0 others Eq) as [Hin0 Hwp0].
    unfold updateDoc in Hrun. rewrite Ho in Hrun.
    destruct (existsb _ (wordpress_posts db)); [|discriminate].
    injection Hrun as <-. simpl. split; [|split].
    + intros d Hin Hne. apply in_map_iff. exists d. split; [|exact Hin].
      destruct (String.eqb_spec (WordPressDoc.id d) (WordPressDoc.id e0)) as [E|E];
        [|reflexivity].
      assert (d = e0) by (eapply NoDup_ids_unique; eauto). subst d. contradiction.
    + exists (WordPressDoc.id e0). apply in_map_iff. exists e0.
      split; [|exact Hin0]. now rewrite String.eqb_refl.
    + exists []. rewrite app_nil_r.
      destruct Hupd as [Hids _]; [discriminate|].
      unfold syncPost, getDocs in Hids. exact Hids.
Qed.

(** The whole loop; what is written is told for a feed of distinct post
    ids. *)
Lemma syncPosts_writes posts : forall i db,
  Healthy db ->
  exists db',
    syncPosts autoId now posts i db = (db', Ok tt) /\
    Healthy db' /\
    (forall d, In d (wordpress_posts db) ->
               ~ In (WordPressDoc.wp_id d) (map id posts) ->
               In d (wordpress_posts db')) /\
    (NoDup (map id posts) ->
     forall k post, nth_error posts k = Some post ->
       exists docId, In (postData now post (i + k) docId) (wordpress_posts db')) /\
    (exists added,
       map WordPressDoc.id (wordpress_posts db') =
       map WordPressDoc.id (wordpress_posts db) ++ added).
Proof.
  induction posts as [|post rest IH]; intros i db Hh; simpl.
  - exists db. split; [reflexivity|]. split; [exact Hh|]. split; [auto|]. split.
    + intros _ k post Hk. destruct k; discriminate.
    + exists []. now rewrite app_nil_r.
  - destruct (syncPost_writes post i Hh) as (db1 & Hstep & Hh1 & Hkeep1 & Hnew1 & Hids1).
    rewrite Hstep.
    destruct (IH (S i) db1 Hh1) as (db' & Hrun & Hh' & Hkeep & Hnew & Hids).
    exists db'. split; [exact Hrun|]. split; [exact Hh'|]. split; [|split].
    + intros d Hin Hout. apply Hkeep.
      * apply Hkeep1; [exact Hin|]. intros E. apply Hout. now left.
      * intros Hr. apply Hout. now right.
    + intros Hnd k p Hk. inversion Hnd as [|? ? Hni Hnd']; subst.
      destruct k as [|k]; simpl in Hk.
      * injection Hk as <-. destruct Hnew1 as [docId Hin].
        exists docId. rewrite Nat.add_0_r. apply Hkeep; [exact Hin|exact Hni].
      * destruct (Hnew Hnd' k p Hk) as [docId Hin]. exists docId.
        replace (i + S k)%nat with (S i + k)%nat by lia. exact Hin.
    + destruct Hids1 as [a1 E1], Hids as [a2 E2].
      exists (a1 ++ a2). now rewrite E2, E1, app_assoc.
Qed.

End SyncWrites.

(** X1 - the sync never deletes and never touches the documents of
    posts that the feed does not contain: on a store that answers and
    whose document ids are distinct, every document whose [wp_id] is
    not a post id of the feed is in the collection afterwards,
    unchanged, and the document ids of the collection before the run
    are the first ids of the collection after it, in the same order. *)
Theorem sync_leaves_other_posts_alone :
  forall autoId now fetch (wpUrl : string) posts db,
    WordPressSync.Fresh autoId ->
    WordPressSync.Healthy db ->
    fetch (wpUrl ++ "/posts?_embed&per_page=100")%string = Ok posts ->
    let db' := fst (WordPressSync.syncWordPressData autoId now fetch wpUrl db) in
    (forall d, In d (wordpress_posts db) ->
               ~ In (WordPressDoc.wp_id d) (map WordPressSync.id posts) ->
               In d (wordpress_posts db')) /\
    (exists added,
       map WordPressDoc.id (wordpress_posts db') =
       map WordPressDoc.id (wordpress_posts db) ++ added).
Proof.
  intros autoId now fetch wpUrl posts db Hfresh Hh Hf db'.
  destruct (@syncPosts_writes autoId Hfresh now posts 0%nat db Hh)
    as (db1 & Hrun & _ & Hkeep & _ & Hids).
  assert (E : db' = db1).
  { subst db'. unfold WordPressSync.syncWordPressData. rewrite Hf, Hrun. reflexivity. }
  rewrite E. split; [exact Hkeep|exact Hids].
Qed.

Lemma sync_leaves_other_posts_alone_witness :
  let db := fst (WordPressSync.syncWordPressData Samples.longerId (Samples.clock "1")
                   Samples.feed1 "https://example.org/wp-json/wp/v2" Samples.emptyDb) in
  let db' := fst (WordPressSync.syncWordPressData Samples.longerId (Samples.clock "2")
                    MoreSamples.feed3 "https://example.org/wp-json/wp/v2" db) in
  (forall d, In d (wordpress_posts db) ->
             ~ In (WordPressDoc.wp_id d) (map WordPressSync.id [Samples.post 7 "Hello again"]) ->
             In d (wordpress_posts db')) /\
  (exists added,
     map WordPressDoc.id (wordpress_posts db') =
     map WordPressDoc.id (wordpress_posts db) ++ added).
Proof.
  apply (@sync_leaves_other_posts_alone Samples.longerId (Samples.clock "2")
           MoreSamples.feed3 "https://example.org/wp-json/wp/v2"
           [Samples.post 7 "Hello again"]).
  - exact longerId_fresh.
  - split; [reflexivity|]. vm_compute. repeat constructor; simpl; intuition discriminate.
  - reflexivity.
Defined.

(** X2 - the sync stores what the feed says: after a run on a store
    that answers, for a feed whose post ids are distinct, every post of
    the feed has a document that carries the post's id as [wp_id], its
    rendered title and content, its date, its modification date as
    [last_modified], its slug, and the time at which the post was
    handled as [synced_at]; and the run reports the number of posts. *)
Theorem sync_stores_the_feed :
  forall autoId now fetch (wpUrl : string) posts db,
    WordPressSync.Fresh autoId ->
    WordPressSync.Healthy db ->
    fetch (wpUrl ++ "/posts?_embed&per_page=100")%string = Ok posts ->
    NoDup (map WordPressSync.id posts) ->
    exists db',
      WordPressSync.syncWordPressData autoId now fetch wpUrl db =
      (db', WordPressSync.Synced (List.length posts)) /\
      forall k post, nth_error posts k = Some post ->
        exists d, In d (wordpress_posts db') /\
          WordPressDoc.wp_id d = WordPressSync.id post /\
          WordPressDoc.title d = WordPressSync.title_rendered post /\
          WordPressDoc.content d = WordPressSync.content_rendered post /\
          WordPressDoc.date d = WordPressSync.date post /\
          WordPressDoc.last_modified d = WordPressSync.modified post /\
          WordPressDoc.slug d = WordPressSync.slug post /\
          WordPressDoc.synced_at d = now k.
Proof.
  intros autoId now fetch wpUrl posts db Hfresh Hh Hf Hnd.
  destruct (@syncPosts_writes autoId Hfresh now posts 0%nat db Hh)
    as (db1 & Hrun & _ & _ & Hnew & _).
  exists db1. split.
  - unfold WordPressSync.syncWordPressData. rewrite Hf, Hrun. reflexivity.
  - intros k post Hk. destruct (Hnew Hnd k post Hk) as [docId Hin].
    exists (WordPressSync.postData now post k docId).
    split; [exact Hin|]. repeat split.
Qed.

Lemma sync_stores_the_feed_witness :
  exists db',
    WordPressSync.syncWordPressData Samples.longerId (Samples.clock "1") Samples.feed1
      "https://example.org/wp-json/wp/v2" Samples.emptyDb =
    (db', WordPressSync.Synced 2) /\
    forall k post, nth_error [Samples.post 7 "Hello"; Samples.post 9 "News"] k = Some post ->
      exists d, In d (wordpress_posts db') /\
        WordPressDoc.wp_id d = WordPressSync.id post /\
        WordPressDoc.title d = WordPressSync.title_rendered post /\
        WordPressDoc.content d = WordPressSync.content_rendered post /\
        WordPressDoc.date d = WordPressSync.date post /\
        WordPressDoc.last_modified d = WordPressSync.modified post /\
        WordPressDoc.slug d = WordPressSync.slug post /\
        WordPressDoc.synced_at d = Samples.clock "1" k.
Proof.
  apply (@sync_stores_the_feed Samples.longerId (Samples.clock "1") Samples.feed1
           "https://example.org/wp-json/wp/v2"
           [Samples.post 7 "Hello"; Samples.post 9 "News"] Samples.emptyDb).
  - exact longerId_fresh.
  - split; [reflexivity|constructor].
  - reflexivity.
  - simpl. repeat constructor; simpl; intuition discriminate.
Defined.

(** ** The sync endpoint and the content page *)

(** X3 - the answer of the sync endpoint: on a store that answers and
    whose document ids are distinct, [POST] answers 401 exactly when
    the body was read and its key differs from [SYNC_API_KEY], and then
    the store is not touched; it answers 200 exactly when the body was
    read, the key matches and the content API delivered its posts; every
    other request is answered 500. *)
Theorem POST_status :
  forall autoId now fetch SYNC_API_KEY request db,
    WordPressSync.Fresh autoId ->
    WordPressSync.Healthy db ->
    let out := SyncRoute.POST autoId now fetch SYNC_API_KEY request db in
    (SyncRoute.status (snd out) = 401%Z <->
     exists body, request = Ok body /\
       SyncRoute.keyMatches (SyncRoute.apiKey body) SYNC_API_KEY = false) /\
    (SyncRoute.status (snd out) = 401%Z -> fst out = db) /\
    (SyncRoute.status (snd out) = 200%Z <->
     exists body posts, request = Ok body /\
       SyncRoute.keyMatches (SyncRoute.apiKey body) SYNC_API_KEY = true /\
       fetch (SyncRoute.wpUrl body ++ "/posts?_embed&per_page=100")%string = Ok posts) /\
    (SyncRoute.status (snd out) = 200%Z \/ SyncRoute.status (snd out) = 401%Z \/
     SyncRoute.status (snd out) = 500%Z).
Proof.
  intros autoId now fetch KEY request db Hfresh Hh out. subst out.
  unfold SyncRoute.POST.
  destruct request as [body|e].
  2:{ simpl. repeat split; try discriminate; auto.
      - intros (body & Hb & _). discriminate.
      - intros (body & posts & Hb & _). discriminate. }
  destruct (SyncRoute.keyMatches (SyncRoute.apiKey body) KEY) eqn:Hkey; simpl.
  - (* the key matches: the sync runs *)
    assert (Hno401 : forall b, Ok body = Ok b ->
                       SyncRoute.keyMatches (SyncRoute.apiKey b) KEY = false -> False).
    { intros b Hb Hk. injection Hb as <-. congruence. }
    destruct (fetch (SyncRoute.wpUrl body ++ "/posts?_embed&per_page=100")%string)
      as [posts|e] eqn:Hf.
    + destruct (@syncWordPressData_spec autoId Hfresh now fetch (SyncRoute.wpUrl body)
                  posts db Hf Hh) as (db' & Hrun & _).
      rewrite Hrun. simpl. repeat split; try discriminate; auto.
      * intros (b & Hb & Hk). exfalso. eauto.
      * intros _. exists body, posts. auto.
    + rewrite (@syncWordPressData_fetch_fails autoId now fetch (SyncRoute.wpUrl body) e db Hf).
      simpl. repeat split; try discriminate; auto.
      * intros (b & Hb & Hk). exfalso. eauto.
      * intros (b & posts & Hb & _ & Hf'). injection Hb as <-. congruence.
  - (* the key differs *)
    repeat split; try discriminate; auto.
    + intros _. exists body. auto.
    + intros (b & posts & Hb & Hk & _). injection Hb as <-. congruence.
Qed.

Lemma POST_status_witness :
  let out := SyncRoute.POST Samples.longerId (Samples.clock "1") Samples.feed1
               (Some "secret") (Ok MoreSamples.syncRequest) Samples.emptyDb in
  (SyncRoute.status (snd out) = 401%Z <->
   exists body, Ok MoreSamples.syncRequest = Ok body /\
     SyncRoute.keyMatches (SyncRoute.apiKey body) (Some "secret") = false) /\
  (SyncRoute.status (snd out) = 401%Z -> fst out = Samples.emptyDb) /\
  (SyncRoute.status (snd out) = 200%Z <->
   exists body posts, Ok MoreSamples.syncRequest = Ok body /\
     SyncRoute.keyMatches (SyncRoute.apiKey body) (Some "secret") = true /\
     Samples.feed1 (SyncRoute.wpUrl body ++ "/posts?_embed&per_page=100")%string = Ok posts) /\
  (SyncRoute.status (snd out) = 200%Z \/ SyncRoute.status (snd out) = 401%Z \/
   SyncRoute.status (snd out) = 500%Z).
Proof.
  apply (@POST_status Samples.longerId (Samples.clock "1") Samples.feed1
           (Some "secret") (Ok MoreSamples.syncRequest) Samples.emptyDb).
  - exact longerId_fresh.
  - split; [reflexivity|constructor].
Defined.

Lemma filter_all {A} (f : A -> bool) (l : list A) :
  (forall x, In x l -> f x = true) -> filter f l = l.
Proof.
  induction l as [|x l IH]; simpl; intros Hf; [reflexivity|].
  rewrite (Hf x (or_introl eq_refl)). f_equal. apply IH. intros y Hy. apply Hf. now right.
Qed.

(** X4 - the content page shows the whole collection, newest date
    first: when the store answers, [fetchPosts] ends with no error, not
    loading, and with a list that holds every document of
    [wordpress_posts] exactly once (no limit is set), ordered so that the
    [date] string of an article is never smaller than that of an
    article after it. *)
Theorem content_page_lists_every_post :
  forall db st,
    online db = true ->
    let st' := WordPressContent.fetchPosts db st in
    Permutation (WordPressContent.posts st') (wordpress_posts db) /\
    StronglySorted
      (fun a b => String.compare (WordPressDoc.date a) (WordPressDoc.date b) <> Lt)
      (WordPressContent.posts st') /\
    WordPressContent.error st' = None /\
    WordPressContent.loading st' = false.
Proof.
  intros db st Ho st'. subst st'.
  unfold WordPressContent.fetchPosts, getDocs, collection_wordpress_posts.
  rewrite Ho. simpl.
  unfold Firestore.runQuery. simpl.
  rewrite filter_all by (intros d _; reflexivity).
  split; [apply sortBy_perm|]. split; [|split; reflexivity].
  eapply StronglySorted_impl;
    [|apply sortBy_sorted, (@docCompare_total WordPressDoc.t WordPressDoc.document)].
  intros a b Hab. unfold notGt, Firestore.docCompare in Hab. simpl in Hab.
  intros Hlt. rewrite Hlt in Hab. simpl in Hab. discriminate.
Qed.

Lemma content_page_lists_every_post_witness :
  let st' := WordPressContent.fetchPosts MoreSamples.syncedDb WordPressContent.initialState in
  Permutation (WordPressContent.posts st') (wordpress_posts MoreSamples.syncedDb) /\
  StronglySorted
    (fun a b => String.compare (WordPressDoc.date a) (WordPressDoc.date b) <> Lt)
    (WordPressContent.posts st') /\
  WordPressContent.error st' = None /\
  WordPressContent.loading st' = false.
Proof.
  apply (@content_page_lists_every_post MoreSamples.syncedDb WordPressContent.initialState).
  reflexivity.
Defined.

(** ** The donors page: the two totals *)
Section DonorTotals.
Import DonorsPage AggregationSpec DonorsPageUI TotalsSpec.

Lemma totalDonations_sum l : totalDonations l = sumTotals l.
Proof.
  unfold totalDonations, sumTotals.
  assert (G : forall a, fold_left (fun sum donor => (sum + totalAmount donor)%Z) l a =
                        (a + fold_right Z.add 0 (map totalAmount l))%Z).
  { induction l as [|x l IH]; intros a; simpl; [lia|]. rewrite IH. lia. }
  rewrite G. lia.
Qed.

Lemma sumTotals_perm l l' : Permutation l l' -> sumTotals l = sumTotals l'.
Proof.
  unfold sumTotals. induction 1; simpl; lia.
Qed.

Lemma sumTotals_mapSet m k v :
  sumTotals (mapValues (mapSet m k v)) =
  (sumTotals (mapValues m)
   - match mapGet m k with Some e => totalAmount e | None => 0 end
   + totalAmount v)%Z.
Proof.
  unfold sumTotals, mapValues.
  induction m as [|[k' v'] m IH]; simpl; [lia|].
  destruct (k' =? k)%string; simpl; [lia|]. rewrite IH. lia.
Qed.

Lemma accumulate_total m d m' :
  accumulate m d = Ok m' ->
  sumTotals (mapValues m') = (sumTotals (mapValues m) + Donation.amount d)%Z.
Proof.
  unfold accumulate. intros Hacc.
  destruct (isMoreRecent _ d) as [newer|e] eqn:Hnew; simpl in Hacc; [|discriminate].
  injection Hacc as <-. rewrite sumTotals_mapSet.
  destruct (mapGet m (Donation.donor d)) as [e|]; destruct newer; simpl; lia.
Qed.

Lemma forEach_total ds : forall m m',
  forEach ds m = Ok m' ->
  sumTotals (mapValues m') = (sumTotals (mapValues m) + sumAmounts ds)%Z.
Proof.
  induction ds as [|d ds IH]; intros m m' Hrun; simpl in Hrun.
  - injection Hrun as <-. unfold sumAmounts. simpl. lia.
  - destruct (accumulate m d) as [m1|e] eqn:Hacc; simpl in Hrun; [|discriminate].
    rewrite (IH m1 m' Hrun), (accumulate_total _ _ Hacc).
    unfold sumAmounts. simpl. lia.
Qed.

Lemma accumulate_keys m d m' n :
  accumulate m d = Ok m' ->
  (In n (map fst m') <-> In n (map fst m) \/ n = Donation.donor d).
Proof.
  unfold accumulate. intros Hacc.
  destruct (isMoreRecent _ d) as [newer|e]; simpl in Hacc; [|discriminate].
  injection Hacc as <-. apply mapSet_keys_In.
Qed.

Lemma forEach_keys ds : forall m m' n,
  forEach ds m = Ok m' ->
  (In n (map fst m') <-> In n (map fst m) \/ In n (map Donation.donor ds)).
Proof.
  induction ds as [|d ds IH]; intros m m' n Hrun; simpl in Hrun.
  - injection Hrun as <-. simpl. tauto.
  - destruct (accumulate m d) as [m1|e] eqn:Hacc; simpl in Hrun; [|discriminate].
    rewrite (IH m1 m' n Hrun), (accumulate_keys _ _ n Hacc). simpl.
    intuition (subst; auto).
Qed.

End DonorTotals.

(** X5 - the two totals above the donor table: whenever
    [processDonations] returns, for donations of whole amounts whose
    magnitudes sum to at most [2^53] (so that no addition of the code
    rounds), the "Total Contributions" figure computed from its rows is
    the sum of the amounts of all the donations it was given, itself
    within [2^53] in magnitude, and the "Total Donors" figure is the
    number of distinct donor names among them. *)
Theorem donor_totals :
  forall ds out,
    Exact.ExactAmounts (map Donation.amount ds) ->
    DonorsPage.processDonations ds = Ok out ->
    DonorsPageUI.totalDonations out = AggregationSpec.sumAmounts ds /\
    (Z.abs (DonorsPageUI.totalDonations out) <= Exact.maxExact)%Z /\
    DonorsPageUI.totalDonors out =
      Z.of_nat (List.length (nodup string_dec (map Donation.donor ds))).
Proof.
  intros ds out Hexact Hout. rewrite processDonations_eq in Hout.
  destruct (DonorsPage.forEach ds []) as [m|e] eqn:Hrun; simpl in Hout; [|discriminate].
  injection Hout as <-.
  assert (Htotal : DonorsPageUI.totalDonations
                     (sortBy AggregationSpec.byTotalDesc (DonorsPage.mapValues m)) =
                   AggregationSpec.sumAmounts ds).
  { rewrite totalDonations_sum.
    rewrite (sumTotals_perm (sortBy_perm AggregationSpec.byTotalDesc (DonorsPage.mapValues m))).
    rewrite (forEach_total _ _ Hrun). simpl. lia. }
  split; [exact Htotal|]. split.
  - rewrite Htotal. unfold AggregationSpec.sumAmounts.
    pose proof (sum_within_magnitude (map Donation.amount ds)) as Hsum.
    unfold Exact.ExactAmounts in Hexact. lia.
  - unfold DonorsPageUI.totalDonors. f_equal.
    rewrite sortBy_length. unfold DonorsPage.mapValues.
    rewrite length_map, <- (length_map fst).
    apply Permutation_length, NoDup_Permutation.
    + exact (proj1 (@forEach_wellKeyed ds [] m WellKeyed_nil Hrun)).
    + apply NoDup_nodup.
    + intros n. rewrite nodup_In, (forEach_keys _ _ n Hrun). simpl. tauto.
Qed.

Lemma donor_totals_witness :
  let out := match DonorsPage.processDonations Samples.threeDonations with
             | Ok rows => rows
             | Raise _ => []
             end in
  DonorsPageUI.totalDonations out = AggregationSpec.sumAmounts Samples.threeDonations /\
  (Z.abs (DonorsPageUI.totalDonations out) <= Exact.maxExact)%Z /\
  DonorsPageUI.totalDonors out =
    Z.of_nat (List.length (nodup string_dec (map Donation.donor Samples.threeDonations))).
Proof.
  intros out. apply (@donor_totals Samples.threeDonations out).
  - unfold Exact.ExactAmounts, Exact.maxExact. simpl. lia.
  - reflexivity.
Defined.

(** ** The donors page: the states it goes through *)
Section DonorStates.
Import DonorsPage DonorsPageUI.
Variable pageSize : nat.

(** What holds after every fetch, whatever came before. *)
Lemma fetchDonors_settles isNew db st :
  let st' := fetchDonorsWith pageSize isNew db st in
  loading st' = false /\
  currentPage st' = currentPage st /\
  (error st' = None -> processDonations (allDonations st') = Ok (donors st')).
Proof.
  unfold fetchDonorsWith, getDocs. cbv zeta.
  destruct (online db); simpl; [|repeat split; discriminate].
  destruct isNew; simpl.
  - destruct (processDonations _) as [rows|e] eqn:Hrows; simpl;
      repeat split; auto; discriminate.
  - destruct (processDonations _) as [rows|e] eqn:Hrows; simpl;
      repeat split; auto; discriminate.
Qed.

End DonorStates.

(** X6 - an invariant of the donors page: in every state the page
    reaches by mounting, typing in the search box, searching, clearing
    the search and loading more, with the store in any condition at each
    step, the page is not loading, the page counter is at least 1, and
    when no error is recorded the donor table is exactly what
    [processDonations] computes from the donations loaded so far. *)
Theorem donors_table_matches_loaded_donations :
  forall pageSize st,
    DonorsPageUI.Reachable pageSize st ->
    DonorsPage.loading st = false /\
    (1 <= DonorsPage.currentPage st)%Z /\
    (DonorsPage.error st = None ->
     DonorsPage.processDonations (DonorsPage.allDonations st) = Ok (DonorsPage.donors st)).
Proof.
  intros pageSize st Hreach.
  induction Hreach as [db|value st _ IH|db st _ IH|db st _ IH|db st _ IH].
  - destruct (fetchDonors_settles pageSize true db DonorsPage.initialState)
      as (Hl & Hp & Ht).
    unfold DonorsPage.mountWith. rewrite Hp. simpl. repeat split; auto. lia.
  - exact IH.
  - unfold DonorsPage.handleSearchWith.
    destruct (fetchDonors_settles pageSize true db
                (DonorsPage.setCurrentPage 1 (DonorsPage.setIsSearching true st)))
      as (Hl & Hp & Ht).
    rewrite Hp. simpl. repeat split; auto. lia.
  - unfold DonorsPage.loadMoreWith.
    destruct (negb (DonorsPage.loading st) && DonorsPage.hasMore st); [|exact IH].
    destruct (fetchDonors_settles pageSize false db
                (DonorsPage.setCurrentPage (DonorsPage.currentPage st + 1) st))
      as (Hl & Hp & Ht).
    rewrite Hp. simpl. destruct IH as (_ & Hge & _). repeat split; auto. lia.
  - unfold DonorsPageUI.clearSearchWith.
    destruct (fetchDonors_settles pageSize true db st) as (Hl & Hp & Ht).
    simpl. rewrite Hp. destruct IH as (_ & Hge & _). repeat split; auto.
Qed.

Lemma donors_table_matches_loaded_donations_witness :
  DonorsPage.loading Samples.searchedA = false /\
  (1 <= DonorsPage.currentPage Samples.searchedA)%Z /\
  (DonorsPage.error Samples.searchedA = None ->
   DonorsPage.processDonations (DonorsPage.allDonations Samples.searchedA) =
   Ok (DonorsPage.donors Samples.searchedA)).
Proof.
  apply (@donors_table_matches_loaded_donations DonorsPage.ITEMS_PER_PAGE Samples.searchedA).
  unfold Samples.searchedA, DonorsPage.handleSearch, DonorsPage.mount.
  apply DonorsPageUI.afterSearch.
  apply (DonorsPageUI.afterTyping "A").
  apply DonorsPageUI.afterMount.
Defined.

(** X7 - "Clear" does not clear the results.  The handler empties the
    search box and switches the searching flag off, but the fetch it
    starts still reads the term of the render in which the button was
    drawn: with a term in the box and the store answering, the list,
    the table, the cursor and [hasMore] after "Clear" are those of
    submitting the search again, so every listed donation still has a
    donor that starts with the term. *)
Theorem clear_reruns_the_search :
  forall pageSize db st,
    DonorsPage.searchTerm st <> "" ->
    online db = true ->
    let st' := DonorsPageUI.clearSearchWith pageSize db st in
    let searched := DonorsPage.handleSearchWith pageSize db st in
    DonorsPage.searchTerm st' = "" /\
    DonorsPage.isSearching st' = false /\
    DonorsPage.allDonations st' = DonorsPage.allDonations searched /\
    DonorsPage.donors st' = DonorsPage.donors searched /\
    DonorsPage.lastVisible st' = DonorsPage.lastVisible searched /\
    DonorsPage.hasMore st' = DonorsPage.hasMore searched /\
    (forall d, In d (DonorsPage.allDonations st') ->
       String.prefix (DonorsPage.searchTerm st) (Donation.donor d) = true).
Proof.
  intros pageSize db st Hterm Ho st' searched. subst st' searched.
  unfold DonorsPageUI.clearSearchWith, DonorsPage.handleSearchWith.
  assert (Hsame : forall f : DonorsPage.State -> DonorsPage.State,
            (forall s, DonorsPage.searchTerm (f s) = DonorsPage.searchTerm s /\
                       DonorsPage.lastVisible (f s) = DonorsPage.lastVisible s /\
                       DonorsPage.allDonations (f s) = DonorsPage.allDonations s /\
                       DonorsPage.donors (f s) = DonorsPage.donors s /\
                       DonorsPage.hasMore (f s) = DonorsPage.hasMore s) ->
            let a := DonorsPage.fetchDonorsWith pageSize true db st in
            let b := DonorsPage.fetchDonorsWith pageSize true db (f st) in
            DonorsPage.allDonations a = DonorsPage.allDonations b /\
            DonorsPage.donors a = DonorsPage.donors b /\
            DonorsPage.lastVisible a = DonorsPage.lastVisible b /\
            DonorsPage.hasMore a = DonorsPage.hasMore b).
  { intros f Hf. destruct (Hf st) as (H1 & H2 & H3 & H4 & H5).
    unfold DonorsPage.fetchDonorsWith, DonorsPage.donorsQuery, getDocs. cbv zeta.
    rewrite Ho. simpl. rewrite H1.
    destruct (DonorsPage.processDonations _); simpl; rewrite ?H4; auto. }
  destruct (Hsame (fun s => DonorsPage.setCurrentPage 1 (DonorsPage.setIsSearching true s)))
    as (Ha & Hd & Hl & Hm); [intros s; simpl; auto|].
  simpl. repeat split; auto.
  intros d Hin.
  destruct (@search_fetch pageSize true db st Hterm Ho) as (Hall & _).
  rewrite Hall in Hin. rewrite (donorsQuery_search pageSize true st Hterm) in Hin.
  apply (@runQuery_In Donation.t Donation.document) in Hin. destruct Hin as [_ Hsat].
  simpl in Hsat. eapply search_filters_prefix. exact Hsat.
Qed.

Lemma clear_reruns_the_search_witness :
  let st' := DonorsPageUI.clearSearch Samples.searchDb Samples.searchedA in
  let searched := DonorsPage.handleSearch Samples.searchDb Samples.searchedA in
  DonorsPage.searchTerm st' = "" /\
  DonorsPage.isSearching st' = false /\
  DonorsPage.allDonations st' = DonorsPage.allDonations searched /\
  DonorsPage.donors st' = DonorsPage.donors searched /\
  DonorsPage.lastVisible st' = DonorsPage.lastVisible searched /\
  DonorsPage.hasMore st' = DonorsPage.hasMore searched /\
  (forall d, In d (DonorsPage.allDonations st') ->
     String.prefix (DonorsPage.searchTerm Samples.searchedA) (Donation.donor d) = true).
Proof.
  apply (@clear_reruns_the_search DonorsPage.ITEMS_PER_PAGE Samples.searchDb Samples.searchedA).
  - vm_compute. discriminate.
  - reflexivity.
Defined.

(** X19 - when a fetch of the donors page fails.  After [fetchDonors]
    the recorded error is either none or the fixed message; an error is
    recorded exactly when the store does not answer or
    [processDonations] throws on the donations to summarise; in both
    cases the donor table is left as it was and the page stops loading;
    and when the store does not answer, the loaded donations, the cursor
    and [hasMore] are left as they were too. *)
Theorem fetch_failure_keeps_the_table :
  forall pageSize isNewSearch db st,
    let st' := DonorsPage.fetchDonorsWith pageSize isNewSearch db st in
    (DonorsPage.error st' = None \/
     DonorsPage.error st' = Some (DonorsPage.failedToLoad)) /\
    (DonorsPage.error st' <> None <->
     online db = false \/
     exists docs e,
       getDocs db (collection_donations db)
         (DonorsPage.donorsQuery pageSize isNewSearch st) = Ok docs /\
       DonorsPage.processDonations
         (if isNewSearch then docs else DonorsPage.allDonations st ++ docs) = Raise e) /\
    (DonorsPage.error st' <> None ->
     DonorsPage.donors st' = DonorsPage.donors st /\ DonorsPage.loading st' = false) /\
    (online db = false ->
     DonorsPage.allDonations st' = DonorsPage.allDonations st /\
     DonorsPage.lastVisible st' = DonorsPage.lastVisible st /\
     DonorsPage.hasMore st' = DonorsPage.hasMore st).
Proof.
  intros pageSize isNewSearch db st st'. subst st'.
  unfold DonorsPage.fetchDonorsWith, getDocs. cbv zeta.
  change (DonorsPage.donorsQuery pageSize isNewSearch (DonorsPage.setLoading true st))
    with (DonorsPage.donorsQuery pageSize isNewSearch st).
  destruct (online db) eqn:Ho; simpl.
  - destruct (DonorsPage.processDonations _) as [rows|e] eqn:Hrows; simpl.
    + split; [now left|]. split; [|split; [congruence|discriminate]].
      split; [congruence|].
      intros [Hoff|(docs & e & Hdocs & Hraise)]; [discriminate|].
      injection Hdocs as <-. congruence.
    + split; [now right|].
      split; [|split; [intros _; destruct isNewSearch; auto|discriminate]].
      split; [|discriminate].
      intros _. right. eexists. exists e. split; [reflexivity|exact Hrows].
  - split; [now right|]. split; [|split; auto].
    split; [now left|discriminate].
Qed.

(** ** Default mode: paging reaches every record once *)

(** X23 - pagination completeness in Default mode: for every
    collection of N records with distinct ids that all carry the date
    field, and every positive page size, mounting the page and pressing
    "Load More" until [hasMore] is false (N presses always suffice)
    accumulates exactly the N records, each id exactly once.  This holds
    for the donors page and for the expenses page. *)
Theorem default_mode_pagination_complete :
  (forall pageSize db n,
     (0 < pageSize)%nat -> online db = true ->
     NoDup (map Donation.id (donations db)) ->
     (forall d, In d (donations db) -> Donation.date d <> Undefined) ->
     (List.length (donations db) <= n)%nat ->
     let st := DonorsPage.loadMoreTimes pageSize n db (DonorsPage.mountWith pageSize db) in
     DonorsPage.hasMore st = false /\
     Permutation (DonorsPage.allDonations st) (donations db) /\
     NoDup (map Donation.id (DonorsPage.allDonations st)))
  /\
  (forall pageSize db n,
     (0 < pageSize)%nat -> online db = true ->
     NoDup (map Expense.id (expenses db)) ->
     (forall d, In d (expenses db) -> Expense.date d <> Undefined) ->
     (List.length (expenses db) <= n)%nat ->
     let st := ExpensesPage.loadMoreTimes pageSize n db (ExpensesPage.mountWith pageSize db) in
     ExpensesPage.hasMore st = false /\
     Permutation (ExpensesPage.expenses st) (expenses db) /\
     NoDup (map Expense.id (ExpensesPage.expenses st))).
Proof.
  split; intros pageSize db n Hsize Ho Hids Hdated Hn st.
  - pose proof (@donors_paging_view pageSize db n Ho) as Hv. fold st in Hv.
    destruct (@paging_complete Donation.t Donation.document (donations db) Hids pageSize Hsize n
                (donorsView DonorsPage.initialState) Hn) as [Hmore Hitems].
    rewrite <- Hv in Hmore, Hitems.
    split; [exact Hmore|].
    apply (@complete_view Donation.t Donation.document (donations db) (donorsView st)
             Hids (Donation_AllDated _ Hdated) Hitems).
  - pose proof (@expenses_paging_view pageSize db n Ho) as Hv. fold st in Hv.
    destruct (@paging_complete Expense.t Expense.document (expenses db) Hids pageSize Hsize n
                (expensesView ExpensesPage.initialState) Hn) as [Hmore Hitems].
    unfold collection_expenses in Hv.
    rewrite <- Hv in Hmore, Hitems.
    split; [exact Hmore|].
    apply (@complete_view Expense.t Expense.document (expenses db) (expensesView st)
             Hids (Expense_AllDated _ Hdated) Hitems).
Qed.

Lemma default_mode_pagination_complete_witness :
  let st := DonorsPage.loadMoreTimes 2 3 Samples.smallDb (DonorsPage.mountWith 2 Samples.smallDb) in
  let st' := ExpensesPage.loadMoreTimes 2 3 Samples.smallDb (ExpensesPage.mountWith 2 Samples.smallDb) in
  (DonorsPage.hasMore st = false /\
   Permutation (DonorsPage.allDonations st) (donations Samples.smallDb) /\
   NoDup (map Donation.id (DonorsPage.allDonations st))) /\
  (ExpensesPage.hasMore st' = false /\
   Permutation (ExpensesPage.expenses st') (expenses Samples.smallDb) /\
   NoDup (map Expense.id (ExpensesPage.expenses st'))).
Proof.
  split.
  - apply (proj1 default_mode_pagination_complete 2%nat Samples.smallDb 3%nat).
    + lia.
    + reflexivity.
    + repeat constructor; simpl; intuition discriminate.
    + simpl. intros d [<-|[<-|[<-|[]]]]; discriminate.
    + simpl. lia.
  - apply (proj2 default_mode_pagination_complete 2%nat Samples.smallDb 3%nat).
    + lia.
    + reflexivity.
    + repeat constructor; simpl; intuition discriminate.
    + simpl. intros d [<-|[<-|[<-|[]]]]; discriminate.
    + simpl. lia.
Defined.

(** ** The search of the donors page *)
Section SearchFacts.

Lemma compare_app_same (t r u : string) :
  String.compare (t ++ r) (t ++ u) = String.compare r u.
Proof.
  induction t as [|c t IH]; simpl; [reflexivity|].
  assert (E : Ascii.compare c c = Eq) by (unfold Ascii.compare; apply N.compare_refl).
  now rewrite E.
Qed.

Lemma compare_app_ge (t r : string) : String.compare (t ++ r) t <> Lt.
Proof.
  induction t as [|c t IH]; simpl.
  - destruct r; discriminate.
  - assert (E : Ascii.compare c c = Eq) by (unfold Ascii.compare; apply N.compare_refl).
    now rewrite E.
Qed.

Lemma ascii_below_uF8FF (r : string) :
  DonorsPageUI.isAscii r = true -> String.compare r uF8FF = Lt.
Proof.
  destruct r as [|c r]; [reflexivity|].
  unfold DonorsPageUI.isAscii. simpl. intros Hc.
  apply andb_true_iff in Hc. destruct Hc as [Hc _].
  apply Nat.ltb_lt in Hc.
  assert (E : Ascii.compare c (ascii_of_nat 239) = Lt).
  { unfold Ascii.compare. apply N.compare_lt_iff.
    unfold nat_of_ascii in Hc. change (N_of_ascii (ascii_of_nat 239)) with 239%N. lia. }
  unfold uF8FF. simpl. now rewrite E.
Qed.

Lemma StronglySorted_firstn {B} (R : B -> B -> Prop) (n : nat) (l : list B) :
  StronglySorted R l -> StronglySorted R (firstn n l).
Proof.
  intros Hs. rewrite <- (firstn_skipn n l) in Hs.
  eapply StronglySorted_app_l. exact Hs.
Qed.

(** The page that a search fetches. *)
Lemma search_page pageSize (term : string) (coll : list Donation.t) :
  Firestore.runQuery coll
    [ Firestore.where_ "donor" Firestore.OpGe (Str term);
      Firestore.where_ "donor" Firestore.OpLe (Str (term ++ uF8FF));
      Firestore.orderBy "donor" Firestore.Asc;
      Firestore.orderBy "date" Firestore.Desc;
      Firestore.limit pageSize ] =
  firstn pageSize
    (sortBy (Firestore.docCompare [("donor", Firestore.Asc); ("date", Firestore.Desc)])
       (filter (fun d =>
                  forallb (Firestore.satisfies d)
                    [("donor", Firestore.OpGe, Str term);
                     ("donor", Firestore.OpLe, Str (term ++ uF8FF))] &&
                  forallb (Firestore.hasField d)
                    [("donor", Firestore.Asc); ("date", Firestore.Desc)]) coll)).
Proof. reflexivity. Qed.

Lemma searched_list pageSize db st :
  DonorsPage.searchTerm st <> "" -> online db = true ->
  DonorsPage.allDonations (DonorsPage.handleSearchWith pageSize db st) =
  Firestore.runQuery (donations db)
    [ Firestore.where_ "donor" Firestore.OpGe (Str (DonorsPage.searchTerm st));
      Firestore.where_ "donor" Firestore.OpLe (Str (DonorsPage.searchTerm st ++ uF8FF));
      Firestore.orderBy "donor" Firestore.Asc;
      Firestore.orderBy "date" Firestore.Desc;
      Firestore.limit pageSize ] /\
  DonorsPage.hasMore (DonorsPage.handleSearchWith pageSize db st) =
  (List.length (DonorsPage.allDonations (DonorsPage.handleSearchWith pageSize db st))
   =? pageSize)%nat.
Proof.
  intros Hterm Ho. unfold DonorsPage.handleSearchWith.
  set (st1 := DonorsPage.setCurrentPage 1 (DonorsPage.setIsSearching true st)).
  assert (Hne1 : DonorsPage.searchTerm st1 <> "") by exact Hterm.
  pose proof (@search_fetch pageSize true db st1 Hne1 Ho) as Hf.
  cbv zeta in Hf. destruct Hf as (Hall & Hmore & _).
  rewrite Hall, Hmore, (donorsQuery_search pageSize true st1 Hne1). split; reflexivity.
Qed.

End SearchFacts.

(** X8 - the order of search results: after a search with a term in the
    box, on a store that answers, the listed donations are ordered by
    donor name ascending (byte order) and, within one donor name, by
    date descending. *)
Theorem search_results_ordered :
  forall pageSize db st,
    DonorsPage.searchTerm st <> "" ->
    online db = true ->
    StronglySorted SearchSpec.ByDonorThenNewest
      (DonorsPage.allDonations (DonorsPage.handleSearchWith pageSize db st)).
Proof.
  intros pageSize db st Hterm Ho.
  destruct (searched_list pageSize db st Hterm Ho) as [-> _].
  rewrite search_page. apply StronglySorted_firstn.
  eapply StronglySorted_impl;
    [|apply sortBy_sorted, (@docCompare_total Donation.t Donation.document)].
  intros a b Hab. unfold notGt, Firestore.docCompare in Hab. simpl in Hab.
  unfold SearchSpec.ByDonorThenNewest.
  destruct (String.compare (Donation.donor a) (Donation.donor b)) eqn:Ec.
  - right. split; [now apply string_compare_eq|].
    intros Hlt. rewrite Hlt in Hab. simpl in Hab. discriminate.
  - now left.
  - discriminate.
Qed.

Lemma search_results_ordered_witness :
  StronglySorted SearchSpec.ByDonorThenNewest
    (DonorsPage.allDonations
       (DonorsPage.handleSearchWith 10 Samples.searchDb
          (DonorsPage.setSearchTerm "A" (DonorsPage.mount Samples.searchDb)))).
Proof.
  apply (@search_results_ordered 10 Samples.searchDb
           (DonorsPage.setSearchTerm "A" (DonorsPage.mount Samples.searchDb))).
  - simpl. discriminate.
  - reflexivity.
Defined.

(** X9 - a search page that is not full holds every match: when the
    search ends with [hasMore] false, every donation of the collection
    that has a date and whose donor is the term followed by ASCII text
    (or by nothing) is in the list. *)
Theorem short_search_page_is_complete :
  forall pageSize db st d rest,
    DonorsPage.searchTerm st <> "" ->
    online db = true ->
    DonorsPage.hasMore (DonorsPage.handleSearchWith pageSize db st) = false ->
    In d (donations db) ->
    Donation.date d <> Undefined ->
    Donation.donor d = (DonorsPage.searchTerm st ++ rest)%string ->
    DonorsPageUI.isAscii rest = true ->
    In d (DonorsPage.allDonations (DonorsPage.handleSearchWith pageSize db st)).
Proof.
  intros pageSize db st d rest Hterm Ho Hmore Hin Hdate Hdonor Hascii.
  destruct (searched_list pageSize db st Hterm Ho) as [Hall Hm].
  rewrite Hm in Hmore. rewrite Hall in Hmore |- *. rewrite search_page in Hmore |- *.
  set (matches := sortBy _ _) in *.
  apply Nat.eqb_neq in Hmore. apply firstn_short in Hmore.
  pose proof (firstn_skipn pageSize matches) as E.
  rewrite Hmore, app_nil_r in E. rewrite E. subst matches.
  apply sortBy_In, filter_In. split; [exact Hin|].
  simpl. rewrite Hdonor.
  pose proof (compare_app_ge (DonorsPage.searchTerm st) rest) as Hge.
  rewrite compare_app_same, (ascii_below_uF8FF rest Hascii).
  unfold Firestore.hasField. simpl.
  destruct (String.compare (DonorsPage.searchTerm st ++ rest) (DonorsPage.searchTerm st));
    try congruence; destruct (Donation.date d); simpl; congruence.
Qed.

Lemma short_search_page_is_complete_witness :
  In MoreSamples.bob
    (DonorsPage.allDonations
       (DonorsPage.handleSearchWith 10 Samples.searchDb
          (DonorsPage.setSearchTerm "B" (DonorsPage.mount Samples.searchDb)))).
Proof.
  apply (@short_search_page_is_complete 10 Samples.searchDb
           (DonorsPage.setSearchTerm "B" (DonorsPage.mount Samples.searchDb))
           MoreSamples.bob "ob").
  - simpl. discriminate.
  - reflexivity.
  - reflexivity.
  - vm_compute. tauto.
  - simpl. discriminate.
  - reflexivity.
  - reflexivity.
Defined.

(** ** Totals once everything is loaded *)
Section LoadedTotals.
Import TotalsSpec.

Lemma totalExpenses_sum l : ExpensesPageUI.totalExpenses l = sumExpenses l.
Proof.
  unfold ExpensesPageUI.totalExpenses, sumExpenses.
  assert (G : forall a,
             fold_left
               (fun sum expense =>
                  (sum + (if truthy (Num (Expense.amount expense))
                          then Expense.amount expense else 0))%Z) l a =
             (a + fold_right Z.add 0 (map Expense.amount l))%Z).
  { induction l as [|x l IH]; intros a; simpl; [lia|]. rewrite IH.
    destruct (Z.eqb_spec (Expense.amount x) 0) as [E|E]; simpl; lia. }
  rewrite G. lia.
Qed.

Lemma sumExpenses_perm l l' : Permutation l l' -> sumExpenses l = sumExpenses l'.
Proof. unfold sumExpenses. induction 1; simpl; lia. Qed.

Lemma sumAmounts_perm l l' :
  Permutation l l' -> AggregationSpec.sumAmounts l = AggregationSpec.sumAmounts l'.
Proof. unfold AggregationSpec.sumAmounts. induction 1; simpl; lia. Qed.

Lemma processDonations_sum ds out :
  DonorsPage.processDonations ds = Ok out ->
  sumTotals out = AggregationSpec.sumAmounts ds.
Proof.
  intros Hout. rewrite processDonations_eq in Hout.
  destruct (DonorsPage.forEach ds []) as [m|e] eqn:Hrun; simpl in Hout; [|discriminate].
  injection Hout as <-.
  rewrite (sumTotals_perm (sortBy_perm AggregationSpec.byTotalDesc (DonorsPage.mapValues m))).
  rewrite (forEach_total _ _ Hrun). simpl. lia.
Qed.

(** Loading more keeps the table in step with the loaded donations. *)
Lemma loadMoreTimes_settled pageSize db n : forall st,
  (DonorsPage.error st = None ->
   DonorsPage.processDonations (DonorsPage.allDonations st) = Ok (DonorsPage.donors st)) ->
  let st' := DonorsPage.loadMoreTimes pageSize n db st in
  DonorsPage.error st' = None ->
  DonorsPage.processDonations (DonorsPage.allDonations st') = Ok (DonorsPage.donors st').
Proof.
  induction n as [|n IH]; intros st Hst; simpl; [exact Hst|].
  apply IH. unfold DonorsPage.loadMoreWith.
  destruct (negb (DonorsPage.loading st) && DonorsPage.hasMore st); [|exact Hst].
  apply (fetchDonors_settles pageSize false db).
Qed.

End LoadedTotals.

(** X10 - the totals once everything is loaded.  In Default mode, on a
    store that answers, for a collection with distinct ids whose records
    all carry a date and hold whole amounts with magnitudes summing to
    at most [2^53] (so that no addition of the code rounds), and a
    positive page size: after mounting and pressing "Load More" as many
    times as the collection has records, the "Total Expenses" figure of
    the expenses page is the sum of the amounts of the whole collection;
    and on the donors page, when no error is recorded, "Total
    Contributions" is the sum of the amounts of all donations of the
    collection. *)
Theorem totals_after_loading_everything :
  (forall pageSize db n,
     (0 < pageSize)%nat -> online db = true ->
     NoDup (map Expense.id (expenses db)) ->
     (forall d, In d (expenses db) -> Expense.date d <> Undefined) ->
     Exact.ExactAmounts (map Expense.amount (expenses db)) ->
     (List.length (expenses db) <= n)%nat ->
     let st := ExpensesPage.loadMoreTimes pageSize n db (ExpensesPage.mountWith pageSize db) in
     ExpensesPageUI.totalExpenses (ExpensesPage.expenses st) =
     TotalsSpec.sumExpenses (expenses db))
  /\
  (forall pageSize db n,
     (0 < pageSize)%nat -> online db = true ->
     NoDup (map Donation.id (donations db)) ->
     (forall d, In d (donations db) -> Donation.date d <> Undefined) ->
     Exact.ExactAmounts (map Donation.amount (donations db)) ->
     (List.length (donations db) <= n)%nat ->
     let st := DonorsPage.loadMoreTimes pageSize n db (DonorsPage.mountWith pageSize db) in
     DonorsPage.error st = None ->
     DonorsPageUI.totalDonations (DonorsPage.donors st) =
     AggregationSpec.sumAmounts (donations db)).
Proof.
  split; intros pageSize db n Hsize Ho Hids Hdated _ Hn st.
  - pose proof (@expenses_paging_view pageSize db n Ho) as Hv. fold st in Hv.
    destruct (@paging_complete Expense.t Expense.document (expenses db) Hids pageSize Hsize n
                (expensesView ExpensesPage.initialState) Hn) as [_ Hitems].
    unfold collection_expenses in Hv. rewrite <- Hv in Hitems.
    destruct (@complete_view Expense.t Expense.document (expenses db) (expensesView st)
                Hids (Expense_AllDated _ Hdated) Hitems) as [Hperm _].
    rewrite totalExpenses_sum. apply sumExpenses_perm. exact Hperm.
  - intros Herr.
    pose proof (@donors_paging_view pageSize db n Ho) as Hv. fold st in Hv.
    destruct (@paging_complete Donation.t Donation.document (donations db) Hids pageSize Hsize n
                (donorsView DonorsPage.initialState) Hn) as [_ Hitems].
    rewrite <- Hv in Hitems.
    destruct (@complete_view Donation.t Donation.document (donations db) (donorsView st)
                Hids (Donation_AllDated _ Hdated) Hitems) as [Hperm _].
    assert (Hrows : DonorsPage.processDonations (DonorsPage.allDonations st) =
                    Ok (DonorsPage.donors st)).
    { apply (loadMoreTimes_settled pageSize db n); [|exact Herr].
      apply (fetchDonors_settles pageSize true db DonorsPage.initialState). }
    rewrite totalDonations_sum, (processDonations_sum _ Hrows).
    apply sumAmounts_perm. exact Hperm.
Qed.

Lemma totals_after_loading_everything_witness :
  let st := ExpensesPage.loadMoreTimes 2 3 Samples.smallDb
              (ExpensesPage.mountWith 2 Samples.smallDb) in
  let st' := DonorsPage.loadMoreTimes 2 3 Samples.smallDb
               (DonorsPage.mountWith 2 Samples.smallDb) in
  ExpensesPageUI.totalExpenses (ExpensesPage.expenses st) =
    TotalsSpec.sumExpenses (expenses Samples.smallDb) /\
  DonorsPageUI.totalDonations (DonorsPage.donors st') =
    AggregationSpec.sumAmounts (donations Samples.smallDb).
Proof.
  split.
  - apply (proj1 totals_after_loading_everything 2%nat Samples.smallDb 3%nat).
    + lia.
    + reflexivity.
    + simpl. repeat constructor; simpl; intuition discriminate.
    + simpl. intros d [<-|[<-|[<-|[]]]]; discriminate.
    + unfold Exact.ExactAmounts, Exact.maxExact. simpl. lia.
    + simpl. lia.
  - apply (proj2 totals_after_loading_everything 2%nat Samples.smallDb 3%nat).
    + lia.
    + reflexivity.
    + simpl. repeat constructor; simpl; intuition discriminate.
    + simpl. intros d [<-|[<-|[<-|[]]]]; discriminate.
    + unfold Exact.ExactAmounts, Exact.maxExact. simpl. lia.
    + simpl. lia.
    + vm_compute. reflexivity.
Defined.

(** ** The expenses page: refreshing the list after a change *)
Section RefreshFacts.
Import Firestore.
Context {A : Type} `{Document A}.

(** Every document of a page fetched after a cursor comes strictly
    after the cursor in the order of the query. *)
Lemma runQuery_after_cursor coll (q : Query A) c d :
  cursorOf q = Some c -> In d (runQuery coll q) ->
  isLt (docCompare (ordersOf q) c d) = true.
Proof.
  unfold runQuery. intros ->. intros Hin.
  assert (Hrest : In d (filter (fun d => isLt (docCompare (ordersOf q) c d))
                          (sortBy (docCompare (ordersOf q))
                             (filter (fun d => forallb (satisfies d) (filtersOf q) &&
                                               forallb (hasField d) (ordersOf q)) coll)))).
  { destruct (limitOf q); [eapply In_firstn; eauto|exact Hin]. }
  apply filter_In in Hrest. tauto.
Qed.

End RefreshFacts.

(** What [fetchExpenses()] does to the list: it appends a page of
    documents of the store. *)
Lemma fetchExpenses_appends pageSize db st :
  exists page,
    ExpensesPage.expenses (ExpensesPage.fetchExpensesWith pageSize false db st) =
    ExpensesPage.expenses st ++ page /\
    (forall e, In e page -> In e (expenses db)) /\
    (online db = true ->
     page = Firestore.runQuery (expenses db) (ExpensesPage.expensesQuery pageSize false st)).
Proof.
  unfold ExpensesPage.fetchExpensesWith, getDocs, collection_expenses.
  destruct (online db); simpl.
  - eexists. split; [reflexivity|]. split; [|reflexivity].
    intros e Hin. apply (@runQuery_In Expense.t Expense.document) in Hin. tauto.
  - exists []. rewrite app_nil_r. split; [reflexivity|]. split; [intros e []|discriminate].
Qed.

(** X11 - deleting an expense.  With an expense selected and the store
    answering, [handleDelete] removes from the store exactly the
    documents with the id of the selected expense, closes the dialog and
    drops the selection; the list on the page is the list as it was,
    followed by a page of documents of the store, so the row of the
    deleted expense, if it was listed, is still listed.  When the store
    does not answer, nothing is deleted, the error is recorded and the
    list, the dialog and the selection stay as they are.  With nothing
    selected the handler does nothing. *)
Theorem delete_keeps_the_row_listed :
  forall pageSize db p,
    let out := ExpensesPageUI.handleDeleteWith pageSize db p in
    (forall selected,
       ExpensesPageUI.selectedExpense p = Some selected -> online db = true ->
       (forall e, In e (expenses (fst out)) <->
                  In e (expenses db) /\ Expense.id e <> Expense.id selected) /\
       ExpensesPageUI.selectedExpense (snd out) = None /\
       ExpensesPageUI.isDeleteModalOpen (snd out) = false /\
       ExpensesPageUI.isDeleting (snd out) = false /\
       (exists page,
          ExpensesPage.expenses (ExpensesPageUI.listing (snd out)) =
          ExpensesPage.expenses (ExpensesPageUI.listing p) ++ page /\
          forall e, In e page -> In e (expenses (fst out))) /\
       (In selected (ExpensesPage.expenses (ExpensesPageUI.listing p)) ->
        In selected (ExpensesPage.expenses (ExpensesPageUI.listing (snd out))))) /\
    (forall selected,
       ExpensesPageUI.selectedExpense p = Some selected -> online db = false ->
       fst out = db /\
       ExpensesPage.error (ExpensesPageUI.listing (snd out)) =
         Some ExpensesPageUI.failedToDelete /\
       ExpensesPage.expenses (ExpensesPageUI.listing (snd out)) =
         ExpensesPage.expenses (ExpensesPageUI.listing p) /\
       ExpensesPageUI.selectedExpense (snd out) = Some selected /\
       ExpensesPageUI.isDeleteModalOpen (snd out) = ExpensesPageUI.isDeleteModalOpen p /\
       ExpensesPageUI.isDeleting (snd out) = false) /\
    (ExpensesPageUI.selectedExpense p = None -> out = (db, p)).
Proof.
  intros pageSize db p out. subst out. unfold ExpensesPageUI.handleDeleteWith.
  split; [|split].
  - intros selected Hsel Ho. rewrite Hsel.
    unfold ExpensesPageUI.deleteDoc, collection_expenses. rewrite Ho. simpl.
    set (db' := ExpensesPageUI.setExpenses _ db).
    destruct (fetchExpenses_appends pageSize db' (ExpensesPageUI.listing p))
      as (page & Hlist & Hpage & _).
    split; [|repeat split; auto].
    + intros e. rewrite filter_In, negb_true_iff.
      destruct (String.eqb_spec (Expense.id e) (Expense.id selected)); intuition congruence.
    + exists page. split; [exact Hlist|exact Hpage].
    + intros Hin. rewrite Hlist. apply in_or_app. now left.
  - intros selected Hsel Ho. rewrite Hsel.
    unfold ExpensesPageUI.deleteDoc. rewrite Ho. simpl. repeat split; auto.
  - intros ->. reflexivity.
Qed.

Lemma delete_keeps_the_row_listed_witness :
  let out := ExpensesPageUI.handleDeleteWith 2 Samples.smallDb MoreSamples.deleting in
  (forall e, In e (expenses (fst out)) <->
             In e (expenses Samples.smallDb) /\ Expense.id e <> Expense.id MoreSamples.rent) /\
  ExpensesPageUI.selectedExpense (snd out) = None /\
  ExpensesPageUI.isDeleteModalOpen (snd out) = false /\
  ExpensesPageUI.isDeleting (snd out) = false /\
  (exists page,
     ExpensesPage.expenses (ExpensesPageUI.listing (snd out)) =
     ExpensesPage.expenses (ExpensesPageUI.listing MoreSamples.deleting) ++ page /\
     forall e, In e page -> In e (expenses (fst out))) /\
  (In MoreSamples.rent (ExpensesPage.expenses (ExpensesPageUI.listing MoreSamples.deleting)) ->
   In MoreSamples.rent (ExpensesPage.expenses (ExpensesPageUI.listing (snd out)))).
Proof.
  apply (proj1 (delete_keeps_the_row_listed 2 Samples.smallDb MoreSamples.deleting)
           MoreSamples.rent).
  - reflexivity.
  - reflexivity.
Defined.

(** X12 - refreshing after a change only appends.  After an expense
    was added or edited, [handleAddSuccess] and [handleEditSuccess]
    fetch with [fetchExpenses()]: the rows already listed stay as they
    were listed and a page is appended.  In Default mode with a cursor,
    an expense that is not yet listed and whose date is later than the
    date of the cursor record is not listed afterwards either, whatever
    the store holds. *)
Theorem refresh_after_change_only_appends :
  forall pageSize db p,
    (exists page,
       ExpensesPage.expenses
         (ExpensesPageUI.listing (ExpensesPageUI.handleAddSuccessWith pageSize db p)) =
       ExpensesPage.expenses (ExpensesPageUI.listing p) ++ page) /\
    (exists page,
       ExpensesPage.expenses
         (ExpensesPageUI.listing (ExpensesPageUI.handleEditSuccessWith pageSize db p)) =
       ExpensesPage.expenses (ExpensesPageUI.listing p) ++ page) /\
    (forall cursor e,
       ExpensesPage.searchTerm (ExpensesPageUI.listing p) = "" ->
       ExpensesPage.lastVisible (ExpensesPageUI.listing p) = Some cursor ->
       Firestore.valueCompare (Expense.date e) (Expense.date cursor) = Gt ->
       ~ In e (ExpensesPage.expenses (ExpensesPageUI.listing p)) ->
       ~ In e (ExpensesPage.expenses
                 (ExpensesPageUI.listing (ExpensesPageUI.handleAddSuccessWith pageSize db p)))).
Proof.
  intros pageSize db p.
  destruct (fetchExpenses_appends pageSize db (ExpensesPageUI.listing p))
    as (page & Hlist & _ & Hpage).
  split; [|split].
  - exists page. exact Hlist.
  - exists page. exact Hlist.
  - intros cursor e Hterm Hcur Hnewer Hnot Hin.
    simpl in Hin. rewrite Hlist in Hin. apply in_app_or in Hin.
    destruct Hin as [Hin|Hin]; [contradiction|].
    destruct (online db) eqn:Ho.
    + rewrite (Hpage eq_refl) in Hin.
      rewrite (expensesQuery_default pageSize false _ Hterm), Hcur in Hin.
      apply (@runQuery_after_cursor Expense.t Expense.document _ _ cursor) in Hin;
        [|reflexivity].
      unfold Firestore.docCompare in Hin. simpl in Hin.
      rewrite (@valueCompare_antisym (Expense.date e) (Expense.date cursor)), Hnewer in Hin.
      simpl in Hin. discriminate.
    + unfold ExpensesPage.fetchExpensesWith, getDocs in Hlist. rewrite Ho in Hlist.
      simpl in Hlist. apply (f_equal (@List.length _)) in Hlist.
      rewrite length_app in Hlist. destruct page; [contradiction|simpl in Hlist; lia].
Qed.

Lemma refresh_after_change_only_appends_witness :
  ~ In MoreSamples.newer
      (ExpensesPage.expenses
         (ExpensesPageUI.listing
            (ExpensesPageUI.handleAddSuccessWith 2 MoreSamples.grownDb MoreSamples.listedPage))).
Proof.
  apply (proj2 (proj2 (refresh_after_change_only_appends 2 MoreSamples.grownDb
                         MoreSamples.listedPage)) MoreSamples.paper MoreSamples.newer).
  - reflexivity.
  - reflexivity.
  - reflexivity.
  - vm_compute. intros [H|[H|[]]]; discriminate.
Defined.

(** ** Numbers written and read back *)
Section NumberTextFacts.
Import Browser NumberText.

Lemma isDigit_code c : isDigit c = true <-> (48 <= nat_of_ascii c <= 57)%nat.
Proof.
  unfold isDigit. rewrite andb_true_iff, !Nat.leb_le. tauto.
Qed.

Lemma ascii_code_neq c (n : nat) :
  (n < 256)%nat -> nat_of_ascii c <> n -> (c =? ascii_of_nat n)%char = false.
Proof.
  intros Hlt Hne. apply Ascii.eqb_neq. intros ->. apply Hne.
  now apply nat_ascii_embedding.
Qed.

(** A digit is no white space, no sign and no radix letter. *)
Lemma digit_plain c :
  isDigit c = true ->
  isWhiteSpace c = false /\ (c =? "-")%char = false /\ (c =? "+")%char = false /\
  (c =? "x")%char = false /\ (c =? "X")%char = false /\ (c =? ".")%char = false /\
  radixDigit 10 c = Some (digitOf c) /\ (0 <= digitOf c <= 9)%Z.
Proof.
  intros Hd. pose proof (proj1 (isDigit_code c) Hd) as Hc.
  unfold radixDigit. rewrite Hd.
  repeat split; try (unfold digitOf; lia).
  - unfold isWhiteSpace. apply orb_false_iff. split.
    + apply Nat.eqb_neq. lia.
    + apply andb_false_iff. right. apply Nat.leb_gt. lia.
  - apply (@ascii_code_neq c 45); lia.
  - apply (@ascii_code_neq c 43); lia.
  - apply (@ascii_code_neq c 120); lia.
  - apply (@ascii_code_neq c 88); lia.
  - apply (@ascii_code_neq c 46); lia.
Qed.

(** The character written for a digit value. *)
Lemma digit_char (n : Z) :
  (0 <= n < 10)%Z ->
  let c := ascii_of_nat (48 + Z.to_nat n) in
  isDigit c = true /\ digitOf c = n.
Proof.
  intros Hn c. subst c.
  assert (Hcode : nat_of_ascii (ascii_of_nat (48 + Z.to_nat n)) = (48 + Z.to_nat n)%nat).
  { apply nat_ascii_embedding. lia. }
  split.
  - apply isDigit_code. rewrite Hcode. lia.
  - unfold digitOf. rewrite Hcode. lia.
Qed.

(** Reading digits: the value read is the one the digits write. *)
Lemma readDigits_all (s : string) : forall a,
  allDigits s = true ->
  readDigits 10 s (Some a) =
  Some (fold_left (fun a c => a * 10 + digitOf c)%Z (list_ascii_of_string s) a).
Proof.
  unfold allDigits. induction s as [|c s IH]; intros a Hs; simpl in *; [reflexivity|].
  apply andb_true_iff in Hs. destruct Hs as [Hc Hs].
  destruct (digit_plain c Hc) as (_ & _ & _ & _ & _ & _ & Hr & _).
  rewrite Hr. now apply IH.
Qed.

Lemma readDigits_value (s : string) :
  s <> "" -> allDigits s = true ->
  readDigits 10 s None = Some (decimalValue s).
Proof.
  destruct s as [|c s]; [congruence|]. intros _ Hs.
  unfold allDigits in Hs. simpl in Hs.
  apply andb_true_iff in Hs. destruct Hs as [Hc Hs].
  destruct (digit_plain c Hc) as (_ & _ & _ & _ & _ & _ & Hr & _).
  simpl. rewrite Hr. unfold decimalValue. simpl. now apply readDigits_all.
Qed.

Lemma spanDigits_all (s : string) : forall a k,
  allDigits s = true ->
  spanDigits s a k =
  (fold_left (fun a c => a * 10 + digitOf c)%Z (list_ascii_of_string s) a,
   (k + String.length s)%nat, "").
Proof.
  unfold allDigits. induction s as [|c s IH]; intros a k Hs; simpl in *.
  - now rewrite Nat.add_0_r.
  - apply andb_true_iff in Hs. destruct Hs as [Hc Hs]. rewrite Hc.
    rewrite IH by exact Hs. f_equal. f_equal. lia.
Qed.

Lemma decimalValue_nonneg (s : string) :
  allDigits s = true -> (0 <= decimalValue s)%Z.
Proof.
  unfold decimalValue, allDigits.
  assert (G : forall l a, forallb isDigit l = true -> (0 <= a)%Z ->
                (0 <= fold_left (fun a c => a * 10 + digitOf c) l a)%Z).
  { induction l as [|c l IH]; intros a Hl Ha; simpl in *; [exact Ha|].
    apply andb_true_iff in Hl. destruct Hl as [Hc Hl].
    destruct (digit_plain c Hc) as (_ & _ & _ & _ & _ & _ & _ & Hv).
    apply IH; [exact Hl|lia]. }
  intros Hs. apply G; [exact Hs|lia].
Qed.

(** [parseInt] on plain digits, with or without a minus sign. *)
Lemma parseDigits_plain sign (s : string) :
  s <> "" -> allDigits s = true ->
  parseDigits sign s = Int (sign * decimalValue s).
Proof.
  intros Hne Hs. unfold parseDigits.
  assert (E : (let '(radix, s0) :=
                 match s with
                 | String c0 (String c1 s') =>
                     if (c0 =? "0")%char && ((c1 =? "x")%char || (c1 =? "X")%char)
                     then (16%Z, s') else (10%Z, s)
                 | _ => (10%Z, s)
                 end in
               match readDigits radix s0 None with
               | Some v => Int (sign * v)
               | None => NaN
               end) =
              match readDigits 10 s None with
              | Some v => Int (sign * v)
              | None => NaN
              end).
  { destruct s as [|c0 [|c1 s']]; try reflexivity.
    unfold allDigits in Hs. simpl in Hs.
    apply andb_true_iff in Hs. destruct Hs as [_ Hs].
    apply andb_true_iff in Hs. destruct Hs as [Hc1 _].
    destruct (digit_plain c1 Hc1) as (_ & _ & _ & Hx & HX & _).
    rewrite Hx, HX, andb_false_r. reflexivity. }
  rewrite E, (readDigits_value Hne Hs). reflexivity.
Qed.

Lemma parseInt_plain (s : string) :
  s <> "" -> allDigits s = true -> parseInt s = Int (decimalValue s).
Proof.
  intros Hne Hs. destruct s as [|c s'] eqn:Es; [congruence|].
  assert (Hc : isDigit c = true).
  { unfold allDigits in Hs. simpl in Hs. apply andb_true_iff in Hs. tauto. }
  destruct (digit_plain c Hc) as (Hw & Hm & Hp & _).
  unfold parseInt. simpl. rewrite Hw, Hm, Hp.
  rewrite (parseDigits_plain 1 Hne Hs). f_equal; lia.
Qed.

Lemma parseInt_minus (s : string) :
  s <> "" -> allDigits s = true -> parseInt (String "-" s) = Int (- decimalValue s).
Proof.
  intros Hne Hs. unfold parseInt. simpl.
  rewrite (parseDigits_plain (-1) Hne Hs). f_equal; lia.
Qed.

(** Validation of plain digits, with or without a minus sign. *)
Lemma validAmount_plain (s : string) :
  s <> "" -> allDigits s = true -> validAmount s = (1 <=? decimalValue s)%Z.
Proof.
  intros Hne Hs. destruct s as [|c s'] eqn:Es; [congruence|].
  assert (Hc : isDigit c = true).
  { unfold allDigits in Hs. simpl in Hs. apply andb_true_iff in Hs. tauto. }
  destruct (digit_plain c Hc) as (_ & Hm & _).
  unfold validAmount, parseFloatingPoint. rewrite Hm.
  rewrite (spanDigits_all _ 0 0 Hs). simpl String.length. simpl.
  unfold atLeastOne, isWhole. simpl.
  rewrite andb_true_r, Z.mul_1_r. reflexivity.
Qed.

Lemma validAmount_minus (s : string) :
  allDigits s = true -> validAmount (String "-" s) = false.
Proof.
  intros Hs. unfold validAmount, parseFloatingPoint. simpl.
  rewrite (spanDigits_all _ 0 0 Hs). simpl.
  destruct (String.length s); simpl; reflexivity.
Qed.

Lemma allDigits_cons c (s : string) :
  allDigits (String c s) = isDigit c && allDigits s.
Proof. reflexivity. Qed.

Lemma fold_digits_cons c (s : string) (a : Z) :
  fold_left (fun a c => a * 10 + digitOf c)%Z (list_ascii_of_string (String c s)) a =
  fold_left (fun a c => a * 10 + digitOf c)%Z (list_ascii_of_string s) (a * 10 + digitOf c)%Z.
Proof. reflexivity. Qed.

(** What [digitsOf] writes. *)
Lemma digitsOf_step fuel n acc :
  digitsOf (S fuel) n acc =
  if (n <? 10)%Z then String (ascii_of_nat (48 + Z.to_nat (n mod 10))) acc
  else digitsOf fuel (n / 10) (String (ascii_of_nat (48 + Z.to_nat (n mod 10))) acc).
Proof. reflexivity. Qed.

Lemma digitsOf_digits fuel : forall n acc,
  (0 <= n)%Z -> allDigits acc = true -> allDigits (digitsOf fuel n acc) = true.
Proof.
  induction fuel as [|fuel IH]; intros n acc Hn Hacc; [exact Hacc|].
  rewrite digitsOf_step.
  assert (Hd : allDigits (String (ascii_of_nat (48 + Z.to_nat (n mod 10))) acc) = true).
  { rewrite allDigits_cons, Hacc, andb_true_r.
    apply (@digit_char (n mod 10)). apply Z.mod_pos_bound. lia. }
  destruct (n <? 10)%Z; [exact Hd|].
  apply IH; [apply Z.div_pos; lia|exact Hd].
Qed.

Lemma digitsOf_nonempty fuel n acc : digitsOf (S fuel) n acc <> "".
Proof.
  revert n acc. induction fuel as [|fuel IH]; intros n acc; rewrite digitsOf_step.
  - destruct (n <? 10)%Z; discriminate.
  - destruct (n <? 10)%Z; [discriminate|apply IH].
Qed.

Lemma digitsOf_value fuel : forall n acc,
  (0 <= n < 10 ^ Z.of_nat (S fuel))%Z ->
  fold_left (fun a c => a * 10 + digitOf c)%Z
    (list_ascii_of_string (digitsOf (S fuel) n acc)) 0%Z =
  fold_left (fun a c => a * 10 + digitOf c)%Z (list_ascii_of_string acc) n.
Proof.
  induction fuel as [|fuel IH]; intros n acc Hn; rewrite digitsOf_step.
  - assert (Hlt : (n < 10)%Z) by (change (10 ^ Z.of_nat 1)%Z with 10%Z in Hn; lia).
    destruct (Z.ltb_spec n 10); [|lia].
    rewrite fold_digits_cons.
    rewrite (proj2 (@digit_char (n mod 10) ltac:(apply Z.mod_pos_bound; lia))).
    rewrite Z.mod_small by lia. reflexivity.
  - destruct (Z.ltb_spec n 10) as [Hlt|Hge].
    + rewrite fold_digits_cons.
      rewrite (proj2 (@digit_char (n mod 10) ltac:(apply Z.mod_pos_bound; lia))).
      rewrite Z.mod_small by lia. reflexivity.
    + rewrite IH.
      * rewrite fold_digits_cons.
        rewrite (proj2 (@digit_char (n mod 10) ltac:(apply Z.mod_pos_bound; lia))).
        f_equal. pose proof (Z.div_mod n 10 ltac:(lia)). lia.
      * split; [apply Z.div_pos; lia|].
        apply Z.div_lt_upper_bound; [lia|].
        replace (Z.of_nat (S (S fuel))) with (Z.succ (Z.of_nat (S fuel))) in Hn by lia.
        rewrite Z.pow_succ_r in Hn by lia. lia.
Qed.

(** A number below [10^21] is read back from its digits. *)
Lemma decimalValue_digitsOf n :
  (0 <= n < 10 ^ 21)%Z -> decimalValue (digitsOf 21 n "") = n.
Proof.
  intros Hn. unfold decimalValue. rewrite (@digitsOf_value 20 n ""); [reflexivity|].
  exact Hn.
Qed.

End NumberTextFacts.

(** ** The donation form: what is typed and what is written *)

(** X13 - an amount typed in plain digits is written as typed.  When
    the amount field holds decimal digits only and the number they
    write is at most [2^53] (so that it is a double, and [parseInt]
    returns it without rounding), the browser accepts the field exactly
    when the number is at least 1, and every write that the submission
    sends carries exactly that number as [amount]. *)
Theorem typed_digits_are_stored :
  forall (text : string) donation formData storeAnswers,
    text <> "" ->
    NumberText.allDigits text = true ->
    (NumberText.decimalValue text <= Exact.maxExact)%Z ->
    let typed := DonationFormUI.handleChange "amount" text formData in
    Browser.validAmount (DonationForm.amount typed) =
      (1 <=? NumberText.decimalValue text)%Z /\
    (forall w,
       In w (DonationForm.writes (DonationForm.submit donation typed storeAnswers)) ->
       DonationForm.data_amount (DonationForm.dataOf w) =
         Int (NumberText.decimalValue text) /\
       (1 <= NumberText.decimalValue text)%Z).
Proof.
  intros text donation formData storeAnswers Hne Hdigits _ typed. subst typed.
  simpl DonationForm.amount.
  pose proof (validAmount_plain Hne Hdigits) as Hvalid.
  split; [exact Hvalid|].
  intros w Hw. unfold DonationForm.submit, DonationForm.checkValidity in Hw.
  simpl DonationForm.amount in Hw. rewrite Hvalid in Hw.
  destruct (1 <=? NumberText.decimalValue text)%Z eqn:Hge.
  2:{ rewrite andb_false_r in Hw. simpl in Hw. contradiction. }
  apply Z.leb_le in Hge. split; [|exact Hge].
  destruct (Browser.validRequired _ && true && _); [|simpl in Hw; contradiction].
  unfold DonationForm.handleSubmit in Hw. simpl DonationForm.amount in Hw.
  rewrite (parseInt_plain Hne Hdigits) in Hw.
  destruct storeAnswers, donation as [d|]; simpl in Hw;
    try destruct (negb (Donation.id d =? "")%string); simpl in Hw;
    destruct Hw as [<-|[]]; reflexivity.
Qed.

Lemma typed_digits_are_stored_witness :
  let typed := DonationFormUI.handleChange "amount" "250" MoreSamples.filledForm in
  Browser.validAmount (DonationForm.amount typed) = (1 <=? NumberText.decimalValue "250")%Z /\
  (forall w,
     In w (DonationForm.writes (DonationForm.submit None typed true)) ->
     DonationForm.data_amount (DonationForm.dataOf w) = Int (NumberText.decimalValue "250") /\
     (1 <= NumberText.decimalValue "250")%Z).
Proof.
  apply (@typed_digits_are_stored "250" None MoreSamples.filledForm true).
  - discriminate.
  - reflexivity.
  - vm_compute. discriminate.
Defined.

Section EditFacts.
Import NumberText.

(** The text of a stored amount reads back as the amount, and is valid
    exactly when the amount is at least 1. *)
Lemma numberToString_reads_back n text :
  numberToString n = Some text ->
  Browser.parseInt text = Int n /\ Browser.validAmount text = (1 <=? n)%Z.
Proof.
  unfold numberToString. destruct (Z.ltb_spec (Z.abs n) (10 ^ 21)) as [Hlt|]; [|discriminate].
  set (written := if (n <? 0)%Z then _ else _).
  intros Htext. injection Htext as <-. subst written.
  destruct (Z.ltb_spec n 0) as [Hneg|Hpos].
  - assert (Hd : allDigits (digitsOf 21 (- n) "") = true)
      by (apply digitsOf_digits; [lia|reflexivity]).
    pose proof (@digitsOf_nonempty 20 (- n) "") as Hne.
    rewrite (parseInt_minus Hne Hd), (validAmount_minus _ Hd).
    rewrite decimalValue_digitsOf by lia. split; [f_equal; lia|].
    symmetry. apply Z.leb_gt. lia.
  - assert (Hd : allDigits (digitsOf 21 n "") = true)
      by (apply digitsOf_digits; [lia|reflexivity]).
    pose proof (@digitsOf_nonempty 20 n "") as Hne.
    rewrite (parseInt_plain Hne Hd), (validAmount_plain Hne Hd).
    rewrite decimalValue_digitsOf by lia. split; reflexivity.
Qed.

End EditFacts.

(** X14 - editing a donation without changing it.  When the form was
    filled from a stored donation, the amount text reads back as the
    stored amount; the amount field is valid exactly when the stored
    amount is at least 1; and a submission that the browser lets
    through sends one update of the donation's document, carrying the
    stored donor, amount and purpose, and the notes ([null] when there
    are none). *)
Theorem edit_round_trip :
  forall d formData storeAnswers,
    DonationFormUI.formDataOf (Some d) = Some formData ->
    Browser.parseInt (DonationForm.amount formData) = Int (Donation.amount d) /\
    Browser.validAmount (DonationForm.amount formData) = (1 <=? Donation.amount d)%Z /\
    (DonationForm.checkValidity formData = true ->
     Donation.id d <> "" ->
     DonationForm.writes (DonationForm.submit (Some d) formData storeAnswers) =
     [ DonationForm.updateDoc "donations" (Donation.id d)
         {| DonationForm.data_donor := Donation.donor d;
            DonationForm.data_amount := Int (Donation.amount d);
            DonationForm.data_purpose := Donation.purpose d;
            DonationForm.data_notes :=
              match Donation.notes d with
              | Some n => if (n =? "")%string then None else Some n
              | None => None
              end |} ]).
Proof.
  intros d formData storeAnswers Hform.
  unfold DonationFormUI.formDataOf in Hform.
  destruct (NumberText.numberToString (Donation.amount d)) as [text|] eqn:Htext;
    [|discriminate].
  injection Hform as <-.
  destruct (numberToString_reads_back _ Htext) as [Hparse Hvalid].
  split; [exact Hparse|]. split.
  - exact Hvalid.
  - intros Hok Hid. unfold DonationForm.submit. rewrite Hok.
    unfold DonationForm.handleSubmit. simpl. rewrite Hparse.
    assert (Hid' : negb (Donation.id d =? "")%string = true).
    { apply negb_true_iff, String.eqb_neq. exact Hid. }
    rewrite Hid'.
    destruct storeAnswers; simpl; destruct (Donation.notes d) as [n|]; reflexivity.
Qed.

Lemma edit_round_trip_witness :
  Browser.parseInt (DonationForm.amount MoreSamples.editForm) =
    Int (Donation.amount MoreSamples.bob) /\
  Browser.validAmount (DonationForm.amount MoreSamples.editForm) =
    (1 <=? Donation.amount MoreSamples.bob)%Z /\
  (DonationForm.checkValidity MoreSamples.editForm = true ->
   Donation.id MoreSamples.bob <> "" ->
   DonationForm.writes (DonationForm.submit (Some MoreSamples.bob) MoreSamples.editForm true) =
   [ DonationForm.updateDoc "donations" (Donation.id MoreSamples.bob)
       {| DonationForm.data_donor := Donation.donor MoreSamples.bob;
          DonationForm.data_amount := Int (Donation.amount MoreSamples.bob);
          DonationForm.data_purpose := Donation.purpose MoreSamples.bob;
          DonationForm.data_notes :=
            match Donation.notes MoreSamples.bob with
            | Some n => if (n =? "")%string then None else Some n
            | None => None
            end |} ]).
Proof.
  apply (@edit_round_trip MoreSamples.bob MoreSamples.editForm true).
  reflexivity.
Defined.

(** ** The donation forms: negative amounts *)

(** X24 - the donation forms refuse negative amounts: a form whose
    amount field reads as a negative number is refused by the
    constraints declared on the amount input ([required], [min="1"])
    before [handleSubmit] runs, so no store write is attempted; hence
    no create or update sent by the forms carries a negative amount.
    [handleSubmit] itself does not validate. *)
Theorem forms_refuse_negative_amounts :
  (forall donation formData storeAnswers z,
     Browser.parseInt (DonationForm.amount formData) = Int z -> (z < 0)%Z ->
     DonationForm.submit donation formData storeAnswers =
     {| DonationForm.validationError := true; DonationForm.writes := [];
        DonationForm.error := None; DonationForm.succeeded := false |}) /\
  (forall donation formData storeAnswers d,
     Browser.parseFloatingPoint (DonationForm.amount formData) = Some d ->
     Browser.negative d = true ->
     DonationForm.submit donation formData storeAnswers =
     {| DonationForm.validationError := true; DonationForm.writes := [];
        DonationForm.error := None; DonationForm.succeeded := false |}) /\
  (forall donation formData storeAnswers w z,
     In w (DonationForm.writes (DonationForm.submit donation formData storeAnswers)) ->
     DonationForm.data_amount (DonationForm.dataOf w) = Int z -> (0 <= z)%Z) /\
  (forall member formData storeAnswers z,
     Browser.parseInt (MemberDonationForm.amount formData) = Int z -> (z < 0)%Z ->
     MemberDonationForm.writes (MemberDonationForm.submit member formData storeAnswers) = [] /\
     MemberDonationForm.validationError
       (MemberDonationForm.submit member formData storeAnswers) = true) /\
  (forall member formData storeAnswers w z,
     In w (MemberDonationForm.writes (MemberDonationForm.submit member formData storeAnswers)) ->
     MemberDonationForm.data_amount w = Int z -> (0 <= z)%Z).
Proof.
  assert (Hrej : forall s z, Browser.parseInt s = Int z -> (z < 0)%Z ->
                             Browser.validAmount s = false).
  { intros s z Hp Hz. destruct (Browser.validAmount s) eqn:Hv; auto.
    pose proof (validAmount_not_negative _ Hv Hp). lia. }
  split; [|split; [|split; [|split]]].
  - intros donation fd ans z Hp Hz. unfold DonationForm.submit, DonationForm.checkValidity.
    rewrite (Hrej _ _ Hp Hz), andb_false_r. reflexivity.
  - intros donation fd ans d Hp Hn. unfold DonationForm.submit, DonationForm.checkValidity.
    rewrite (validAmount_negative_value _ Hp Hn), andb_false_r. reflexivity.
  - intros donation fd ans w z. unfold DonationForm.submit, DonationForm.checkValidity.
    destruct (Browser.validAmount (DonationForm.amount fd)) eqn:Hv;
      [|rewrite andb_false_r; intros []].
    destruct (Browser.validRequired (DonationForm.donor fd) && true &&
              Browser.validRequired (DonationForm.purpose fd)); [|intros []].
    unfold DonationForm.handleSubmit.
    destruct ans; simpl; intros [<-|[]];
      destruct donation as [don|]; try destruct (negb (Donation.id don =? "")%string);
      simpl; intros Hp; eapply validAmount_not_negative; eauto.
  - intros member fd ans z Hp Hz.
    unfold MemberDonationForm.submit, MemberDonationForm.checkValidity.
    rewrite (Hrej _ _ Hp Hz), andb_false_r. split; reflexivity.
  - intros member fd ans w z.
    unfold MemberDonationForm.submit, MemberDonationForm.checkValidity.
    destruct (Browser.validAmount (MemberDonationForm.amount fd)) eqn:Hv;
      [|rewrite andb_false_r; intros []].
    destruct (Browser.validRequired (MemberDonationForm.memberId fd) && true &&
              Browser.validRequired (MemberDonationForm.purpose fd)); [|intros []].
    unfold MemberDonationForm.handleSubmit.
    destruct member as [[mn mi]|]; [|intros []].
    destruct ans; simpl; intros [<-|[]]; simpl; intros Hp;
      eapply validAmount_not_negative; eauto.
Qed.

Lemma forms_refuse_negative_amounts_witness :
  DonationForm.submit None
    {| DonationForm.donor := "Asha"; DonationForm.amount := "-5";
       DonationForm.purpose := "Education"; DonationForm.notes := "" |} true =
  {| DonationForm.validationError := true; DonationForm.writes := [];
     DonationForm.error := None; DonationForm.succeeded := false |}.
Proof.
  apply (proj1 forms_refuse_negative_amounts None _ true (-5)%Z).
  - reflexivity.
  - lia.
Defined.

(** ** The member donation form: the member chosen *)

(** X15 - the donor written is the member chosen.  After a member
    option was chosen, whatever is then typed in the amount, purpose and
    notes fields: every write of a submission carries the chosen option
    as [memberId] and, as [donor], the name of the first member of the
    list with that id; and when no member of the list has the chosen id
    (the placeholder option), nothing is written. *)
Theorem member_choice_decides_donor :
  forall value st amountText purposeText notesText storeAnswers,
    let chosen := MemberDonationFormUI.handleMemberChange value st in
    let filled :=
      MemberDonationFormUI.handleChange "notes" notesText
        (MemberDonationFormUI.handleChange "purpose" purposeText
           (MemberDonationFormUI.handleChange "amount" amountText chosen)) in
    let out := MemberDonationFormUI.submitState filled storeAnswers in
    (forall w, In w (MemberDonationForm.writes out) ->
       MemberDonationForm.data_memberId w = value /\
       MemberDonationForm.data_purpose w = purposeText /\
       exists m,
         find (fun m => (MemberDonationFormUI.id m =? value)%string)
              (MemberDonationFormUI.members st) = Some m /\
         In m (MemberDonationFormUI.members st) /\
         MemberDonationFormUI.id m = value /\
         MemberDonationForm.data_donor w = MemberDonationFormUI.name m) /\
    ((forall m, In m (MemberDonationFormUI.members st) ->
                MemberDonationFormUI.id m <> value) ->
     MemberDonationForm.writes out = []).
Proof.
  intros value st amountText purposeText notesText storeAnswers chosen filled out.
  subst out filled chosen.
  unfold MemberDonationFormUI.submitState, MemberDonationForm.submit. simpl.
  destruct (find (fun m => (MemberDonationFormUI.id m =? value)%string)
              (MemberDonationFormUI.members st)) as [m|] eqn:Hfind.
  - pose proof (find_some _ _ Hfind) as [Hin Hid]. apply String.eqb_eq in Hid.
    split.
    + intros w Hw.
      destruct (MemberDonationForm.checkValidity _); simpl in Hw; [|contradiction].
      destruct storeAnswers; simpl in Hw; destruct Hw as [<-|[]]; simpl;
        (split; [exact Hid|split; [reflexivity|exists m; auto]]).
    + intros Hnone. exfalso. exact (Hnone m Hin Hid).
  - split.
    + intros w Hw.
      destruct (MemberDonationForm.checkValidity _); simpl in Hw; contradiction.
    + intros _. destruct (MemberDonationForm.checkValidity _); reflexivity.
Qed.

(** ** Choosing the participants of an activity *)
Section ParticipantFacts.
Import ActivityParticipants.

Lemma includes_In l x : includes l x = true <-> In x l.
Proof.
  unfold includes. rewrite existsb_exists. split.
  - intros (y & Hin & Heq). apply String.eqb_eq in Heq. now subst.
  - intros Hin. exists x. split; [exact Hin|apply String.eqb_refl].
Qed.

Lemma remove_In memberId l x :
  In x (filter (fun id => negb (id =? memberId)%string) l) <-> In x l /\ x <> memberId.
Proof.
  rewrite filter_In, negb_true_iff, String.eqb_neq. tauto.
Qed.

Lemma remove_absent memberId l :
  ~ In memberId l -> filter (fun id => negb (id =? memberId)%string) l = l.
Proof.
  intros Hnot. apply filter_all. intros x Hin.
  apply negb_true_iff, String.eqb_neq. intros ->. contradiction.
Qed.

Lemma remove_NoDup memberId l :
  NoDup l -> NoDup (filter (fun id => negb (id =? memberId)%string) l).
Proof. apply NoDup_filter. Qed.

Lemma remove_length memberId l :
  (List.length (filter (fun id => negb (id =? memberId)%string) l) <= List.length l)%nat.
Proof. apply filter_length_le. Qed.

(** One click keeps a selection without duplicates and within the
    limit. *)
Lemma toggle_valid maxParticipants memberId prev :
  NoDup prev ->
  (forall m, maxParticipants = Some m -> m <> 0%Z ->
             (Z.of_nat (List.length prev) <= m)%Z) ->
  NoDup (handleMemberToggle maxParticipants memberId prev) /\
  (forall m, maxParticipants = Some m -> m <> 0%Z ->
     (Z.of_nat (List.length (handleMemberToggle maxParticipants memberId prev)) <= m)%Z).
Proof.
  intros Hnd Hlim. unfold handleMemberToggle.
  destruct (includes prev memberId) eqn:Hinc.
  - split; [now apply remove_NoDup|].
    intros m Hm Hm0. pose proof (remove_length memberId prev). specialize (Hlim m Hm Hm0). lia.
  - assert (Hnot : ~ In memberId prev).
    { intros Hin. apply includes_In in Hin. congruence. }
    destruct (limitReached maxParticipants prev) eqn:Hreached.
    + split; [exact Hnd|exact Hlim].
    + split.
      * apply NoDup_app; [exact Hnd|repeat constructor; simpl; tauto|].
        intros x Hx [<-|[]]. contradiction.
      * intros m Hm Hm0. subst maxParticipants. unfold limitReached in Hreached.
        simpl in Hreached. apply andb_false_iff in Hreached.
        destruct Hreached as [Hz|Hlt].
        -- apply negb_false_iff, Z.eqb_eq in Hz. contradiction.
        -- apply Z.leb_gt in Hlt. rewrite length_app. simpl. lia.
Qed.

Lemma clicks_valid maxParticipants memberIds : forall selected,
  NoDup selected ->
  (forall m, maxParticipants = Some m -> m <> 0%Z ->
             (Z.of_nat (List.length selected) <= m)%Z) ->
  NoDup (clicks maxParticipants memberIds selected) /\
  (forall m, maxParticipants = Some m -> m <> 0%Z ->
     (Z.of_nat (List.length (clicks maxParticipants memberIds selected)) <= m)%Z).
Proof.
  unfold clicks.
  induction memberIds as [|memberId rest IH]; intros selected Hnd Hlim; simpl.
  - split; assumption.
  - destruct (@toggle_valid maxParticipants memberId selected Hnd Hlim) as [Hnd' Hlim'].
    apply IH; assumption.
Qed.

End ParticipantFacts.

(** X16 - what a click on a member changes: after
    [handleMemberToggle], a member other than the one clicked is
    selected exactly when it was before; the member clicked is selected
    exactly when it was not selected before and the limit was not
    reached; and the members that stay selected keep their order. *)
Theorem toggle_flips_membership :
  forall maxParticipants memberId prev,
    let next := ActivityParticipants.handleMemberToggle maxParticipants memberId prev in
    (forall x, x <> memberId -> (In x next <-> In x prev)) /\
    (In memberId next <->
     ~ In memberId prev /\ ActivityParticipants.limitReached maxParticipants prev = false) /\
    filter (fun id => negb (id =? memberId)%string) next =
    filter (fun id => negb (id =? memberId)%string) prev.
Proof.
  intros maxParticipants memberId prev next. subst next.
  unfold ActivityParticipants.handleMemberToggle.
  destruct (ActivityParticipants.includes prev memberId) eqn:Hinc.
  - assert (Hin : In memberId prev) by (now apply includes_In).
    split; [|split].
    + intros x Hx. rewrite remove_In. tauto.
    + rewrite remove_In. tauto.
    + apply filter_all. intros x Hx. apply remove_In in Hx.
      apply negb_true_iff, String.eqb_neq. tauto.
  - assert (Hnot : ~ In memberId prev).
    { intros Hin. apply includes_In in Hin. congruence. }
    destruct (ActivityParticipants.limitReached maxParticipants prev) eqn:Hreached.
    + split; [tauto|]. split; [|reflexivity].
      split; [contradiction|intros [_ H]; discriminate].
    + split; [|split].
      * intros x Hx. rewrite in_app_iff. simpl. intuition congruence.
      * rewrite in_app_iff. simpl. tauto.
      * rewrite filter_app. simpl. rewrite String.eqb_refl. simpl. apply app_nil_r.
Qed.

(** X17 - the selection that is saved.  Starting from a list of
    participants without duplicates and within the limit of the
    activity (when it has one that is not 0), after any series of
    clicks the selection has no duplicates and is within the limit, and
    [handleSave] sends one update that carries the selection as
    [participants] and its length as [currentParticipants]. *)
Theorem saved_participants_are_valid :
  forall maxParticipants memberIds participants storeAnswers,
    NoDup participants ->
    (forall m, maxParticipants = Some m -> m <> 0%Z ->
               (Z.of_nat (List.length participants) <= m)%Z) ->
    let selected := ActivityParticipants.clicks maxParticipants memberIds participants in
    ActivityParticipants.writes (ActivityParticipants.handleSave selected storeAnswers) =
      [ {| ActivityParticipants.participants := selected;
           ActivityParticipants.currentParticipants := Z.of_nat (List.length selected) |} ] /\
    NoDup selected /\
    (forall m, maxParticipants = Some m -> m <> 0%Z ->
               (Z.of_nat (List.length selected) <= m)%Z).
Proof.
  intros maxParticipants memberIds participants storeAnswers Hnd Hlim selected.
  destruct (@clicks_valid maxParticipants memberIds participants Hnd Hlim) as [Hnd' Hlim'].
  fold selected in Hnd', Hlim'.
  split; [|split; assumption].
  unfold ActivityParticipants.handleSave. destruct storeAnswers; reflexivity.
Qed.

Lemma saved_participants_are_valid_witness :
  let selected := ActivityParticipants.clicks (Some 2%Z) ["m1"; "m2"; "m3"; "m1"] [] in
  ActivityParticipants.writes (ActivityParticipants.handleSave selected true) =
    [ {| ActivityParticipants.participants := selected;
         ActivityParticipants.currentParticipants := Z.of_nat (List.length selected) |} ] /\
  NoDup selected /\
  (forall m, Some 2%Z = Some m -> m <> 0%Z ->
             (Z.of_nat (List.length selected) <= m)%Z).
Proof.
  apply (@saved_participants_are_valid (Some 2%Z) ["m1"; "m2"; "m3"; "m1"] [] true).
  - constructor.
  - intros m Hm _. injection Hm as <-. simpl. lia.
Defined.

(** X18 - a second click undoes the first: clicking twice on a member
    that was not selected, while the limit is not reached, gives back
    the selection as it was; clicking twice on a selected member of a
    selection without duplicates removes it and puts it back at the
    end. *)
Theorem toggle_twice :
  forall maxParticipants memberId prev,
    let once := ActivityParticipants.handleMemberToggle maxParticipants memberId prev in
    let twice := ActivityParticipants.handleMemberToggle maxParticipants memberId once in
    (~ In memberId prev -> twice = prev) /\
    (In memberId prev ->
     ActivityParticipants.limitReached maxParticipants once = false ->
     twice = filter (fun id => negb (id =? memberId)%string) prev ++ [memberId]).
Proof.
  intros maxParticipants memberId prev once twice. subst twice once.
  destruct (ActivityParticipants.includes prev memberId) eqn:Hinc.
  - assert (Hin : In memberId prev) by (now apply includes_In).
    assert (Honce : ActivityParticipants.handleMemberToggle maxParticipants memberId prev =
                    filter (fun id => negb (id =? memberId)%string) prev).
    { unfold ActivityParticipants.handleMemberToggle. now rewrite Hinc. }
    rewrite Honce. split; [contradiction|]. intros _ Hroom.
    assert (Hgone : ActivityParticipants.includes
                      (filter (fun id => negb (id =? memberId)%string) prev) memberId = false).
    { destruct (ActivityParticipants.includes
                  (filter (fun id => negb (id =? memberId)%string) prev) memberId) eqn:E;
        [|reflexivity].
      apply includes_In, remove_In in E. tauto. }
    unfold ActivityParticipants.handleMemberToggle. rewrite Hgone, Hroom. reflexivity.
  - assert (Hnot : ~ In memberId prev).
    { intros Hin. apply includes_In in Hin. congruence. }
    split; [|contradiction]. intros _.
    destruct (ActivityParticipants.limitReached maxParticipants prev) eqn:Hreached.
    + assert (Honce : ActivityParticipants.handleMemberToggle maxParticipants memberId prev =
                      prev).
      { unfold ActivityParticipants.handleMemberToggle. now rewrite Hinc, Hreached. }
      rewrite Honce. exact Honce.
    + assert (Honce : ActivityParticipants.handleMemberToggle maxParticipants memberId prev =
                      prev ++ [memberId]).
      { unfold ActivityParticipants.handleMemberToggle. now rewrite Hinc, Hreached. }
      rewrite Honce. unfold ActivityParticipants.handleMemberToggle.
      assert (Hthere : ActivityParticipants.includes (prev ++ [memberId]) memberId = true).
      { apply includes_In, in_or_app. right. now left. }
      rewrite Hthere, filter_app. simpl. rewrite String.eqb_refl. simpl.
      rewrite app_nil_r. now apply remove_absent.
Qed.

(** ** The history shown for the chosen member *)

Lemma string_compare_Eq_eqb (s t : string) :
  match String.compare s t with Eq => true | _ => false end = (s =? t)%string.
Proof.
  destruct (String.eqb_spec s t) as [->|Hne].
  - now rewrite string_compare_refl.
  - destruct (String.compare s t) eqn:E; try reflexivity.
    apply string_compare_eq in E. contradiction.
Qed.

(** X20 - the history of a member is found by name.  When the store
    answers and the donations hold whole amounts with magnitudes summing
    to at most [2^53] (so that no addition of the code rounds), the
    history fetched for the chosen member holds exactly the donations of
    the collection that carry a date and whose donor equals the member's
    name (whether or not they carry the member's id), each once, later
    dates first; "Total Contributions" is the sum of their amounts; and
    "Recent Contributions" shows the first five of them: all of them
    when there are at most five, and otherwise five, followed in the
    history by the older ones. *)
Theorem member_history_is_found_by_name :
  forall db member previous,
    online db = true ->
    Exact.ExactAmounts (map Donation.amount (donations db)) ->
    let history := MemberHistory.fetchMemberDonations db (Some member) previous in
    let expected :=
      HistorySpec.datedDonationsOf (MemberDonationFormUI.name member) (donations db) in
    Permutation history expected /\
    StronglySorted
      (fun a b => Firestore.valueCompare (Donation.date a) (Donation.date b) <> Lt) history /\
    MemberHistory.totalContributions history = AggregationSpec.sumAmounts expected /\
    (Z.abs (MemberHistory.totalContributions history) <= Exact.maxExact)%Z /\
    List.length (MemberHistory.recentContributions history) =
      Nat.min 5 (List.length history) /\
    (exists older, history = MemberHistory.recentContributions history ++ older).
Proof.
  intros db member previous Ho Hexact history expected. subst history expected.
  unfold MemberHistory.fetchMemberDonations, getDocs, collection_donations.
  rewrite Ho. unfold Firestore.runQuery. simpl.
  set (n := MemberDonationFormUI.name member).
  assert (Hfilter :
            filter (fun d : Donation.t =>
                      (match String.compare (Donation.donor d) n with
                       | Eq => true
                       | _ => false
                       end && true) &&
                      (Firestore.hasField d ("date", Firestore.Desc) && true))
                   (donations db) =
            HistorySpec.datedDonationsOf n (donations db)).
  { unfold HistorySpec.datedDonationsOf. apply filter_ext. intros d.
    rewrite !andb_true_r, string_compare_Eq_eqb. reflexivity. }
  rewrite Hfilter.
  set (sorted := sortBy _ (HistorySpec.datedDonationsOf n (donations db))).
  assert (Hperm : Permutation sorted (HistorySpec.datedDonationsOf n (donations db)))
    by apply sortBy_perm.
  assert (Htotal : MemberHistory.totalContributions sorted =
                   AggregationSpec.sumAmounts (HistorySpec.datedDonationsOf n (donations db))).
  { unfold MemberHistory.totalContributions.
    assert (G : forall l a,
               fold_left (fun sum donation => (sum + Donation.amount donation)%Z) l a =
               (a + AggregationSpec.sumAmounts l)%Z).
    { unfold AggregationSpec.sumAmounts.
      induction l as [|x l IH]; intros a; simpl; [lia|]. rewrite IH. lia. }
    rewrite G, (sumAmounts_perm Hperm). lia. }
  split; [exact Hperm|]. split; [|split; [exact Htotal|split; [|split]]].
  - eapply StronglySorted_impl;
      [|apply sortBy_sorted, (@docCompare_total Donation.t Donation.document)].
    intros a b Hab. unfold notGt, Firestore.docCompare in Hab. simpl in Hab.
    intros Hlt. rewrite Hlt in Hab. simpl in Hab. discriminate.
  - rewrite Htotal. unfold AggregationSpec.sumAmounts, HistorySpec.datedDonationsOf.
    match goal with
    | |- context [filter ?f (donations db)] =>
        pose proof (sum_within_magnitude (map Donation.amount (filter f (donations db)))) as H1;
        pose proof (magnitude_filter Donation.amount f (donations db)) as H2
    end.
    unfold Exact.ExactAmounts in Hexact. lia.
  - unfold MemberHistory.recentContributions. apply length_firstn.
  - exists (skipn 5 sorted). unfold MemberHistory.recentContributions.
    symmetry. apply firstn_skipn.
Qed.

Lemma member_history_is_found_by_name_witness :
  let history :=
    MemberHistory.fetchMemberDonations MoreSamples.busyDb (Some MoreSamples.memberA) [] in
  let expected :=
    HistorySpec.datedDonationsOf (MemberDonationFormUI.name MoreSamples.memberA)
      (donations MoreSamples.busyDb) in
  (Permutation history expected /\
   StronglySorted
     (fun a b => Firestore.valueCompare (Donation.date a) (Donation.date b) <> Lt) history /\
   MemberHistory.totalContributions history = AggregationSpec.sumAmounts expected /\
   (Z.abs (MemberHistory.totalContributions history) <= Exact.maxExact)%Z /\
   List.length (MemberHistory.recentContributions history) =
     Nat.min 5 (List.length history) /\
   (exists older, history = MemberHistory.recentContributions history ++ older)) /\
  map Donation.id history = ["a5"; "a4"; "a3"; "a2"; "a1"; "a0"] /\
  map Donation.id (MemberHistory.recentContributions history) =
    ["a5"; "a4"; "a3"; "a2"; "a1"] /\
  MemberHistory.totalContributions history = 60%Z.
Proof.
  split; [|repeat split].
  apply (@member_history_is_found_by_name MoreSamples.busyDb MoreSamples.memberA []).
  - reflexivity.
  - unfold Exact.ExactAmounts, Exact.maxExact. vm_compute. discriminate.
Defined.

(** ** Handlers one after the other *)

(** X21 - "Load More" after "Clear" continues from the last search
    result.  After "Clear" the box is empty but the cursor is the last
    record of the search page (the store answering, the term not
    empty); the next "Load More" therefore asks for the records that
    come after that record by date.  A donation whose donor does not
    start with the old term and whose date is later than the date of
    that cursor record is not listed after the two steps, whatever the
    store holds when more is loaded. *)
Theorem load_more_after_clear_skips_newer :
  forall pageSize db db' st cursor e,
    DonorsPage.searchTerm st <> "" ->
    online db = true ->
    let cleared := DonorsPageUI.clearSearchWith pageSize db st in
    DonorsPage.lastVisible cleared = Some cursor ->
    String.prefix (DonorsPage.searchTerm st) (Donation.donor e) = false ->
    Firestore.valueCompare (Donation.date e) (Donation.date cursor) = Gt ->
    DonorsPage.searchTerm cleared = "" /\
    ~ In e (DonorsPage.allDonations (DonorsPage.loadMoreWith pageSize db' cleared)).
Proof.
  intros pageSize db db' st cursor e Hterm Ho cleared Hcur Hnomatch Hnewer.
  assert (Hlist : forall d, In d (DonorsPage.allDonations cleared) ->
                    String.prefix (DonorsPage.searchTerm st) (Donation.donor d) = true).
  { intros d Hin. subst cleared. unfold DonorsPageUI.clearSearchWith in Hin. simpl in Hin.
    destruct (@search_fetch pageSize true db st Hterm Ho) as (Hall & _).
    rewrite Hall, (donorsQuery_search pageSize true st Hterm) in Hin.
    apply (@runQuery_In Donation.t Donation.document) in Hin. destruct Hin as [_ Hsat].
    simpl in Hsat. eapply search_filters_prefix. exact Hsat. }
  assert (Hempty : DonorsPage.searchTerm cleared = "") by reflexivity.
  split; [exact Hempty|].
  assert (Hnot : ~ In e (DonorsPage.allDonations cleared)).
  { intros Hin. apply Hlist in Hin. congruence. }
  unfold DonorsPage.loadMoreWith.
  destruct (negb (DonorsPage.loading cleared) && DonorsPage.hasMore cleared); [|exact Hnot].
  set (st1 := DonorsPage.setCurrentPage (DonorsPage.currentPage cleared + 1) cleared).
  destruct (online db') eqn:Ho'.
  - destruct (@fetchDonors_shape pageSize false db' st1 Ho') as (_ & _ & Hall).
    rewrite Hall. intros Hin. apply in_app_or in Hin.
    destruct Hin as [Hin|Hin]; [exact (Hnot Hin)|].
    unfold collection_donations in Hin.
    rewrite (@donorsQuery_default pageSize false st1 Hempty) in Hin.
    change (DonorsPage.lastVisible st1) with (DonorsPage.lastVisible cleared) in Hin.
    rewrite Hcur in Hin.
    apply (@runQuery_after_cursor Donation.t Donation.document _ _ cursor) in Hin;
      [|reflexivity].
    unfold Firestore.docCompare in Hin. simpl in Hin.
    rewrite (@valueCompare_antisym (Donation.date e) (Donation.date cursor)), Hnewer in Hin.
    simpl in Hin. discriminate.
  - unfold DonorsPage.fetchDonorsWith, getDocs. rewrite Ho'. exact Hnot.
Qed.

Lemma load_more_after_clear_skips_newer_witness :
  DonorsPage.searchTerm
    (DonorsPageUI.clearSearchWith 10 Samples.searchDb Samples.searchedA) = "" /\
  ~ In MoreSamples.bob
      (DonorsPage.allDonations
         (DonorsPage.loadMoreWith 10 Samples.searchDb
            (DonorsPageUI.clearSearchWith 10 Samples.searchDb Samples.searchedA))).
Proof.
  apply (@load_more_after_clear_skips_newer 10 Samples.searchDb Samples.searchDb
           Samples.searchedA MoreSamples.lastA MoreSamples.bob).
  - vm_compute. discriminate.
  - reflexivity.
  - reflexivity.
  - reflexivity.
  - reflexivity.
Defined.

(** X22 - from the feed to the content page.  After a sync on a store
    that answers, for a feed whose post ids are distinct, the content
    page fetched from the resulting store shows, for every post of the
    feed, an article with that post's id, rendered title, rendered
    content and dates. *)
Theorem synced_posts_are_shown :
  forall autoId now fetch (wpUrl : string) posts db st,
    WordPressSync.Fresh autoId ->
    WordPressSync.Healthy db ->
    fetch (wpUrl ++ "/posts?_embed&per_page=100")%string = Ok posts ->
    NoDup (map WordPressSync.id posts) ->
    let db' := fst (WordPressSync.syncWordPressData autoId now fetch wpUrl db) in
    let page := WordPressContent.fetchPosts db' st in
    WordPressContent.error page = None /\
    forall post, In post posts ->
      exists article, In article (WordPressContent.posts page) /\
        WordPressDoc.wp_id article = WordPressSync.id post /\
        WordPressDoc.title article = WordPressSync.title_rendered post /\
        WordPressDoc.content article = WordPressSync.content_rendered post /\
        WordPressDoc.date article = WordPressSync.date post /\
        WordPressDoc.last_modified article = WordPressSync.modified post.
Proof.
  intros autoId now fetch wpUrl posts db st Hfresh Hh Hf Hnd db' page.
  destruct (@syncPosts_writes autoId Hfresh now posts 0%nat db Hh)
    as (db1 & Hrun & Hh1 & _ & Hnew & _).
  assert (E : db' = db1).
  { subst db'. unfold WordPressSync.syncWordPressData. rewrite Hf, Hrun. reflexivity. }
  subst page. rewrite E. destruct Hh1 as [Ho1 _].
  unfold WordPressContent.fetchPosts, getDocs, collection_wordpress_posts.
  rewrite Ho1. simpl. split; [reflexivity|].
  intros post Hin. apply In_nth_error in Hin. destruct Hin as [k Hk].
  destruct (Hnew Hnd k post Hk) as [docId Hdoc].
  exists (WordPressSync.postData now post k docId). split; [|repeat split].
  unfold Firestore.runQuery. simpl.
  rewrite filter_all by (intros d _; reflexivity).
  apply sortBy_In. exact Hdoc.
Qed.

Lemma synced_posts_are_shown_witness :
  let db' := fst (WordPressSync.syncWordPressData Samples.longerId (Samples.clock "1")
                    Samples.feed1 "https://example.org/wp-json/wp/v2" Samples.emptyDb) in
  let page := WordPressContent.fetchPosts db' WordPressContent.initialState in
  WordPressContent.error page = None /\
  forall post, In post [Samples.post 7 "Hello"; Samples.post 9 "News"] ->
    exists article, In article (WordPressContent.posts page) /\
      WordPressDoc.wp_id article = WordPressSync.id post /\
      WordPressDoc.title article = WordPressSync.title_rendered post /\
      WordPressDoc.content article = WordPressSync.content_rendered post /\
      WordPressDoc.date article = WordPressSync.date post /\
      WordPressDoc.last_modified article = WordPressSync.modified post.
Proof.
  apply (@synced_posts_are_shown Samples.longerId (Samples.clock "1") Samples.feed1
           "https://example.org/wp-json/wp/v2"
           [Samples.post 7 "Hello"; Samples.post 9 "News"] Samples.emptyDb
           WordPressContent.initialState).
  - exact longerId_fresh.
  - split; [reflexivity|constructor].
  - reflexivity.
  - simpl. repeat constructor; simpl; intuition discriminate.
Defined.
